(** * Feedback intake service: a shallow embedding and its verified properties

    The development follows the Python sources under [app/]:
    - [app/config.py]            configuration constants,
    - [app/database.py]          the SQLite schema (tables [feedback],
                                 [rate_limits], [users]),
    - [app/background_tasks.py]  the periodic eviction sweep,
    - [app/ai_pipeline.py]       the enrichment worker,
    - [app/auth.py]              session validation,
    - [app/main.py]              the request handlers.

    Python [str] values are sequences of Unicode code points, SQLite TEXT
    values are compared bytewise (which, on UTF-8, is code point order), so
    both are modelled by [list N]. *)

From Stdlib Require Import String Ascii List ZArith NArith Bool Lia Setoid.
From Stdlib Require QArith_base.
From Stdlib Require Import Permutation.
Import ListNotations.

(** ** Python strings *)

Module Py.

Definition str := list N.

(** UTF-8 decoding of a source literal, so that the keyword tables can be
    written as they are in the Python file. *)
Fixpoint utf8_decode (bs : list N) : str :=
  match bs with
  | [] => []
  | b0 :: r0 =>
      if (b0 <? 128)%N then b0 :: utf8_decode r0
      else if (b0 <? 224)%N then
        match r0 with
        | b1 :: r1 => ((b0 - 192) * 64 + (b1 - 128))%N :: utf8_decode r1
        | _ => []
        end
      else if (b0 <? 240)%N then
        match r0 with
        | b1 :: b2 :: r2 =>
            ((b0 - 224) * 4096 + (b1 - 128) * 64 + (b2 - 128))%N :: utf8_decode r2
        | _ => []
        end
      else
        match r0 with
        | b1 :: b2 :: b3 :: r3 =>
            ((b0 - 240) * 262144 + (b1 - 128) * 4096 + (b2 - 128) * 64 + (b3 - 128))%N
              :: utf8_decode r3
        | _ => []
        end
  end.

Definition u (s : string) : str :=
  utf8_decode (map N_of_ascii (list_ascii_of_string s)).

Fixpoint str_eqb (a b : str) : bool :=
  match a, b with
  | [], [] => true
  | x :: a', y :: b' => (x =? y)%N && str_eqb a' b'
  | _, _ => false
  end.

(** Comparison of two TEXT values under SQLite's BINARY collation. *)
Fixpoint str_cmp (a b : str) : comparison :=
  match a, b with
  | [], [] => Eq
  | [], _ :: _ => Lt
  | _ :: _, [] => Gt
  | x :: a', y :: b' =>
      match (x ?= y)%N with
      | Eq => str_cmp a' b'
      | c => c
      end
  end.

Definition str_ltb (a b : str) : bool :=
  match str_cmp a b with Lt => true | _ => false end.

(** [x in xs] for a tuple or list of strings. *)
Definition str_in (x : str) (xs : list str) : bool := existsb (str_eqb x) xs.

(** [s[:n]] *)
Definition slice_to (n : nat) (s : str) : str := firstn n s.

(** [sep.join(parts)] *)
Fixpoint join (sep : str) (parts : list str) : str :=
  match parts with
  | [] => []
  | [p] => p
  | p :: rest => p ++ sep ++ join sep rest
  end.

(** [str.isspace] on one character: the Unicode White_Space set together
    with the four information separators, as CPython has it. *)
Definition isspace (c : N) : bool :=
  ((9 <=? c) && (c <=? 13) || (28 <=? c) && (c <=? 32) || (c =? 133)
   || (c =? 160) || (c =? 5760) || (8192 <=? c) && (c <=? 8202)
   || (c =? 8232) || (c =? 8233) || (c =? 8239) || (c =? 8287)
   || (c =? 12288))%N.

Fixpoint lstrip (s : str) : str :=
  match s with
  | [] => []
  | c :: s' => if isspace c then lstrip s' else s
  end.

Definition rstrip (s : str) : str := rev (lstrip (rev s)).

(** [s.strip()] *)
Definition strip (s : str) : str := rstrip (lstrip s).

Fixpoint starts_with (p s : str) : bool :=
  match p, s with
  | [], _ => true
  | x :: p', y :: s' => (x =? y)%N && starts_with p' s'
  | _ :: _, [] => false
  end.

(** [kw in s] for strings: substring search. *)
Fixpoint contains (kw s : str) : bool :=
  starts_with kw s ||
  match s with
  | [] => false
  | _ :: s' => contains kw s'
  end.

End Py.

Import Py.

(** ** [datetime] values and their two textual forms *)

Module Datetime.

(** A naive [datetime.datetime], field by field. *)
Record datetime := mk_datetime {
  year : N; month : N; day : N;
  hour : N; minute : N; second : N; microsecond : N
}.

Definition is_leap (y : N) : bool :=
  ((y mod 4 =? 0) && (negb (y mod 100 =? 0) || (y mod 400 =? 0)))%N.

Definition days_in_month (y m : N) : N :=
  (if m =? 2 then (if is_leap y then 29 else 28)
   else if (m =? 4) || (m =? 6) || (m =? 9) || (m =? 11) then 30
   else 31)%N.

(** The values [datetime] accepts. *)
Definition valid (d : datetime) : bool :=
  ((1 <=? year d) && (year d <=? 9999) && (1 <=? month d) && (month d <=? 12)
   && (1 <=? day d) && (day d <=? days_in_month (year d) (month d))
   && (hour d <=? 23) && (minute d <=? 59) && (second d <=? 59)
   && (microsecond d <=? 999999))%N.

(** The fields fit the width they are printed on. *)
Definition printable (d : datetime) : Prop :=
  (year d < 10000 /\ month d < 100 /\ day d < 100 /\ hour d < 100 /\
   minute d < 100 /\ second d < 100 /\ microsecond d < 1000000)%N.

(** Chronological order. *)
Definition key (d : datetime) : list N :=
  [year d; month d; day d; hour d; minute d; second d; microsecond d].

Definition dt_cmp (a b : datetime) : comparison := str_cmp (key a) (key b).

Definition dt_ltb (a b : datetime) : bool :=
  match dt_cmp a b with Lt => true | _ => false end.

Definition dt_leb (a b : datetime) : bool :=
  match dt_cmp a b with Gt => false | _ => true end.

(** The calendar day of [a] is before the calendar day of [b]. *)
Definition day_ltb (a b : datetime) : bool :=
  match str_cmp [year a; month a; day a] [year b; month b; day b] with
  | Lt => true
  | _ => false
  end.

(** [d - timedelta(hours=24)]: the same time of day on the previous
    calendar day.  (Python raises OverflowError below year 1; the clock
    never is there.) *)
Definition minus_24h (d : datetime) : datetime :=
  if (1 <? day d)%N then
    mk_datetime (year d) (month d) (day d - 1)
                (hour d) (minute d) (second d) (microsecond d)
  else if (1 <? month d)%N then
    mk_datetime (year d) (month d - 1) (days_in_month (year d) (month d - 1))
                (hour d) (minute d) (second d) (microsecond d)
  else
    mk_datetime (year d - 1) 12 31
                (hour d) (minute d) (second d) (microsecond d).

(** Decimal rendering on [k] digits, zero padded. *)
Fixpoint zfill (k : nat) (n : N) : str :=
  match k with
  | O => []
  | S k' => (48 + (n / 10 ^ N.of_nat k') mod 10)%N :: zfill k' n
  end.

Definition date_part (d : datetime) : str :=
  zfill 4 (year d) ++ u "-" ++ zfill 2 (month d) ++ u "-" ++ zfill 2 (day d).

Definition time_part (d : datetime) : str :=
  zfill 2 (hour d) ++ u ":" ++ zfill 2 (minute d) ++ u ":" ++ zfill 2 (second d).

(** [d.isoformat()]: [YYYY-MM-DDTHH:MM:SS], followed by [.ffffff] when the
    microsecond field is not zero. *)
Definition isoformat (d : datetime) : str :=
  date_part d ++ u "T" ++ time_part d ++
  (if (microsecond d =? 0)%N then [] else u "." ++ zfill 6 (microsecond d)).

(** SQLite's [CURRENT_TIMESTAMP] at the instant [d]: [YYYY-MM-DD HH:MM:SS]
    (UTC, whole seconds, a space between date and time). *)
Definition CURRENT_TIMESTAMP (d : datetime) : str :=
  date_part d ++ u " " ++ time_part d.

End Datetime.

Import Datetime.

(** ** Configuration ([app/config.py]) *)

(** The constants read from the environment when the process starts. *)
Record config := mk_config {
  SECRET_KEY : str;
  RATE_LIMIT_MAX : Z;
  MAX_FILE_SIZE : Z;
  OPENAI_API_KEY : str
}.

(** The values taken when the environment sets nothing but the key. *)
Definition default_config (secret_key : str) : config :=
  mk_config secret_key 10 (5 * 1024 * 1024) [].

Definition ALLOWED_TAGS : list str :=
  [u "Salary"; u "Store"; u "Product"; u "Conflict"; u "Legal";
   u "Management"; u "Schedule"; u "Safety"; u "Training"; u "Equipment";
   u "Customer"; u "Policy"; u "Communication"; u "Hygiene"; u "Other"].

(** ** The [rate_limits] table and the rate limiter *)

Module RateLimits.

(** One row of [rate_limits]. *)
Record entry := mk_entry { ip_hash : str; submitted_at : str }.

Definition table := list entry.

(** [INSERT INTO rate_limits (ip_hash) VALUES (?)] at the instant [now]:
    the column default [CURRENT_TIMESTAMP] fills [submitted_at]. *)
Definition insert_default (h : str) (now : datetime) (t : table) : table :=
  t ++ [mk_entry h (CURRENT_TIMESTAMP now)].

(** [SELECT COUNT( * ) FROM rate_limits WHERE ip_hash = ? AND submitted_at > ?] *)
Definition count_since (t : table) (h cutoff : str) : Z :=
  Z.of_nat (length (filter
    (fun e => str_eqb (ip_hash e) h && str_ltb cutoff (submitted_at e)) t)).

(** [DELETE FROM rate_limits WHERE submitted_at < ?]: the rows left and the
    number of rows deleted. *)
Definition delete_before (t : table) (cutoff : str) : table * Z :=
  (filter (fun e => negb (str_ltb (submitted_at e) cutoff)) t,
   Z.of_nat (length (filter (fun e => str_ltb (submitted_at e) cutoff) t))).

End RateLimits.

(** [_check_rate_limit] of [app/main.py]; [now] is the value of
    [datetime.utcnow()]. *)
Definition _check_rate_limit (cfg : config) (t : RateLimits.table)
    (ip_hash : str) (now : datetime) : bool :=
  let cutoff := isoformat (minus_24h now) in
  let count := RateLimits.count_since t ip_hash cutoff in
  (count <? RATE_LIMIT_MAX cfg)%Z.

(** [cleanup_old_rate_limits] of [app/background_tasks.py]: the table after
    the sweep and the returned number of deleted rows.  [db_raises] tells
    whether the connection or the statement raised, in which case the
    handler logs the error and returns 0, and nothing was committed. *)
Definition cleanup_old_rate_limits (db_raises : bool) (t : RateLimits.table)
    (now : datetime) : RateLimits.table * Z :=
  if db_raises then (t, 0%Z)
  else
    let cutoff := isoformat (minus_24h now) in
    RateLimits.delete_before t cutoff.

(** ** The [feedback] table ([app/database.py]) *)

(** [status]: the CHECK constraint of the column. *)
Inductive workflow_status :=
| St_new | St_read | St_in_progress | St_resolved | St_rejected.

(** [ai_status]: the CHECK constraint of the column. *)
Inductive enrichment_status :=
| Ai_pending | Ai_processing | Ai_done | Ai_failed.

Module Feedback.

(** One row of [feedback]; a column that may hold NULL is an [option]. *)
Record row := mk_row {
  id : Z;
  submission_id : str;
  category : str;
  message : option str;
  photo_path : option str;
  status : workflow_status;
  ip_hash : option str;
  user_agent : option str;
  ai_status : enrichment_status;
  translation_en : option str;
  translation_ru : option str;
  summary : option str;
  tags : option str;
  detected_language : option str;
  private_note : option str;
  is_deleted : Z;
  created_at : str;
  updated_at : str
}.

Definition table := list row.

(** [SET ai_status = ?] *)
Definition set_ai_status (a : enrichment_status) (r : row) : row :=
  mk_row (id r) (submission_id r) (category r) (message r) (photo_path r)
         (status r) (ip_hash r) (user_agent r) a
         (translation_en r) (translation_ru r) (summary r) (tags r)
         (detected_language r) (private_note r) (is_deleted r)
         (created_at r) (updated_at r).

(** [SET ai_status = 'done', detected_language = ?, translation_en = ?,
    translation_ru = ?, summary = ?, tags = ?] *)
Definition set_enrichment (lang en ru summ tgs : str) (r : row) : row :=
  mk_row (id r) (submission_id r) (category r) (message r) (photo_path r)
         (status r) (ip_hash r) (user_agent r) Ai_done
         (Some en) (Some ru) (Some summ) (Some tgs)
         (Some lang) (private_note r) (is_deleted r)
         (created_at r) (updated_at r).

(** [SET status = ?, updated_at = ?] *)
Definition set_status (st : workflow_status) (now : str) (r : row) : row :=
  mk_row (id r) (submission_id r) (category r) (message r) (photo_path r)
         st (ip_hash r) (user_agent r) (ai_status r)
         (translation_en r) (translation_ru r) (summary r) (tags r)
         (detected_language r) (private_note r) (is_deleted r)
         (created_at r) now.

(** Two versions of a row that agree on every column but the enrichment
    status and the five enrichment outputs. *)
Definition same_outside_enrichment (r r' : row) : Prop :=
  id r' = id r /\ submission_id r' = submission_id r /\
  category r' = category r /\ message r' = message r /\
  photo_path r' = photo_path r /\ status r' = status r /\
  ip_hash r' = ip_hash r /\ user_agent r' = user_agent r /\
  private_note r' = private_note r /\ is_deleted r' = is_deleted r /\
  created_at r' = created_at r /\ updated_at r' = updated_at r.

(** Two versions of a row that agree on every column but the workflow
    status and the last-updated stamp. *)
Definition same_outside_status (r r' : row) : Prop :=
  id r' = id r /\ submission_id r' = submission_id r /\
  category r' = category r /\ message r' = message r /\
  photo_path r' = photo_path r /\ ip_hash r' = ip_hash r /\
  user_agent r' = user_agent r /\ ai_status r' = ai_status r /\
  translation_en r' = translation_en r /\
  translation_ru r' = translation_ru r /\
  summary r' = summary r /\ tags r' = tags r /\
  detected_language r' = detected_language r /\
  private_note r' = private_note r /\ is_deleted r' = is_deleted r /\
  created_at r' = created_at r.

(** [UPDATE feedback SET ... WHERE id = ?] *)
Definition update_where_id (i : Z) (f : row -> row) (t : table) : table :=
  map (fun r => if (id r =? i)%Z then f r else r) t.

(** [UPDATE feedback SET ... WHERE id IN (...)] *)
Definition update_where_id_in (ids : list Z) (f : row -> row) (t : table) : table :=
  map (fun r => if existsb (Z.eqb (id r)) ids then f r else r) t.

(** [SELECT * FROM feedback WHERE id = ?] then [fetchone()] *)
Definition select_by_id (i : Z) (t : table) : option row :=
  find (fun r => (id r =? i)%Z) t.

(** [SELECT * FROM feedback WHERE id = ? AND is_deleted = 0] then [fetchone()] *)
Definition select_live_by_id (i : Z) (t : table) : option row :=
  find (fun r => (id r =? i)%Z && (is_deleted r =? 0)%Z) t.

(** [SELECT 1 FROM feedback WHERE submission_id = ?] then [fetchone()] *)
Definition exists_submission_id (sid : str) (t : table) : bool :=
  existsb (fun r => str_eqb (submission_id r) sid) t.

End Feedback.

(** ** The enrichment worker ([app/ai_pipeline.py]) *)

Module Pipeline.

(** *** Effects

    A worker invocation opens its own connection, updates the [feedback]
    table, calls the remote service and may be interrupted by exceptions;
    [try]/[except] resumes with the tables as the failed step left them.
    The world holds the table as the connection sees it (with the updates
    of its open transaction), the table as committed, and the record of
    which of the two enrichment paths were entered. *)

Inductive exn := DbError | RemoteError | UnboundLocalError.

Inductive event := Ev_remote_call | Ev_heuristic.

Record world := mk_world {
  w_feedback : Feedback.table;
  w_committed : Feedback.table;
  w_trace : list event
}.

Inductive outcome (A : Type) :=
| Returned (a : A)
| Raised (e : exn).

Arguments Returned {A} a.
Arguments Raised {A} e.

Definition M (A : Type) : Type := world -> outcome A * world.

Definition ret {A} (a : A) : M A := fun w => (Returned a, w).

Definition bind {A B} (m : M A) (k : A -> M B) : M B :=
  fun w =>
    match m w with
    | (Returned a, w') => k a w'
    | (Raised e, w') => (Raised e, w')
    end.

Definition raise {A} (e : exn) : M A := fun w => (Raised e, w).

(** [try: m except Exception: h] *)
Definition try_except {A} (m : M A) (h : exn -> M A) : M A :=
  fun w =>
    match m w with
    | (Returned a, w') => (Returned a, w')
    | (Raised e, w') => h e w'
    end.

(** [try: m finally: c] *)
Definition try_finally {A} (m : M A) (c : world -> world) : M A :=
  fun w =>
    match m w with
    | (o, w') => (o, c w')
    end.

Notation "x <- m ;; k" := (bind m (fun x => k))
  (at level 61, m at next level, right associativity).
Notation "m ;; k" := (bind m (fun _ => k))
  (at level 61, right associativity).

Definition note (ev : event) : M unit :=
  fun w =>
    (Returned tt, mk_world (w_feedback w) (w_committed w) (w_trace w ++ [ev])).

(** [db.execute("UPDATE feedback SET ... WHERE id = ?")]: it raises and
    changes nothing, or the connection sees the update. *)
Definition execute_update (raises : bool) (i : Z)
    (f : Feedback.row -> Feedback.row) : M unit :=
  fun w =>
    if raises then (Raised DbError, w)
    else (Returned tt,
          mk_world (Feedback.update_where_id i f (w_feedback w))
                   (w_committed w) (w_trace w)).

(** [db.commit()]: it raises and the transaction stays open, or what the
    connection sees is committed. *)
Definition commit (raises : bool) : M unit :=
  fun w =>
    if raises then (Raised DbError, w)
    else (Returned tt, mk_world (w_feedback w) (w_feedback w) (w_trace w)).

(** [db.close()]: what was not committed is dropped. *)
Definition close (w : world) : world :=
  mk_world (w_committed w) (w_committed w) (w_trace w).

(** [db.execute("SELECT * FROM feedback WHERE id = ?").fetchone()] *)
Definition fetch_row (raises : bool) (i : Z) : M (option Feedback.row) :=
  fun w =>
    if raises then (Raised DbError, w)
    else (Returned (Feedback.select_by_id i (w_feedback w)), w).

(** *** What the surroundings decide during one invocation *)

(** The fields of the JSON object answered by the remote service, as
    [result.get] finds them: [None] is an absent key; [r_tags] is [None]
    when the key holds no list. *)
Record remote_result := mk_remote_result {
  r_detected_language : option str;
  r_translation_en : option str;
  r_translation_ru : option str;
  r_summary : option str;
  r_tags : option (list str)
}.

(** The request to the remote service: an exception of any class raised
    between the construction of the client and the extraction of the
    fields (authentication, quota, timeout, connection, API error, a body
    that is no JSON object), or a parsed result. *)
Inductive remote_reply :=
| Remote_raises
| Remote_result (r : remote_result).

(** Whether an UPDATE raises, and whether the commit after it does. *)
Record statement := mk_statement {
  on_execute : bool;
  on_commit : bool
}.

Definition raises (s : statement) : bool := on_execute s || on_commit s.

Definition sound : statement := mk_statement false false.

(** Which statements raise, and what the remote service answers. *)
Record env := mk_env {
  mark_processing : statement;     (* UPDATE ... 'processing' *)
  fetch_raises : bool;             (* SELECT of the row *)
  mark_empty : statement;          (* UPDATE of the empty-message case *)
  openai_import_fails : bool;      (* [from openai import ...] *)
  remote : remote_reply;           (* the request and its parsing *)
  store_remote : statement;        (* UPDATE with the remote result *)
  store_heuristic : statement;     (* UPDATE at the end of _process_fallback *)
  mark_failed_inner : statement;   (* UPDATE 'failed' in _fallback_on_error *)
  mark_failed_outer : statement    (* UPDATE 'failed' in _process *)
}.

(** *** The local heuristics of [_process_fallback] *)

(** [str.lower], character by character.  It is CPython's on every
    character whose lower case holds an ASCII or a Thai character (the
    letters A to Z, U+0130 and the Kelvin sign U+212A); the other cased
    letters stay as they are, which no keyword of the table below can
    tell, as each one is written in lower case ASCII or in Thai. *)
Definition lower_char (c : N) : str :=
  if ((65 <=? c) && (c <=? 90))%N then [(c + 32)%N]
  else if (c =? 304)%N then [105; 775]%N
  else if (c =? 8490)%N then [107]%N
  else [c].

Definition lower (s : str) : str := flat_map lower_char s.

Definition keywords_map : list (str * list str) :=
  [ (u "Salary", [u "salary"; u "pay"; u "wage"; u "money"; u "bonus"; u "compensation"; u "เงินเดือน"]);
    (u "Store", [u "store"; u "shop"; u "location"; u "branch"; u "ร้าน"]);
    (u "Product", [u "product"; u "strain"; u "weed"; u "cannabis"; u "flower"; u "edible"; u "สินค้า"]);
    (u "Conflict", [u "conflict"; u "fight"; u "argue"; u "bully"; u "harass"; u "toxic"; u "ทะเลาะ"]);
    (u "Legal", [u "legal"; u "law"; u "license"; u "regulation"; u "กฎหมาย"]);
    (u "Management", [u "manager"; u "boss"; u "supervisor"; u "lead"; u "ผู้จัดการ"]);
    (u "Schedule", [u "schedule"; u "shift"; u "overtime"; u "hours"; u "time"; u "ตารางงาน"]);
    (u "Safety", [u "safety"; u "danger"; u "risk"; u "accident"; u "unsafe"; u "ความปลอดภัย"]);
    (u "Training", [u "training"; u "learn"; u "skill"; u "course"; u "การฝึกอบรม"]);
    (u "Equipment", [u "equipment"; u "tool"; u "broken"; u "fix"; u "repair"; u "อุปกรณ์"]);
    (u "Customer", [u "customer"; u "client"; u "complaint"; u "ลูกค้า"]);
    (u "Policy", [u "policy"; u "rule"; u "procedure"; u "นโยบาย"]);
    (u "Communication", [u "communication"; u "inform"; u "meeting"; u "การสื่อสาร"]);
    (u "Hygiene", [u "clean"; u "dirty"; u "hygiene"; u "sanit"; u "สะอาด"]) ].

(** The inner loop: some keyword of the row occurs in the message. *)
Definition row_matches (msg_lower : str) (kws : list str) : bool :=
  existsb (fun kw => contains kw msg_lower) kws.

(** The outer loop over [keywords_map.items()], entered with the tags
    gathered so far. *)
Fixpoint scan_keywords (table : list (str * list str)) (msg_lower : str)
    (tags : list str) : list str :=
  match table with
  | [] => tags
  | (tag, kws) :: rest =>
      let tags' := if row_matches msg_lower kws then tags ++ [tag] else tags in
      if (3 <=? length tags')%nat then tags'
      else scan_keywords rest msg_lower tags'
  end.

(** The tags of a message: the loop, then the default. *)
Definition fallback_tags (message : str) : list str :=
  let tags := scan_keywords keywords_map (lower message) [] in
  match tags with
  | [] => [u "Other"]
  | _ => tags
  end.

(** The tags of the table of which some keyword occurs in the lower-cased
    message, in the order of the table: what the derivation is to pick
    from. *)
Definition matching_tags (message : str) : list str :=
  map fst (filter (fun row => row_matches (lower message) (snd row)) keywords_map).

Definition in_range (lo hi : N) (c : N) : bool := ((lo <=? c) && (c <=? hi))%N.

Definition detect_language (message : str) : str :=
  let has_thai := existsb (in_range 3584 3711) message in
  let has_cyrillic := existsb (in_range 1024 1279) message in
  let has_chinese := existsb (in_range 19968 40959) message in
  let has_arabic := existsb (in_range 1536 1791) message in
  if has_thai then u "th"
  else if has_cyrillic then u "ru"
  else if has_chinese then u "zh"
  else if has_arabic then u "ar"
  else u "en".

Definition fallback_summary (message : str) : str :=
  if (150 <? length message)%nat then slice_to 147 message ++ u "..."
  else message.

(** *** The worker *)

(** [x or ""] on a column value. *)
Definition or_empty (x : option str) : str :=
  match x with Some s => s | None => [] end.

(** Truth value of a string. *)
Definition truthy (s : str) : bool :=
  match s with [] => false | _ => true end.

Definition _process_fallback (e : env) (feedback_id : Z) (message : str) : M unit :=
  note Ev_heuristic ;;
  let summary := fallback_summary message in
  let tags := fallback_tags message in
  let detected := detect_language message in
  execute_update (on_execute (store_heuristic e)) feedback_id
    (Feedback.set_enrichment
       detected
       (if str_eqb detected (u "en") then message
        else u "[Auto-translation unavailable] " ++ message)
       (u "[Требуется перевод] " ++ message)
       summary
       (join (u ",") tags)) ;;
  commit (on_commit (store_heuristic e)).

Definition _fallback_on_error (e : env) (feedback_id : Z) (message : str) : M unit :=
  try_except
    (_process_fallback e feedback_id message)
    (fun _ =>
       execute_update (on_execute (mark_failed_inner e)) feedback_id
         (Feedback.set_ai_status Ai_failed) ;;
       commit (on_commit (mark_failed_inner e))).

(** The import stands inside the [try]: when it fails, the names of the
    exception classes are unbound locals, the first [except] clause cannot
    be evaluated and the function is left by that error. *)
Definition _process_with_openai (e : env) (feedback_id : Z) (message : str) : M unit :=
  if openai_import_fails e then raise UnboundLocalError
  else
    try_except
      (note Ev_remote_call ;;
       match remote e with
       | Remote_raises => raise RemoteError
       | Remote_result result =>
           let tags_str :=
             match r_tags result with
             | Some tags =>
                 join (u ",") (filter (fun t => str_in t ALLOWED_TAGS) tags)
             | None => []
             end in
           execute_update (on_execute (store_remote e)) feedback_id
             (Feedback.set_enrichment
                (match r_detected_language result with
                 | Some l => l | None => u "unknown" end)
                (or_empty (r_translation_en result))
                (or_empty (r_translation_ru result))
                (slice_to 150 (or_empty (r_summary result)))
                tags_str) ;;
           commit (on_commit (store_remote e))
       end)
      (fun _ => _fallback_on_error e feedback_id message).

(** [_process] from its [try] on: the connection is open. *)
Definition _process_connected (cfg : config) (e : env) (feedback_id : Z) : M unit :=
  try_finally
    (try_except
       (execute_update (on_execute (mark_processing e)) feedback_id
          (Feedback.set_ai_status Ai_processing) ;;
        commit (on_commit (mark_processing e)) ;;
        row <- fetch_row (fetch_raises e) feedback_id ;;
        match row with
        | None => ret tt
        | Some row =>
            let message := or_empty (Feedback.message row) in
            if negb (truthy (strip message)) then
              execute_update (on_execute (mark_empty e)) feedback_id
                (Feedback.set_enrichment (u "unknown") [] [] [] []) ;;
              commit (on_commit (mark_empty e))
            else if truthy (OPENAI_API_KEY cfg) then
              _process_with_openai e feedback_id message
            else
              _process_fallback e feedback_id message
        end)
       (fun _ =>
          try_except
            (execute_update (on_execute (mark_failed_outer e)) feedback_id
               (Feedback.set_ai_status Ai_failed) ;;
             commit (on_commit (mark_failed_outer e)))
            (fun _ => ret tt)))
    close.

(** [_process]: [sqlite3.connect] stands before the [try]; when it raises,
    the thread ends with that exception and nothing was written or
    marked. *)
Definition _process (cfg : config) (e : env) (connect_raises : bool)
    (feedback_id : Z) : M unit :=
  if connect_raises then raise DbError
  else _process_connected cfg e feedback_id.

(** One worker invocation whose connection opened, started on the
    committed table [t]: the world it ends in.  [w_committed] of it is the
    table the invocation leaves. *)
Definition run_process (cfg : config) (e : env) (feedback_id : Z)
    (t : Feedback.table) : world :=
  snd (_process_connected cfg e feedback_id (mk_world t t [])).

(** One run of the worker thread started on the committed table [t]. *)
Definition run_thread (cfg : config) (e : env) (connect_raises : bool)
    (feedback_id : Z) (t : Feedback.table) : world :=
  snd (_process cfg e connect_raises feedback_id (mk_world t t [])).

(** What an invocation for the identifier [i] may do to a row: nothing
    when the row has another identifier, and at most a change of the
    enrichment status and outputs otherwise. *)
Definition frame (i : Z) (r r' : Feedback.row) : Prop :=
  (Feedback.id r <> i -> r' = r) /\ Feedback.same_outside_enrichment r r'.

(** Both tables of a world are within the frame of [i] around [t0]. *)
Definition framed (i : Z) (t0 : Feedback.table) (w : world) : Prop :=
  Forall2 (frame i) t0 (w_feedback w) /\ Forall2 (frame i) t0 (w_committed w).

(** A computation of the worker that keeps the frame of [i]. *)
Definition keeps {A} (i : Z) (m : M A) : Prop :=
  forall t0 w, framed i t0 w -> framed i t0 (snd (m w)).

(** No statement raises, the remote service is unreachable. *)
Definition calm : env :=
  mk_env sound false sound false Remote_raises sound sound sound sound.

End Pipeline.

(** ** Session validation ([app/auth.py]) *)

Module Users.

(** One row of [users]. *)
Record user := mk_user {
  id : Z;
  email : str;
  password_hash : str;
  name : str;
  role : str;
  is_active : Z
}.

Definition table := list user.

End Users.

Module Auth.

(** What [jwt.decode(token, SECRET_KEY, algorithms=[ALGORITHM])] does with
    a token: it raises [ExpiredSignatureError], it raises another
    [JWTError] (bad signature, bad structure, bad claims), or it returns
    the payload, of which the code reads [payload.get("sub")]. *)
Inductive decoded :=
| Expired_signature
| Jwt_error
| Payload (sub : option str).

(** The [HTTPException] with status 302 raised by the dependency: its
    [Location] header and, when present, its [Set-Cookie] header. *)
Record redirect := mk_redirect {
  location : str;
  set_cookie : option str
}.

Definition clear_cookie : str := u "access_token=; Max-Age=0; Path=/; HttpOnly".

(** The value of a string of decimal digits, for the comparison of the
    text parameter with the INTEGER column [id] (a token issued by
    [create_access_token] carries [str(user["id"])]). *)
Fixpoint digits_value (acc : Z) (s : str) : option Z :=
  match s with
  | [] => Some acc
  | c :: s' =>
      if ((48 <=? c) && (c <=? 57))%N
      then digits_value (acc * 10 + Z.of_N (c - 48)) s'
      else None
  end.

Definition id_of_text (s : str) : option Z :=
  match s with
  | [] => None
  | _ => digits_value 0 s
  end.

(** [SELECT * FROM users WHERE id = ? AND is_active = 1] then [fetchone()] *)
Definition select_active (user_id : str) (users : Users.table) : option Users.user :=
  match id_of_text user_id with
  | None => None
  | Some i =>
      find (fun x => (Users.id x =? i)%Z && (Users.is_active x =? 1)%Z) users
  end.

Section WithDecoder.

Variable jwt_decode : str -> decoded.

(** [get_current_user]; [cookie] is [request.cookies.get("access_token")]. *)
Definition get_current_user (cookie : option str) (users : Users.table)
    : redirect + Users.user :=
  match cookie with
  | None => inl (mk_redirect (u "/admin/login?error=no_token") None)
  | Some [] => inl (mk_redirect (u "/admin/login?error=no_token") None)
  | Some token =>
      match jwt_decode token with
      | Expired_signature =>
          inl (mk_redirect (u "/admin/login?error=token_expired") (Some clear_cookie))
      | Jwt_error =>
          inl (mk_redirect (u "/admin/login?error=invalid_token") (Some clear_cookie))
      | Payload None =>
          inl (mk_redirect (u "/admin/login?error=invalid_token") None)
      | Payload (Some user_id) =>
          match select_active user_id users with
          | None =>
              inl (mk_redirect (u "/admin/login?error=user_inactive") (Some clear_cookie))
          | Some user => inr user
          end
      end
  end.

End WithDecoder.

End Auth.

(** ** JSON request bodies and Python's [int] *)

Module Json.

#[local] Set Warnings "-register-all".

(** A value as [json.loads] builds it; a finite float is the rational it
    stands for. *)
Inductive json :=
| JNull
| JBool (b : bool)
| JInt (z : Z)
| JFloat (q : QArith_base.Q)
| JNaN
| JInfinity (negative : bool)
| JStr (s : str)
| JArr (items : list json)
| JObj (members : list (str * json)).

(** [not v] *)
Definition falsy (v : json) : bool :=
  match v with
  | JNull => true
  | JBool b => negb b
  | JInt z => (z =? 0)%Z
  | JFloat q => (QArith_base.Qnum q =? 0)%Z
  | JNaN => false
  | JInfinity _ => false
  | JStr s => match s with [] => true | _ => false end
  | JArr items => match items with [] => true | _ => false end
  | JObj members => match members with [] => true | _ => false end
  end.

(** [for x in v]: the items of a list, the characters of a string, the
    keys of an object; the other values are not iterable (TypeError). *)
Definition iterate (v : json) : option (list json) :=
  match v with
  | JArr items => Some items
  | JStr s => Some (map (fun c => JStr [c]) s)
  | JObj members => Some (map (fun kv => JStr (fst kv)) members)
  | _ => None
  end.

Inductive int_result :=
| Int_value (z : Z)
| Value_error
| Type_error
| Overflow_error.

Definition is_digit (c : N) : bool := ((48 <=? c) && (c <=? 57))%N.

(** What the interpreter decides about [int] on a string: the decimal
    value its Unicode database gives a character at or above U+007F
    ([Py_UNICODE_TODECIMAL]; [None] for a character that is no decimal
    digit), and [sys.get_int_max_str_digits()] (0: no limit). *)
Record interpreter := mk_interpreter {
  unicode_decimal : N -> option N;
  int_max_str_digits : N
}.

(** The digits of an integer literal in base ten: at least one digit, an
    underscore only between two digits. *)
Fixpoint int_digits (acc : Z) (after_digit : bool) (s : str) : option Z :=
  match s with
  | [] => if after_digit then Some acc else None
  | c :: s' =>
      if is_digit c then int_digits (acc * 10 + Z.of_N (c - 48)) true s'
      else if (c =? 95)%N && after_digit then
        match s' with
        | d :: _ => if is_digit d then int_digits acc false s' else None
        | [] => None
        end
      else None
  end.

(** White space for the parser of integers: the six ASCII characters. *)
Definition ascii_space (c : N) : bool :=
  ((9 <=? c) && (c <=? 13) || (c =? 32))%N.

Fixpoint lstrip_ascii (s : str) : str :=
  match s with
  | [] => []
  | c :: s' => if ascii_space c then lstrip_ascii s' else s
  end.

Definition strip_ascii (s : str) : str :=
  rev (lstrip_ascii (rev (lstrip_ascii s))).

(** A string that is not ASCII is rewritten before it is parsed: a
    character below U+007F stays, white space becomes a space, a decimal
    digit becomes its ASCII digit, and the first other character ends the
    text with a question mark. *)
Fixpoint to_ascii (itp : interpreter) (s : str) : str :=
  match s with
  | [] => []
  | c :: s' =>
      if (c <? 127)%N then c :: to_ascii itp s'
      else if isspace c then 32%N :: to_ascii itp s'
      else
        match unicode_decimal itp c with
        | Some d => if (d <? 10)%N then (48 + d)%N :: to_ascii itp s' else [63%N]
        | None => [63%N]
        end
  end.

(** The limit on the number of digits: it is looked at for more than 640
    digits, when it is set. *)
Definition too_many_digits (itp : interpreter) (r : str) : bool :=
  let digits := N.of_nat (length (filter is_digit r)) in
  ((640 <? digits) && (0 <? int_max_str_digits itp)
   && (int_max_str_digits itp <? digits))%N.

(** [int(s)] on a string: white space around, a sign, the digits.  Every
    way to fail is a ValueError. *)
Definition int_of_str (itp : interpreter) (s : str) : option Z :=
  let text := if forallb (fun c => (c <? 128)%N) s then s else to_ascii itp s in
  let digits r :=
    match int_digits 0 false r with
    | Some z => if too_many_digits itp r then None else Some z
    | None => None
    end in
  match strip_ascii text with
  | 43%N :: r => digits r
  | 45%N :: r => option_map Z.opp (digits r)
  | r => digits r
  end.

(** [int(v)] *)
Definition py_int (itp : interpreter) (v : json) : int_result :=
  match v with
  | JInt z => Int_value z
  | JBool b => Int_value (if b then 1 else 0)
  | JFloat q =>
      Int_value (Z.quot (QArith_base.Qnum q) (Zpos (QArith_base.Qden q)))
  | JNaN => Value_error
  | JInfinity _ => Overflow_error
  | JStr s =>
      match int_of_str itp s with
      | Some z => Int_value z
      | None => Value_error
      end
  | JNull => Type_error
  | JArr _ => Type_error
  | JObj _ => Type_error
  end.

(** [[int(id_val) for id_val in items]]: the first conversion that raises
    ends the comprehension. *)
Fixpoint int_all (itp : interpreter) (items : list json) : list Z + int_result :=
  match items with
  | [] => inl []
  | v :: rest =>
      match py_int itp v with
      | Int_value z =>
          match int_all itp rest with
          | inl zs => inl (z :: zs)
          | inr e => inr e
          end
      | e => inr e
      end
  end.

End Json.

(** ** The admin handlers of [app/main.py] *)

Module Admin.

Import Json.

Inductive bulk_response :=
| Bulk_400 (detail : str)     (* HTTPException(status_code=400) *)
| Bulk_500                    (* an exception no clause catches *)
| Bulk_ok (count : Z).        (* {"ok": True, "count": len(ids)} *)

(** [new_status not in ("new", "read", "in_progress", "resolved",
    "rejected")], with the status the string names when it is in. *)
Definition status_of_json (v : option json) : option workflow_status :=
  match v with
  | Some (JStr s) =>
      if str_eqb s (u "new") then Some St_new
      else if str_eqb s (u "read") then Some St_read
      else if str_eqb s (u "in_progress") then Some St_in_progress
      else if str_eqb s (u "resolved") then Some St_resolved
      else if str_eqb s (u "rejected") then Some St_rejected
      else None
  | _ => None
  end.

(** The integers SQLite stores; binding another Python [int] raises
    OverflowError. *)
Definition fits_int64 (z : Z) : bool :=
  ((- 2 ^ 63 <=? z) && (z <? 2 ^ 63))%Z.

(** [bulk_status]; [ids] and [new_status] are [data.get("ids")] and
    [data.get("status")] of the JSON object of the body ([None]: the key
    is absent), [now] is [datetime.utcnow()], [itp] the interpreter the
    handler runs on.  The session has been validated by [get_current_user]
    before the body runs; the UPDATE and its commit are taken not to
    raise. *)
Definition bulk_status (itp : interpreter) (ids new_status : option json)
    (now : datetime) (t : Feedback.table) : bulk_response * Feedback.table :=
  match status_of_json new_status with
  | None => (Bulk_400 (u "Invalid status"), t)
  | Some st =>
      let ids := match ids with Some v => v | None => JArr [] end in
      if falsy ids then (Bulk_400 (u "No IDs provided"), t)
      else
        match iterate ids with
        | None => (Bulk_400 (u "Invalid ID format"), t)
        | Some items =>
            match int_all itp items with
            | inr Overflow_error => (Bulk_500, t)
            | inr _ => (Bulk_400 (u "Invalid ID format"), t)
            | inl zs =>
                if forallb fits_int64 zs then
                  (Bulk_ok (Z.of_nat (length zs)),
                   Feedback.update_where_id_in zs
                     (Feedback.set_status st (isoformat now)) t)
                else (Bulk_500, t)
            end
        end
  end.

Inductive detail_response :=
| Detail_404                          (* HTTPException(status_code=404) *)
| Detail_page (feedback : Feedback.row).   (* admin/detail.html *)

(** [feedback_detail]; [now] is [datetime.utcnow()].  The page shows the
    row as selected, with [feedback["status"]] overwritten when the row
    was new.  The session has been validated before the body runs; the
    statements are taken not to raise. *)
Definition feedback_detail (feedback_id : Z) (now : datetime)
    (t : Feedback.table) : detail_response * Feedback.table :=
  match Feedback.select_live_by_id feedback_id t with
  | None => (Detail_404, t)
  | Some row =>
      match Feedback.status row with
      | St_new =>
          (Detail_page (Feedback.set_status St_read (Feedback.updated_at row) row),
           Feedback.update_where_id feedback_id
             (Feedback.set_status St_read (isoformat now)) t)
      | _ => (Detail_page row, t)
      end
  end.

End Admin.

(** ** The public submission handler of [app/main.py] *)

Module Public.

(** What is durable: the two tables the handler writes, the counter that
    AUTOINCREMENT keeps for [feedback.id], and the upload directory. *)
Record store := mk_store {
  feedback : Feedback.table;
  feedback_seq : Z;
  rate_limits : RateLimits.table;
  uploads : list (str * list N)
}.

(** An uploaded file: its name and its bytes. *)
Record upload := mk_upload { filename : str; content : list N }.

(** The request: the form fields ([None]: the field is absent), the peer
    address ([None]: [request.client] is None) and the User-Agent header. *)
Record request := mk_request {
  form_category : option str;
  form_message : option str;
  form_anonymity_consent : option str;
  form_photo : option upload;
  client_host : option str;
  header_user_agent : option str
}.

(** What the surroundings decide while the request is handled: the clock,
    the successive results of [_generate_submission_id()], the result of
    [random.randint(1000, 9999)], which of the final statements raise, and
    whether one of the steps after the commit does (the SELECT of the new
    id, the start of the worker thread, the rendering of the page). *)
Record surroundings := mk_surroundings {
  utcnow : datetime;
  drawn_ids : list str;
  drawn_suffix : N;
  insert_feedback_raises : bool;
  insert_rate_limit_raises : bool;
  commit_raises : bool;
  after_commit_raises : bool
}.

Inductive response :=
| Bad_request (detail : str)     (* HTTPException(status_code=400) *)
| Rate_limited                   (* public/rate_limited.html *)
| Server_error                   (* an exception no clause catches *)
| No_answer                      (* every drawn id was taken: still looping *)
| Thank_you (submission_id : str) (feedback_id : Z).
                                 (* public/thank_you.html, worker started *)

(** [html.escape(s)] *)
Definition html_escape (s : str) : str :=
  flat_map (fun c =>
    if (c =? 38)%N then u "&amp;"
    else if (c =? 60)%N then u "&lt;"
    else if (c =? 62)%N then u "&gt;"
    else if (c =? 34)%N then u "&quot;"
    else if (c =? 39)%N then u "&#x27;"
    else [c]) s.

(** [name.rsplit(".", 1)[-1]] when the name holds a dot. *)
Fixpoint after_last_dot (name : str) : option str :=
  match name with
  | [] => None
  | c :: rest =>
      match after_last_dot rest with
      | Some ext => Some ext
      | None => if (c =? 46)%N then Some rest else None
      end
  end.

Fixpoint bytes_eqb (a b : list N) : bool :=
  match a, b with
  | [], [] => true
  | x :: a', y :: b' => (x =? y)%N && bytes_eqb a' b'
  | _, _ => false
  end.

Definition _validate_image_signature (content : list N) : bool :=
  if (length content <? 12)%nat then false
  else if bytes_eqb (firstn 3 content) [255; 216; 255]%N then true
  else if bytes_eqb (firstn 8 content) [137; 80; 78; 71; 13; 10; 26; 10]%N then true
  else false.

(** The loop drawing a submission id until one is free. *)
Fixpoint first_free_id (drawn : list str) (t : Feedback.table) : option str :=
  match drawn with
  | [] => None
  | sid :: rest =>
      if Feedback.exists_submission_id sid t then first_free_id rest t
      else Some sid
  end.

(** [strftime('%Y%m%d_%H%M%S')] *)
Definition stamp (d : datetime) : str :=
  zfill 4 (year d) ++ zfill 2 (month d) ++ zfill 2 (day d) ++ u "_" ++
  zfill 2 (hour d) ++ zfill 2 (minute d) ++ zfill 2 (second d).

Section Handler.

(** [hashlib.sha256(text.encode()).hexdigest()] *)
Variable sha256_hexdigest : str -> str.

(** [magic.from_buffer(content, mime=True)], or [None] when the module
    [magic] cannot be imported. *)
Variable magic_from_buffer : option (list N -> str).

Variable cfg : config.

Definition _hash_ip (ip : str) : str :=
  let salt := slice_to 16 (SECRET_KEY cfg) in
  sha256_hexdigest (salt ++ ip).

(** The photo branch: a rejection, or the stored name and the upload
    directory after the file was written. *)
Definition store_photo (photo : option upload) (sur : surroundings)
    (files : list (str * list N))
    : str + (option str * list (str * list N)) :=
  match photo with
  | None => inr (None, files)
  | Some ph =>
      if negb (Pipeline.truthy (filename ph)) then inr (None, files)
      else
        let content := content ph in
        if (length content =? 0)%nat then inl (u "Uploaded file is empty")
        else if (MAX_FILE_SIZE cfg <? Z.of_nat (length content))%Z
        then inl (u "File too large (max 5MB)")
        else
          let ext :=
            match after_last_dot (filename ph) with
            | Some e => Pipeline.lower e
            | None => []
            end in
          if negb (str_in ext [u "jpg"; u "jpeg"; u "png"])
          then inl (u "Only JPG/PNG images allowed")
          else
            let accepted :=
              match magic_from_buffer with
              | Some from_buffer =>
                  let mime := from_buffer content in
                  if str_in mime [u "image/jpeg"; u "image/png"] then None
                  else Some (u "Invalid file type. Only JPEG and PNG images allowed (detected: "
                             ++ mime ++ u ")")
              | None =>
                  if _validate_image_signature content then None
                  else Some (u "Invalid image file. File signature check failed")
              end in
            match accepted with
            | Some detail => inl detail
            | None =>
                let name := stamp (utcnow sur) ++ u "_" ++
                            zfill 4 (drawn_suffix sur) ++ u "." ++ ext in
                inr (Some name, files ++ [(name, content)])
            end
  end.

(** The row [INSERT INTO feedback (submission_id, category, message,
    photo_path, ip_hash, user_agent)] adds: the other columns take their
    defaults. *)
Definition new_row (i : Z) (submission_id category message : str)
    (photo_path : option str) (ip_hash user_agent : str) (now : datetime)
    : Feedback.row :=
  Feedback.mk_row i submission_id category (Some message) photo_path
    St_new (Some ip_hash) (Some user_agent) Ai_pending
    None None None None None None 0
    (CURRENT_TIMESTAMP now) (CURRENT_TIMESTAMP now).

(** The two INSERT statements and the commit.  They run in one
    transaction of the request's connection: when one of them raises, the
    connection is closed by [get_db] without a commit and the tables are
    as they were. *)
Definition record_submission (sur : surroundings) (db : store)
    (submission_id category message : str) (photo_path : option str)
    (ip_hash user_agent : str) (files : list (str * list N))
    : option (Z * store) :=
  if insert_feedback_raises sur then None
  else
    let i := (feedback_seq db + 1)%Z in
    let feedback' :=
      feedback db ++ [new_row i submission_id category message photo_path
                        ip_hash user_agent (utcnow sur)] in
    if insert_rate_limit_raises sur then None
    else
      let rate_limits' :=
        RateLimits.insert_default ip_hash (utcnow sur) (rate_limits db) in
      if commit_raises sur then None
      else Some (i, mk_store feedback' i rate_limits' files).

(** [request.client.host if request.client else "unknown"] *)
Definition client_ip (req : request) : str :=
  match client_host req with Some h => h | None => u "unknown" end.

(** The checks of [submit_feedback] that stand before the photo is looked
    at: the answer of a request that is turned away by one of them,
    [None] for a request that goes on. *)
Definition turned_away (req : request) (sur : surroundings) (db : store)
    : option response :=
  let category := Pipeline.or_empty (form_category req) in
  let message := Pipeline.or_empty (form_message req) in
  let anonymity_consent := Pipeline.or_empty (form_anonymity_consent req) in
  if negb (Pipeline.truthy anonymity_consent)
  then Some (Bad_request (u "Consent required"))
  else
    let ip_hash := _hash_ip (client_ip req) in
    if negb (_check_rate_limit cfg (rate_limits db) ip_hash (utcnow sur))
    then Some Rate_limited
    else if negb (str_in category
                    [u "complaint"; u "idea"; u "recommendation"; u "other"])
    then Some (Bad_request (u "Invalid category"))
    else if negb (Pipeline.truthy message) || negb (Pipeline.truthy (strip message))
    then Some (Bad_request (u "Message cannot be empty"))
    else if (1000 <? length message)%nat
    then Some (Bad_request (u "Message too long (max 1000 characters)"))
    else None.

(** The handler waits at [await photo.read()] when the form holds an
    upload with a file name. *)
Definition has_upload (req : request) : bool :=
  match form_photo req with
  | Some ph => Pipeline.truthy (filename ph)
  | None => false
  end.

(** [submit_feedback] once the checks are passed: the message is escaped,
    the photo checked and written, an identifier drawn, the two rows
    inserted and committed; then the new id is selected, the worker thread
    started and the page rendered, and an exception raised there is
    answered by the general handler with both rows stored. *)
Definition store_submission (req : request) (sur : surroundings) (db : store)
    : response * store :=
  let category := Pipeline.or_empty (form_category req) in
  let message := html_escape (strip (Pipeline.or_empty (form_message req))) in
  let ip_hash := _hash_ip (client_ip req) in
  match store_photo (form_photo req) sur (uploads db) with
  | inl detail => (Bad_request detail, db)
  | inr (photo_path, files) =>
      let written :=
        mk_store (feedback db) (feedback_seq db) (rate_limits db) files in
      match first_free_id (drawn_ids sur) (feedback db) with
      | None => (No_answer, written)
      | Some submission_id =>
          let user_agent :=
            slice_to 500 (Pipeline.or_empty (header_user_agent req)) in
          match record_submission sur db submission_id category message
                  photo_path ip_hash user_agent files with
          | None => (Server_error, written)
          | Some (feedback_id, db') =>
              if after_commit_raises sur then (Server_error, db')
              else (Thank_you submission_id feedback_id, db')
          end
      end
  end.

(** [submit_feedback] *)
Definition submit_feedback (req : request) (sur : surroundings) (db : store)
    : response * store :=
  match turned_away req sur db with
  | Some answer => (answer, db)
  | None => store_submission req sur db
  end.

End Handler.

End Public.

(** ** Rate-limit statistics ([app/background_tasks.py]) *)

Module Stats.

(** [d - timedelta(hours=1)] *)
Definition minus_1h (d : datetime) : datetime :=
  if (1 <=? hour d)%N then
    mk_datetime (year d) (month d) (day d)
                (hour d - 1) (minute d) (second d) (microsecond d)
  else
    let p := minus_24h d in
    mk_datetime (year p) (month p) (day p)
                23 (minute d) (second d) (microsecond d).

(** [SELECT COUNT( * ) FROM rate_limits WHERE submitted_at > ?] *)
Definition count_after (t : RateLimits.table) (cutoff : str) : Z :=
  Z.of_nat (length (filter
    (fun e => str_ltb cutoff (RateLimits.submitted_at e)) t)).

(** [SELECT COUNT( * ) FROM rate_limits WHERE submitted_at < ?] *)
Definition count_before (t : RateLimits.table) (cutoff : str) : Z :=
  Z.of_nat (length (filter
    (fun e => str_ltb (RateLimits.submitted_at e) cutoff) t)).

(** The dictionary that [get_rate_limit_stats] returns. *)
Record rate_limit_stats := mk_stats {
  total : Z;
  last_hour : Z;
  last_24h : Z;
  old_entries : Z
}.

(** [get_rate_limit_stats]; [now_1] and [now_2] are the two readings of
    the clock, [None] the answer when the connection or a statement
    raised. *)
Definition get_rate_limit_stats (db_raises : bool) (t : RateLimits.table)
    (now_1 now_2 : datetime) : option rate_limit_stats :=
  if db_raises then None
  else
    let one_hour_ago := isoformat (minus_1h now_1) in
    let twenty_four_hours_ago := isoformat (minus_24h now_2) in
    Some (mk_stats (Z.of_nat (length t))
                   (count_after t one_hour_ago)
                   (count_after t twenty_four_hours_ago)
                   (count_before t twenty_four_hours_ago)).

End Stats.

(** ** Roles and login ([app/auth.py], [app/main.py]) *)

Module Access.

(** How a protected request is turned away: the redirect of
    [get_current_user], or the 403 of [require_role]. *)
Inductive denial :=
| To_login (r : Auth.redirect)
| Forbidden (detail : str).

(** [str(n)] for an integer that is not negative, by [fuel] digits at
    most. *)
Fixpoint decimal (fuel : nat) (n : N) : str :=
  match fuel with
  | O => []
  | S fuel' =>
      if (n <? 10)%N then [(48 + n)%N]
      else decimal fuel' (n / 10) ++ [(48 + n mod 10)%N]
  end.

(** [str(z)] *)
Definition str_of_int (z : Z) : str :=
  match z with
  | Zneg p => 45%N :: decimal (S (Pos.to_nat p)) (Npos p)
  | _ => decimal (S (Z.to_nat z)) (Z.to_N z)
  end.

Inductive login_response :=
| Login_failed                 (* the login page, "Invalid email or password" *)
| Logged_in (token : str).     (* redirect to /admin/inbox, cookie set *)

Section WithLibraries.

Variable jwt_decode : str -> Auth.decoded.

(** [jwt.encode({"sub": .., "role": .., "exp": ..}, SECRET_KEY, ALGORITHM)] *)
Variable jwt_encode : str -> str -> datetime -> str.

(** [pwd_context.verify(plain, hashed)] *)
Variable verify_password : str -> str -> bool.

(** [d + timedelta(minutes=m)] *)
Variable plus_minutes : datetime -> Z -> datetime.

Variable ACCESS_TOKEN_EXPIRE_MINUTES : Z.

(** [require_role( *roles)] applied to a request. *)
Definition require_role (roles : list str) (cookie : option str)
    (users : Users.table) : denial + Users.user :=
  match Auth.get_current_user jwt_decode cookie users with
  | inl r => inl (To_login r)
  | inr user =>
      if negb (str_in (Users.role user) roles) then
        inl (Forbidden (u "Access denied. Required role: " ++ join (u ", ") roles))
      else inr user
  end.

(** [create_access_token({"sub": sub, "role": role})] at the instant [now]. *)
Definition create_access_token (sub role : str) (now : datetime) : str :=
  jwt_encode sub role (plus_minutes now ACCESS_TOKEN_EXPIRE_MINUTES).

(** [login_submit] *)
Definition login_submit (email password : str) (now : datetime)
    (users : Users.table) : login_response :=
  match find (fun x => str_eqb (Users.email x) email
                       && (Users.is_active x =? 1)%Z) users with
  | None => Login_failed
  | Some user =>
      if negb (verify_password password (Users.password_hash user))
      then Login_failed
      else Logged_in (create_access_token (str_of_int (Users.id user))
                        (Users.role user) now)
  end.

End WithLibraries.

End Access.

(** ** User management ([app/main.py]) *)

Module UserAdmin.

(** The [users] table with the counter AUTOINCREMENT keeps for it. *)
Record user_store := mk_user_store {
  users : Users.table;
  users_seq : Z
}.

Inductive response :=
| Denied (d : Access.denial)     (* the dependency turned the request away *)
| Error_400 (detail : str)
| Error_404 (detail : str)
| Done                            (* {"ok": True} *)
| Toggled (is_active : Z).        (* {"ok": True, "is_active": ..} *)

Definition set_is_active (a : Z) (x : Users.user) : Users.user :=
  Users.mk_user (Users.id x) (Users.email x) (Users.password_hash x)
                (Users.name x) (Users.role x) a.

Section Handlers.

Variable jwt_decode : str -> Auth.decoded.

(** [pwd_context.hash(password)] *)
Variable hash_password : str -> str.

(** [create_user]; the four arguments are the strings the body holds under
    ["email"], ["name"], ["password"] and ["role"] ([None]: the key is
    absent). *)
Definition create_user (email name password role : option str)
    (cookie : option str) (db : user_store) : response * user_store :=
  match Access.require_role jwt_decode [u "admin"] cookie (users db) with
  | inl d => (Denied d, db)
  | inr _ =>
      let email := strip (Pipeline.or_empty email) in
      let name := strip (Pipeline.or_empty name) in
      let password := Pipeline.or_empty password in
      let role := Pipeline.or_empty role in
      if negb (Pipeline.truthy email) || negb (Pipeline.truthy name)
         || negb (Pipeline.truthy password)
         || negb (str_in role [u "admin"; u "founder"; u "ceo"])
      then (Error_400 (u "Invalid input"), db)
      else if (length password <? 10)%nat
      then (Error_400 (u "Password must be at least 10 characters"), db)
      else if existsb (fun x => str_eqb (Users.email x) email) (users db)
      then (Error_400 (u "Email already exists"), db)
      else
        let i := (users_seq db + 1)%Z in
        (Done,
         mk_user_store
           (users db ++ [Users.mk_user i email (hash_password password) name role 1])
           i)
  end.

(** [toggle_user] *)
Definition toggle_user (user_id : Z) (cookie : option str) (db : user_store)
    : response * user_store :=
  match Access.require_role jwt_decode [u "admin"] cookie (users db) with
  | inl d => (Denied d, db)
  | inr user =>
      match find (fun x => (Users.id x =? user_id)%Z) (users db) with
      | None => (Error_404 (u "User not found"), db)
      | Some target =>
          if (user_id =? Users.id user)%Z
          then (Error_400 (u "Cannot deactivate yourself"), db)
          else
            let new_active := if (Users.is_active target =? 0)%Z then 1%Z else 0%Z in
            (Toggled new_active,
             mk_user_store
               (map (fun x => if (Users.id x =? user_id)%Z
                              then set_is_active new_active x else x) (users db))
               (users_seq db))
      end
  end.

(** [delete_user] *)
Definition delete_user (user_id : Z) (cookie : option str) (db : user_store)
    : response * user_store :=
  match Access.require_role jwt_decode [u "admin"] cookie (users db) with
  | inl d => (Denied d, db)
  | inr user =>
      if (user_id =? Users.id user)%Z
      then (Error_400 (u "Cannot delete yourself"), db)
      else
        (Done,
         mk_user_store
           (filter (fun x => negb (Users.id x =? user_id)%Z) (users db))
           (users_seq db))
  end.

End Handlers.

End UserAdmin.

(** ** Single-row triage ([app/main.py]) *)

Module Triage.

Import Json.

(** [SET is_deleted = 1, updated_at = ?] *)
Definition set_is_deleted (now : str) (r : Feedback.row) : Feedback.row :=
  Feedback.mk_row (Feedback.id r) (Feedback.submission_id r)
    (Feedback.category r) (Feedback.message r) (Feedback.photo_path r)
    (Feedback.status r) (Feedback.ip_hash r) (Feedback.user_agent r)
    (Feedback.ai_status r)
    (Feedback.translation_en r) (Feedback.translation_ru r)
    (Feedback.summary r) (Feedback.tags r) (Feedback.detected_language r)
    (Feedback.private_note r) 1 (Feedback.created_at r) now.

Inductive response :=
| Denied (d : Access.denial)     (* the dependency turned the request away *)
| Error_400 (detail : str)
| Error_500                       (* an exception no clause catches *)
| Done.                           (* {"ok": True} *)

(** [update_status]; [new_status] is [data.get("status")].  As for
    [bulk_status] the session has been validated before the body runs and
    the statements are taken not to raise, except that an identifier
    SQLite cannot store makes the binding raise. *)
Definition update_status (feedback_id : Z) (new_status : option json)
    (now : datetime) (t : Feedback.table) : response * Feedback.table :=
  match Admin.status_of_json new_status with
  | None => (Error_400 (u "Invalid status"), t)
  | Some st =>
      if Admin.fits_int64 feedback_id then
        (Done,
         Feedback.update_where_id feedback_id
           (Feedback.set_status st (isoformat now)) t)
      else (Error_500, t)
  end.

Section Guarded.

Variable jwt_decode : str -> Auth.decoded.

(** [soft_delete], behind [require_role("admin")]. *)
Definition soft_delete (feedback_id : Z) (cookie : option str)
    (users : Users.table) (now : datetime) (t : Feedback.table)
    : response * Feedback.table :=
  match Access.require_role jwt_decode [u "admin"] cookie users with
  | inl d => (Denied d, t)
  | inr _ =>
      if Admin.fits_int64 feedback_id then
        (Done,
         Feedback.update_where_id feedback_id
           (set_is_deleted (isoformat now)) t)
      else (Error_500, t)
  end.

End Guarded.

End Triage.

(** ** The inbox query ([admin_inbox] of [app/main.py]) *)

Module Inbox.

(** The text stored for a workflow status. *)
Definition status_name (s : workflow_status) : str :=
  match s with
  | St_new => u "new"
  | St_read => u "read"
  | St_in_progress => u "in_progress"
  | St_resolved => u "resolved"
  | St_rejected => u "rejected"
  end.

(** The query parameters [status], [category], [tag] and [search]. *)
Record filters := mk_filters {
  f_status : option str;
  f_category : option str;
  f_tag : option str;
  f_search : option str
}.

(** [LIMIT ? OFFSET ?]: a negative limit is no limit, a negative offset
    is none. *)
Definition limit_offset {A} (limit offset : Z) (rows : list A) : list A :=
  let rest := skipn (Z.to_nat offset) rows in
  if (limit <? 0)%Z then rest else firstn (Z.to_nat limit) rest.

(** The counters shown above the list. *)
Record inbox_stats := mk_inbox_stats {
  s_total : Z;
  s_new : Z;
  s_read : Z;
  s_resolved : Z
}.

(** What the template receives. *)
Record inbox_page := mk_inbox_page {
  feedbacks : Feedback.table;
  total : Z;
  total_pages : Z;
  stats : inbox_stats
}.

Definition live (r : Feedback.row) : bool := (Feedback.is_deleted r =? 0)%Z.

Definition has_status (st : workflow_status) (r : Feedback.row) : bool :=
  str_eqb (status_name (Feedback.status r)) (status_name st).

Definition count_rows (p : Feedback.row -> bool) (t : Feedback.table) : Z :=
  Z.of_nat (length (filter p t)).

Section Query.

(** SQLite's [value LIKE pattern] on two texts. *)
Variable like : str -> str -> bool.

(** The order in which SQLite hands out the rows it has selected under
    [ORDER BY created_at DESC]. *)
Variable order_by_created_at_desc : Feedback.table -> Feedback.table.

(** [column LIKE ?] on a column that may hold NULL. *)
Definition like_column (value : option str) (pattern : str) : bool :=
  match value with
  | Some v => like v pattern
  | None => false
  end.

(** A filter that is absent or empty adds no condition. *)
Definition when_given (x : option str) (cond : str -> bool) : bool :=
  match x with
  | Some v => if Pipeline.truthy v then cond v else true
  | None => true
  end.

(** The WHERE clause the handler builds. *)
Definition where_clause (f : filters) (r : Feedback.row) : bool :=
  live r
  && when_given (f_status f)
       (fun st => str_eqb (status_name (Feedback.status r)) st)
  && when_given (f_category f)
       (fun c => str_eqb (Feedback.category r) c)
  && when_given (f_tag f)
       (fun tag => like_column (Feedback.tags r) (u "%" ++ tag ++ u "%"))
  && when_given (f_search f)
       (fun search =>
          let pat := u "%" ++ search ++ u "%" in
          like_column (Feedback.message r) pat
          || like_column (Feedback.translation_en r) pat
          || like_column (Feedback.translation_ru r) pat
          || like_column (Feedback.summary r) pat
          || like (Feedback.submission_id r) pat).

(** [admin_inbox]; the query parameter [page] is at least 1 (the
    framework answers 422 otherwise).  [None] is the exception no clause
    catches: the OverflowError of a limit or an offset that SQLite cannot
    store, or the ZeroDivisionError of [per_page = 0].  The session has
    been validated before the body runs. *)
Definition admin_inbox (f : filters) (page per_page : Z) (t : Feedback.table)
    : option inbox_page :=
  let matching := filter (where_clause f) t in
  let total := Z.of_nat (length matching) in
  let offset := ((page - 1) * per_page)%Z in
  let rows := limit_offset per_page offset (order_by_created_at_desc matching) in
  if negb (Admin.fits_int64 per_page && Admin.fits_int64 offset) then None
  else if (per_page =? 0)%Z then None
  else
    Some (mk_inbox_page rows total
            (Z.max 1 ((total + per_page - 1) / per_page))
            (mk_inbox_stats
               (count_rows live t)
               (count_rows (fun r => has_status St_new r && live r) t)
               (count_rows (fun r => has_status St_read r && live r) t)
               (count_rows (fun r => has_status St_resolved r && live r) t))).

End Query.

End Inbox.

(** ** The tag counts of [analytics_page] ([app/main.py]) *)

Module Analytics.

(** [s.split(sep)] for a separator of one character. *)
Fixpoint split_on (sep : N) (s : str) : list str :=
  match s with
  | [] => [[]]
  | c :: s' =>
      if (c =? sep)%N then [] :: split_on sep s'
      else
        match split_on sep s' with
        | [] => [[c]]
        | w :: ws => (c :: w) :: ws
        end
  end.

(** The tags read out of one [tags] value: split at the commas, stripped,
    the empty ones skipped. *)
Definition row_tags (tags : str) : list str :=
  filter Pipeline.truthy (map strip (split_on 44 tags)).

(** [SELECT tags FROM feedback WHERE is_deleted = 0 AND tags != ''
    AND tags IS NOT NULL] *)
Definition tag_rows (t : Feedback.table) : list str :=
  flat_map (fun r =>
    match Feedback.tags r with
    | Some s =>
        if (Feedback.is_deleted r =? 0)%Z && Pipeline.truthy s then [s] else []
    | None => []
    end) t.

(** [by_tag[t] = by_tag.get(t, 0) + 1] on a dictionary that keeps the
    order of insertion. *)
Fixpoint bump (tag : str) (d : list (str * Z)) : list (str * Z) :=
  match d with
  | [] => [(tag, 1%Z)]
  | (k, v) :: d' =>
      if str_eqb k tag then (k, (v + 1)%Z) :: d'
      else (k, v) :: bump tag d'
  end.

(** The dictionary [by_tag] when the two loops are through. *)
Definition by_tag (t : Feedback.table) : list (str * Z) :=
  fold_left (fun d tag => bump tag d) (flat_map row_tags (tag_rows t)) [].

(** [by_tag.get(tag, 0)] *)
Fixpoint get (tag : str) (d : list (str * Z)) : Z :=
  match d with
  | [] => 0%Z
  | (k, v) :: d' => if str_eqb k tag then v else get tag d'
  end.

End Analytics.

(** ** Requests and sweeps, in sequence and overlapping *)

Module Traffic.

(** What happens to the store, one thing after the other: a request to
    [/submit], or a run of [cleanup_old_rate_limits]. *)
Inductive event :=
| Submission (req : Public.request) (sur : Public.surroundings)
| Sweep (db_raises : bool) (now : datetime).

(** The reading of the clock an event works with. *)
Definition clock (ev : event) : datetime :=
  match ev with
  | Submission _ sur => Public.utcnow sur
  | Sweep _ now => now
  end.

(** Two instants of one calendar day. *)
Definition same_day (a b : datetime) : bool :=
  ((year a =? year b) && (month a =? month b) && (day a =? day b))%N.

Definition accepted (resp : Public.response) : bool :=
  match resp with Public.Thank_you _ _ => true | _ => false end.

(** The events of a fingerprint that the table holds with the date of
    [today], written as [CURRENT_TIMESTAMP] writes it. *)
Definition recorded_on (today : datetime) (h : str) (t : RateLimits.table) : Z :=
  Z.of_nat (length (filter
    (fun e => str_eqb (RateLimits.ip_hash e) h
              && starts_with (date_part today) (RateLimits.submitted_at e)) t)).

(** The answer is the thank-you page, to a request of the address
    [host]. *)
Definition accepted_from (host : str)
    (rr : Public.request * Public.response) : bool :=
  accepted (snd rr) && str_eqb (Public.client_ip (fst rr)) host.

(** *** Requests that overlap

    The server is one process ([run.py] starts uvicorn without workers),
    so a handler runs without interruption except where it awaits.
    [submit_feedback] awaits the bytes of an upload, after the rate-limit
    check and before the two INSERTs: the requests that wait there have
    passed the check, and they go on in any order, each with the
    surroundings its second part finds.  (A small upload is read without
    a pause; then the request goes on at once.) *)
Inductive step :=
| Arrives (req : Public.request) (sur : Public.surroundings)
    (* a request is handled up to [await photo.read()], or to its end
       when it does not get there *)
| Resumes (k : nat) (sur : Public.surroundings)
    (* the [k]-th of the waiting requests goes on to its end *)
| Sweeps (db_raises : bool) (now : datetime).
    (* a run of [cleanup_old_rate_limits] *)

(** The reading of the clock a step works with. *)
Definition moment (st : step) : datetime :=
  match st with
  | Arrives _ sur => Public.utcnow sur
  | Resumes _ sur => Public.utcnow sur
  | Sweeps _ now => now
  end.

(** What is durable, the requests waiting for their upload, and the
    answers given so far. *)
Record situation := mk_situation {
  held : Public.store;
  waiting : list Public.request;
  answers : list (Public.request * Public.response)
}.

(** A request of the address [host] arrives with an upload. *)
Definition upload_from (host : str) (st : step) : bool :=
  match st with
  | Arrives req _ => Public.has_upload req && str_eqb (Public.client_ip req) host
  | _ => false
  end.

(** The requests of [host] among those waiting for their upload. *)
Definition waiting_from (host : str) (s : situation) : Z :=
  Z.of_nat (length (filter (fun r => str_eqb (Public.client_ip r) host)
                      (waiting s))).

(** The accepted requests of [host] so far. *)
Definition accepted_so_far (host : str) (s : situation) : Z :=
  Z.of_nat (length (filter (accepted_from host) (answers s))).

Section Serving.

Variable sha256_hexdigest : str -> str.
Variable magic_from_buffer : option (list N -> str).
Variable cfg : config.

(** The events handled in turn, each on the store the one before left;
    the answers to the requests, in their order. *)
Fixpoint serve (events : list event) (db : Public.store)
    : list (Public.request * Public.response) * Public.store :=
  match events with
  | [] => ([], db)
  | Submission req sur :: rest =>
      let out :=
        Public.submit_feedback sha256_hexdigest magic_from_buffer cfg req sur db in
      let later := serve rest (snd out) in
      ((req, fst out) :: fst later, snd later)
  | Sweep db_raises now :: rest =>
      serve rest
        (Public.mk_store (Public.feedback db) (Public.feedback_seq db)
           (fst (cleanup_old_rate_limits db_raises (Public.rate_limits db) now))
           (Public.uploads db))
  end.

(** One step of the server. *)
Definition act (st : step) (s : situation) : situation :=
  match st with
  | Arrives req sur =>
      match Public.turned_away sha256_hexdigest cfg req sur (held s) with
      | Some answer =>
          mk_situation (held s) (waiting s) (answers s ++ [(req, answer)])
      | None =>
          if Public.has_upload req
          then mk_situation (held s) (waiting s ++ [req]) (answers s)
          else
            let out :=
              Public.store_submission sha256_hexdigest magic_from_buffer cfg
                req sur (held s) in
            mk_situation (snd out) (waiting s) (answers s ++ [(req, fst out)])
      end
  | Resumes k sur =>
      match nth_error (waiting s) k with
      | None => s
      | Some req =>
          let out :=
            Public.store_submission sha256_hexdigest magic_from_buffer cfg
              req sur (held s) in
          mk_situation (snd out)
            (firstn k (waiting s) ++ skipn (S k) (waiting s))
            (answers s ++ [(req, fst out)])
      end
  | Sweeps db_raises now =>
      mk_situation
        (Public.mk_store (Public.feedback (held s)) (Public.feedback_seq (held s))
           (fst (cleanup_old_rate_limits db_raises
                   (Public.rate_limits (held s)) now))
           (Public.uploads (held s)))
        (waiting s) (answers s)
  end.

(** The steps in turn. *)
Definition run (steps : list step) (s : situation) : situation :=
  fold_left (fun s st => act st s) steps s.

End Serving.

End Traffic.

(** ** The constraints of the [users] table ([app/database.py]) *)

Module UsersSchema.

(** [email TEXT UNIQUE], [id INTEGER PRIMARY KEY AUTOINCREMENT] with its
    counter, [role ... CHECK(role IN ('admin', 'founder', 'ceo'))]. *)
Definition constraints_hold (db : UserAdmin.user_store) : Prop :=
  NoDup (map Users.email (UserAdmin.users db)) /\
  NoDup (map Users.id (UserAdmin.users db)) /\
  Forall (fun x => (Users.id x <= UserAdmin.users_seq db)%Z
                   /\ In (Users.role x) [u "admin"; u "founder"; u "ceo"])
         (UserAdmin.users db).

End UsersSchema.

(** ** The constraints of the [feedback] table ([app/database.py]) *)

Module FeedbackSchema.

(** [submission_id TEXT UNIQUE], [id INTEGER PRIMARY KEY AUTOINCREMENT]
    with its counter, [category ... CHECK(category IN ('complaint', 'idea',
    'recommendation', 'other'))]. *)
Definition constraints_hold (db : Public.store) : Prop :=
  NoDup (map Feedback.submission_id (Public.feedback db)) /\
  NoDup (map Feedback.id (Public.feedback db)) /\
  Forall (fun r => (Feedback.id r <= Public.feedback_seq db)%Z /\
                   In (Feedback.category r)
                      [u "complaint"; u "idea"; u "recommendation"; u "other"])
         (Public.feedback db).

End FeedbackSchema.

(** ** Concrete situations used below *)

Module Scenario.

Definition fingerprint : str :=
  u "9f86d081884c7d659a2feaa0c55ad015a3bf4f1b2b0b822cd15d6c15b0f00a08".

Definition secret : str := u "0123456789abcdef0123456789abcdef".

(** 23:00 on the first of January, and 10:00 the next morning. *)
Definition evening : datetime := mk_datetime 2024 1 1 23 0 0 0.
Definition next_morning : datetime := mk_datetime 2024 1 2 10 0 0 0.

(** Ten accepted submissions of one submitter at [evening], each recorded
    by the INSERT of [submit_feedback]. *)
Definition ten_evening_events : RateLimits.table :=
  Nat.iter 10 (RateLimits.insert_default fingerprint evening) [].

(** A table holding two events older than a day and two recent ones. *)
Definition mixed_events : RateLimits.table :=
  RateLimits.insert_default fingerprint next_morning
    (RateLimits.insert_default fingerprint evening
       (RateLimits.insert_default fingerprint (mk_datetime 2023 12 30 8 0 0 0)
          (RateLimits.insert_default (u "other") (mk_datetime 2023 12 31 9 30 0 0)
             []))).

(** A stored submission, as [submit_feedback] leaves it. *)
Definition row_with (i : Z) (message : option str) : Feedback.row :=
  Feedback.mk_row i (u "WDN-123-45") (u "complaint") message None
    St_new (Some fingerprint) (Some (u "Mozilla/5.0")) Ai_pending
    None None None None None None 0
    (CURRENT_TIMESTAMP evening) (CURRENT_TIMESTAMP evening).

(** Submission 7 holds white space only. *)
Definition blank_row : Feedback.row := row_with 7 (Some (u "   ")).

(** Submission 7 holds the message of the salary example. *)
Definition salary_row : Feedback.row :=
  row_with 7 (Some (u "The salary is too low")).


(** The remote service is unreachable, the local heuristics write their
    result and the commit of it raises. *)
Definition heuristic_store_raises : Pipeline.env :=
  Pipeline.mk_env Pipeline.sound false Pipeline.sound false
    Pipeline.Remote_raises
    Pipeline.sound (Pipeline.mk_statement false true) Pipeline.sound
    Pipeline.sound.


(** A configuration with a key for the remote service. *)
Definition with_key : config :=
  mk_config secret 10 (5 * 1024 * 1024) (u "sk-test").


(** Submission 1, new, and the body [{"ids": [1.5], "status": "read"}]. *)
Definition row_one : Feedback.row := row_with 1 (Some (u "The salary is too low")).

Definition one_and_a_half : Json.json :=
  Json.JFloat (QArith_base.Qmake 3 2).

(** An interpreter with the default limit of 4300 digits, of whose
    decimal digits outside ASCII the examples use the Arabic-Indic ones
    (U+0660 to U+0669) and the fullwidth ones (U+FF10 to U+FF19). *)
Definition cpython : Json.interpreter :=
  Json.mk_interpreter
    (fun c =>
       if ((1632 <=? c) && (c <=? 1641))%N then Some (c - 1632)%N
       else if ((65296 <=? c) && (c <=? 65305))%N then Some (c - 65296)%N
       else None)
    4300.

(** A stand-in for SHA-256 in the examples. *)
Definition toy_digest (text : str) : str := u "sha:" ++ text.

(** A well-formed submission without a photo; the first identifier drawn
    for it is the one submission 7 already carries. *)
Definition plain_request : Public.request :=
  Public.mk_request (Some (u "complaint")) (Some (u " Test <message> 1 "))
    (Some (u "on")) None (Some (u "127.0.0.1")) (Some (u "Mozilla/5.0")).

Definition quiet : Public.surroundings :=
  Public.mk_surroundings next_morning [u "WDN-123-45"; u "WDN-555-01"] 4711
    false false false false.

Definition one_submission : Public.store :=
  Public.mk_store [salary_row] 7 [] [].

End Scenario.

(** ** Further concrete situations *)

Module Cases.

(** The remote service answers, and names a tag outside the allow-list
    among its tags. *)
Definition answer : Pipeline.remote_result :=
  Pipeline.mk_remote_result (Some (u "en"))
    (Some (u "The salary is too low"))
    (Some (u "Зарплата слишком низкая"))
    (Some (u "Pay is seen as too low."))
    (Some [u "Salary"; u "Payroll"; u "Management"]).

Definition remote_answers : Pipeline.env :=
  Pipeline.mk_env Pipeline.sound false Pipeline.sound false
    (Pipeline.Remote_result answer)
    Pipeline.sound Pipeline.sound Pipeline.sound Pipeline.sound.

(** The [k]-th request of a busy morning: the clock advances by a minute,
    the identifier drawn is free. *)
Definition morning_submission (k : nat) : Traffic.event :=
  Traffic.Submission Scenario.plain_request
    (Public.mk_surroundings
       (mk_datetime 2024 1 2 10 (N.of_nat k) 0 0)
       [u "WDN-000-" ++ zfill 2 (N.of_nat k)] 4711 false false false false).

(** Eleven requests of one address on one morning, a sweep after the
    fifth. *)
Definition busy_morning : list Traffic.event :=
  map morning_submission (seq 0 5)
  ++ [Traffic.Sweep false (mk_datetime 2024 1 2 10 4 30 0)]
  ++ map morning_submission (seq 5 6).

(** A stand-in for the token library in the examples: the token carries
    the subject in the clear. *)
Definition toy_encode (sub role : str) (exp : datetime) : str :=
  u "tok:" ++ sub.

Definition toy_decode (token : str) : Auth.decoded :=
  if starts_with (u "tok:") token then Auth.Payload (Some (skipn 4 token))
  else Auth.Jwt_error.

Definition toy_verify (plain hashed : str) : bool :=
  str_eqb (u "hash:" ++ plain) hashed.

Definition toy_hash (plain : str) : str := u "hash:" ++ plain.

Definition toy_plus_minutes (d : datetime) (m : Z) : datetime := d.

(** An administrator and a founder. *)
Definition admin_user : Users.user :=
  Users.mk_user 1 (u "admin@weeden.com") (u "hash:admin1234567!")
    (u "Admin") (u "admin") 1.

Definition founder_user : Users.user :=
  Users.mk_user 2 (u "founder@weeden.com") (u "hash:founder1234567!")
    (u "Founder") (u "founder") 1.

Definition two_users : UserAdmin.user_store :=
  UserAdmin.mk_user_store [admin_user; founder_user] 2.

(** A stand-in for SQLite's LIKE in the examples: the pattern without its
    two percent signs occurs in the value. *)
Definition toy_like (value pattern : str) : bool :=
  contains (removelast (tl pattern)) value.

(** A stand-in for the order of the rows: the latest insertion first. *)
Definition toy_order (rows : Feedback.table) : Feedback.table := rev rows.

(** Five submissions, the third one deleted. *)
Definition five_rows : Feedback.table :=
  [Scenario.row_with 1 (Some (u "The salary is too low"));
   Scenario.row_with 2 (Some (u "The store is dirty"));
   Triage.set_is_deleted (u "2024-01-02T09:00:00")
     (Scenario.row_with 3 (Some (u "spam")));
   Scenario.row_with 4 (Some (u "My manager shouts"));
   Scenario.row_with 5 (Some (u "More training please"))].

Definition no_filters : Inbox.filters := Inbox.mk_filters None None None None.

(** An upload whose name points out of the upload directory and whose
    bytes start as a JPEG file does. *)
Definition jpeg_upload : Public.upload :=
  Public.mk_upload (u "../../etc/Photo.JPG")
    [255; 216; 255; 224; 0; 16; 74; 70; 73; 70; 0; 1]%N.

(** A well-formed submission with that upload. *)
Definition photo_request : Public.request :=
  Public.mk_request (Some (u "complaint")) (Some (u "See the photo"))
    (Some (u "on")) (Some jpeg_upload) (Some (u "127.0.0.1"))
    (Some (u "Mozilla/5.0")).

Definition at_second (s : N) (sid : str) : Public.surroundings :=
  Public.mk_surroundings (mk_datetime 2024 1 2 10 0 s 0) [sid] 4711
    false false false false.

(** Two such requests arrive one second apart, and get their bytes after
    both have arrived. *)
Definition two_uploads_overlap : list Traffic.step :=
  [Traffic.Arrives photo_request (at_second 0 (u "WDN-000-00"));
   Traffic.Arrives photo_request (at_second 1 (u "WDN-000-01"));
   Traffic.Resumes 0 (at_second 2 (u "WDN-000-00"));
   Traffic.Resumes 0 (at_second 3 (u "WDN-000-01"))].

(** The same two requests, the first finished before the second
    arrives. *)
Definition two_uploads_in_turn : list Traffic.step :=
  [Traffic.Arrives photo_request (at_second 0 (u "WDN-000-00"));
   Traffic.Resumes 0 (at_second 2 (u "WDN-000-00"));
   Traffic.Arrives photo_request (at_second 1 (u "WDN-000-01"));
   Traffic.Resumes 0 (at_second 3 (u "WDN-000-01"))].

End Cases.

Example u_decodes_thai : u "ร้าน" = [3619; 3657; 3634; 3609]%N.
Proof. reflexivity. Qed.

Example isoformat_with_microseconds : isoformat (mk_datetime 2024 1 2 10 0 0 500) = u "2024-01-02T10:00:00.000500".
Proof. reflexivity. Qed.

Example isoformat_day_before_first_of_march : isoformat (minus_24h (mk_datetime 2024 3 1 10 0 0 0)) = u "2024-02-29T10:00:00".
Proof. reflexivity. Qed.

Example current_timestamp_drops_microseconds : CURRENT_TIMESTAMP (mk_datetime 2024 1 2 10 0 7 500) = u "2024-01-02 10:00:07".
Proof. reflexivity. Qed.

(** * Properties *)

(** ** Order of TEXT values *)

Lemma str_cmp_refl (a : str) : str_cmp a a = Eq.
Proof.
  induction a as [|x a IH]; simpl; [reflexivity|].
  now rewrite N.compare_refl.
Qed.

Lemma str_cmp_antisym (a b : str) : str_cmp b a = CompOpp (str_cmp a b).
Proof.
  revert b; induction a as [|x a IH]; intros [|y b]; simpl; try reflexivity.
  rewrite (N.compare_antisym x y).
  destruct (x ?= y)%N; simpl; auto.
Qed.

Lemma str_cmp_lt_trans (a b c : str) :
  str_cmp a b = Lt -> str_cmp b c = Lt -> str_cmp a c = Lt.
Proof.
  revert b c; induction a as [|x a IH]; intros [|y b] [|z c]; simpl;
    try congruence.
  destruct (N.compare_spec x y) as [-> | Hxy | Hxy]; try discriminate.
  - destruct (z ?= y)%N eqn:E; rewrite (N.compare_antisym z y), E; simpl;
      try congruence.
    apply IH.
  - intros _.
    destruct (N.compare_spec y z) as [-> | Hyz | Hyz]; try discriminate; intros _.
    + now apply N.compare_lt_iff in Hxy as ->.
    + assert (H : (x < z)%N) by lia.
      now apply N.compare_lt_iff in H as ->.
Qed.

Lemma str_cmp_Eq (a b : str) : str_cmp a b = Eq -> a = b.
Proof.
  revert b; induction a as [|x a IH]; intros [|y b]; simpl; try congruence.
  destruct (N.compare_spec x y) as [-> | H | H]; try discriminate.
  intros E; f_equal; auto.
Qed.

(** A value below [c1] is not above a [c2] that is not below [c1]. *)
Lemma str_below_not_above (x c1 c2 : str) :
  str_cmp c1 c2 <> Gt -> str_ltb x c1 = true -> str_ltb c2 x = false.
Proof.
  unfold str_ltb. intros H12 Hx.
  destruct (str_cmp x c1) eqn:E1; try discriminate.
  destruct (str_cmp c2 x) eqn:E2; try reflexivity.
  exfalso.
  pose proof (str_cmp_lt_trans _ _ _ E2 E1) as E.
  rewrite str_cmp_antisym, E in H12. now apply H12.
Qed.

Lemma str_cmp_app (a b x y : str) :
  length a = length b ->
  str_cmp (a ++ x) (b ++ y) =
  match str_cmp a b with Eq => str_cmp x y | c => c end.
Proof.
  revert b; induction a as [|p a IH]; intros [|q b]; simpl; try discriminate.
  - reflexivity.
  - intros [= L]. destruct (p ?= q)%N; auto.
Qed.

(** ** The two textual forms of an instant *)

Lemma zfill_length (k : nat) (n : N) : length (zfill k n) = k.
Proof. induction k; simpl; congruence. Qed.

Lemma zfill_cmp_mod (k : nat) (n m : N) :
  str_cmp (zfill k n) (zfill k m) =
  (n mod 10 ^ N.of_nat k ?= m mod 10 ^ N.of_nat k)%N.
Proof.
  induction k as [|k IH].
  - simpl. now rewrite !N.mod_1_r.
  - cbn [zfill str_cmp]. rewrite IH.
    rewrite Nat2N.inj_succ, N.pow_succ_r', (N.mul_comm 10).
    rewrite !N.Div0.mod_mul_r.
    set (P := (10 ^ N.of_nat k)%N).
    assert (HP : (0 < P)%N) by (apply N.neq_0_lt_0, N.pow_nonzero; lia).
    pose proof (N.mod_lt n P ltac:(lia)) as Hn.
    pose proof (N.mod_lt m P ltac:(lia)) as Hm.
    set (rn := (n mod P)%N) in *. set (rm := (m mod P)%N) in *.
    set (dn := ((n / P) mod 10)%N). set (dm := ((m / P) mod 10)%N).
    destruct (N.compare_spec dn dm) as [E | L | L].
    + rewrite E. replace (48 + dm ?= 48 + dm)%N with Eq
        by (symmetry; apply N.compare_refl).
      destruct (N.compare_spec rn rm) as [-> | H | H]; symmetry.
      * apply N.compare_refl.
      * apply N.compare_lt_iff; lia.
      * apply N.compare_gt_iff; lia.
    + replace (48 + dn ?= 48 + dm)%N with Lt
        by (symmetry; apply N.compare_lt_iff; lia).
      symmetry; apply N.compare_lt_iff; nia.
    + replace (48 + dn ?= 48 + dm)%N with Gt
        by (symmetry; apply N.compare_gt_iff; lia).
      symmetry; apply N.compare_gt_iff; nia.
Qed.

Lemma zfill_cmp (k : nat) (n m : N) :
  (n < 10 ^ N.of_nat k)%N -> (m < 10 ^ N.of_nat k)%N ->
  str_cmp (zfill k n) (zfill k m) = (n ?= m)%N.
Proof.
  intros Hn Hm. rewrite zfill_cmp_mod, !N.mod_small; auto.
Qed.

Lemma valid_printable (d : datetime) : valid d = true -> printable d.
Proof.
  unfold valid, printable, days_in_month. intros H.
  repeat (apply andb_prop in H; destruct H as [H ?]).
  repeat match goal with
         | X : (_ <=? _)%N = true |- _ => apply N.leb_le in X
         end.
  repeat split; try lia.
  destruct (month d =? 2)%N, (is_leap (year d)),
    ((month d =? 4) || (month d =? 6) || (month d =? 9) || (month d =? 11))%N
    in *; lia.
Qed.

Lemma frac_cmp (x y : N) :
  (x < 1000000)%N -> (y < 1000000)%N ->
  str_cmp (if (x =? 0)%N then [] else u "." ++ zfill 6 x)
          (if (y =? 0)%N then [] else u "." ++ zfill 6 y) = (x ?= y)%N.
Proof.
  intros Hx Hy.
  destruct (N.eqb_spec x 0) as [-> | Nx], (N.eqb_spec y 0) as [-> | Ny].
  - reflexivity.
  - symmetry; apply N.compare_lt_iff; lia.
  - symmetry; apply N.compare_gt_iff; lia.
  - change (u ".") with [46%N].
    rewrite (str_cmp_app [46%N] [46%N]) by reflexivity.
    change (str_cmp [46%N] [46%N]) with Eq; cbv iota.
    apply zfill_cmp; assumption.
Qed.

Lemma date_part_length (d : datetime) : length (date_part d) = 10%nat.
Proof.
  unfold date_part. now rewrite !length_app, !zfill_length.
Qed.

Lemma time_part_length (d : datetime) : length (time_part d) = 8%nat.
Proof.
  unfold time_part. now rewrite !length_app, !zfill_length.
Qed.

Lemma date_part_cmp (a b : datetime) :
  printable a -> printable b ->
  str_cmp (date_part a) (date_part b) =
  str_cmp [year a; month a; day a] [year b; month b; day b].
Proof.
  intros (Ya & Ma & Da & _) (Yb & Mb & Db & _).
  unfold date_part. change (u "-") with [45%N].
  rewrite str_cmp_app by now rewrite !zfill_length.
  rewrite zfill_cmp by assumption. cbn [str_cmp].
  destruct (year a ?= year b)%N; try reflexivity.
  rewrite (str_cmp_app [45%N] [45%N]) by reflexivity.
  change (str_cmp [45%N] [45%N]) with Eq; cbv iota.
  rewrite str_cmp_app by now rewrite !zfill_length.
  rewrite zfill_cmp by assumption.
  destruct (month a ?= month b)%N; try reflexivity.
  rewrite (str_cmp_app [45%N] [45%N]) by reflexivity.
  change (str_cmp [45%N] [45%N]) with Eq; cbv iota.
  rewrite <- (app_nil_r (zfill 2 (day a))), <- (app_nil_r (zfill 2 (day b))).
  rewrite str_cmp_app by now rewrite !zfill_length.
  rewrite zfill_cmp by assumption.
  now destruct (day a ?= day b)%N.
Qed.

Lemma time_part_cmp (a b : datetime) :
  printable a -> printable b ->
  str_cmp (time_part a) (time_part b) =
  str_cmp [hour a; minute a; second a] [hour b; minute b; second b].
Proof.
  intros (_ & _ & _ & Ha & Ma & Sa & _) (_ & _ & _ & Hb & Mb & Sb & _).
  unfold time_part. change (u ":") with [58%N].
  rewrite str_cmp_app by now rewrite !zfill_length.
  rewrite zfill_cmp by assumption. cbn [str_cmp].
  destruct (hour a ?= hour b)%N; try reflexivity.
  rewrite (str_cmp_app [58%N] [58%N]) by reflexivity.
  change (str_cmp [58%N] [58%N]) with Eq; cbv iota.
  rewrite str_cmp_app by now rewrite !zfill_length.
  rewrite zfill_cmp by assumption.
  destruct (minute a ?= minute b)%N; try reflexivity.
  rewrite (str_cmp_app [58%N] [58%N]) by reflexivity.
  change (str_cmp [58%N] [58%N]) with Eq; cbv iota.
  rewrite <- (app_nil_r (zfill 2 (second a))), <- (app_nil_r (zfill 2 (second b))).
  rewrite str_cmp_app by now rewrite !zfill_length.
  rewrite zfill_cmp by assumption.
  now destruct (second a ?= second b)%N.
Qed.

(** On ISO texts the order of the texts is the order of the instants. *)
Lemma isoformat_cmp (a b : datetime) :
  printable a -> printable b ->
  str_cmp (isoformat a) (isoformat b) = dt_cmp a b.
Proof.
  intros Pa Pb. unfold isoformat, dt_cmp, key.
  rewrite str_cmp_app by now rewrite !date_part_length.
  rewrite date_part_cmp by assumption.
  change (u "T") with [84%N].
  cbn [str_cmp].
  destruct (year a ?= year b)%N; try reflexivity.
  destruct (month a ?= month b)%N; try reflexivity.
  destruct (day a ?= day b)%N; try reflexivity.
  rewrite (str_cmp_app [84%N] [84%N]) by reflexivity.
  change (str_cmp [84%N] [84%N]) with Eq; cbv iota.
  rewrite str_cmp_app by now rewrite !time_part_length.
  rewrite time_part_cmp by assumption.
  cbn [str_cmp].
  destruct (hour a ?= hour b)%N; try reflexivity.
  destruct (minute a ?= minute b)%N; try reflexivity.
  destruct (second a ?= second b)%N; try reflexivity.
  destruct Pa as (_ & _ & _ & _ & _ & _ & Ua).
  destruct Pb as (_ & _ & _ & _ & _ & _ & Ub).
  rewrite frac_cmp by assumption.
  now destruct (microsecond a ?= microsecond b)%N.
Qed.

Lemma days_in_month_bounds (y m : N) : (28 <= days_in_month y m <= 31)%N.
Proof.
  unfold days_in_month.
  destruct (m =? 2)%N, (is_leap y),
    ((m =? 4) || (m =? 6) || (m =? 9) || (m =? 11))%N; lia.
Qed.

Lemma valid_bounds (d : datetime) :
  valid d = true ->
  (1 <= year d <= 9999 /\ 1 <= month d <= 12 /\
   1 <= day d <= days_in_month (year d) (month d) /\
   hour d <= 23 /\ minute d <= 59 /\ second d <= 59 /\
   microsecond d <= 999999)%N.
Proof.
  unfold valid. intros H.
  repeat (apply andb_prop in H; destruct H as [H ?]).
  repeat match goal with
         | X : (_ <=? _)%N = true |- _ => apply N.leb_le in X
         end.
  lia.
Qed.

Lemma minus_24h_printable (d : datetime) :
  valid d = true -> printable (minus_24h d).
Proof.
  intros V. apply valid_bounds in V.
  destruct d as [y m dd h mi s us]; cbn [year month day hour minute second microsecond] in V.
  unfold minus_24h, printable;
    cbn [year month day hour minute second microsecond].
  pose proof (days_in_month_bounds y (m - 1)) as B.
  pose proof (days_in_month_bounds y m) as B'.
  destruct (1 <? dd)%N; [|destruct (1 <? m)%N];
    cbn [year month day hour minute second microsecond]; lia.
Qed.

Lemma str_cmp_cons_not_Gt (x y : N) (a b : str) :
  str_cmp (x :: a) (y :: b) <> Gt <->
  (x < y)%N \/ x = y /\ str_cmp a b <> Gt.
Proof.
  cbn [str_cmp].
  destruct (N.compare_spec x y) as [E | L | G].
  - split; [now right | now intros [L | [_ H]]; [lia | ]].
  - split; [now left | congruence].
  - split; [congruence | intros [L | [E _]]; lia].
Qed.

Lemma str_cmp_date_not_Gt (x1 x2 x3 y1 y2 y3 : N) (a b : str) :
  str_cmp (x1 :: x2 :: x3 :: a) (y1 :: y2 :: y3 :: b) <> Gt <->
  (x1 < y1)%N \/ x1 = y1 /\
  ((x2 < y2)%N \/ x2 = y2 /\
   ((x3 < y3)%N \/ x3 = y3 /\ str_cmp a b <> Gt)).
Proof. now rewrite !str_cmp_cons_not_Gt. Qed.

Ltac lex_solve :=
  match goal with
  | |- (?x < ?y)%N \/ ?x = ?y /\ _ =>
      destruct (N.lt_trichotomy x y) as [? | [? | ?]];
      [ left; assumption
      | first [ exfalso; lia
              | right; split; [assumption | try subst; lex_solve] ]
      | exfalso; lia ]
  | |- _ => assumption
  end.

(** Going back one day keeps the order of two instants. *)
Lemma minus_24h_mono (a b : datetime) :
  valid a = true -> valid b = true ->
  dt_cmp a b <> Gt -> dt_cmp (minus_24h a) (minus_24h b) <> Gt.
Proof.
  intros Va Vb. apply valid_bounds in Va, Vb.
  destruct a as [ya ma da ha ia sa ua], b as [yb mb db hb ib sb ub].
  cbn [year month day hour minute second microsecond] in Va, Vb.
  unfold dt_cmp, key, minus_24h;
    cbn [year month day hour minute second microsecond].
  pose proof (days_in_month_bounds ya (ma - 1)) as Ba.
  pose proof (days_in_month_bounds yb (mb - 1)) as Bb.
  pose proof (days_in_month_bounds ya ma) as Ba'.
  pose proof (days_in_month_bounds yb mb) as Bb'.
  intros L. apply str_cmp_date_not_Gt in L.
  destruct (N.ltb_spec 1 da), (N.ltb_spec 1 db);
    [| |destruct (N.ltb_spec 1 ma)|destruct (N.ltb_spec 1 ma)];
    try destruct (N.ltb_spec 1 mb);
    cbn [year month day hour minute second microsecond];
    apply str_cmp_date_not_Gt;
    destruct L as [L | (E1 & [L | (E2 & [L | (E3 & L)])])];
    try subst ya; try subst ma; try subst da;
    lex_solve.
Qed.

(** ** The rate limiter *)

Lemma count_since_delete_before (t : RateLimits.table) (h c1 c2 : str) :
  str_cmp c1 c2 <> Gt ->
  RateLimits.count_since (fst (RateLimits.delete_before t c1)) h c2 =
  RateLimits.count_since t h c2.
Proof.
  intros H. unfold RateLimits.count_since, RateLimits.delete_before; cbn [fst].
  f_equal. f_equal.
  induction t as [|e t IH]; cbn [filter]; [reflexivity|].
  destruct (str_ltb (RateLimits.submitted_at e) c1) eqn:E; cbn [negb filter].
  - rewrite (str_below_not_above _ _ _ H E), andb_false_r. exact IH.
  - destruct (str_eqb (RateLimits.ip_hash e) h && str_ltb c2 (RateLimits.submitted_at e));
      [f_equal|]; exact IH.
Qed.

Lemma dt_leb_not_Gt (a b : datetime) : dt_leb a b = true -> dt_cmp a b <> Gt.
Proof. unfold dt_leb. destruct (dt_cmp a b); congruence. Qed.

(** C2.  A sweep run at [now_sweep] does not change what a check run at a
    later instant [now_check] computes: for every table and every
    fingerprint the count of the check is the same on the table before and
    after the sweep, and so is the answer of the check.  This holds whether
    or not the sweep's statement raised. *)
Theorem sweep_keeps_rate_limit_check
    (cfg : config) (t : RateLimits.table) (h : str)
    (now_sweep now_check : datetime) (db_raises : bool) :
  valid now_sweep = true -> valid now_check = true ->
  dt_leb now_sweep now_check = true ->
  let t' := fst (cleanup_old_rate_limits db_raises t now_sweep) in
  RateLimits.count_since t' h (isoformat (minus_24h now_check)) =
  RateLimits.count_since t h (isoformat (minus_24h now_check))
  /\ _check_rate_limit cfg t' h now_check = _check_rate_limit cfg t h now_check.
Proof.
  intros Vs Vc Le t'.
  assert (E : RateLimits.count_since t' h (isoformat (minus_24h now_check)) =
              RateLimits.count_since t h (isoformat (minus_24h now_check))).
  { subst t'. unfold cleanup_old_rate_limits.
    destruct db_raises; [reflexivity|].
    apply count_since_delete_before.
    rewrite isoformat_cmp by now apply minus_24h_printable.
    apply minus_24h_mono; auto using dt_leb_not_Gt. }
  split; [exact E|].
  unfold _check_rate_limit. now rewrite E.
Qed.

Lemma sweep_keeps_rate_limit_check_witness :
  valid Scenario.evening = true /\ valid Scenario.next_morning = true /\
  dt_leb Scenario.evening Scenario.next_morning = true /\
  fst (cleanup_old_rate_limits false Scenario.mixed_events Scenario.evening)
    <> Scenario.mixed_events /\
  _check_rate_limit (default_config Scenario.secret)
    (fst (cleanup_old_rate_limits false Scenario.mixed_events Scenario.evening))
    Scenario.fingerprint Scenario.next_morning =
  _check_rate_limit (default_config Scenario.secret) Scenario.mixed_events
    Scenario.fingerprint Scenario.next_morning.
Proof.
  split; [reflexivity|]. split; [reflexivity|]. split; [reflexivity|].
  split; [vm_compute; discriminate|].
  apply (sweep_keeps_rate_limit_check (default_config Scenario.secret)
           Scenario.mixed_events Scenario.fingerprint
           Scenario.evening Scenario.next_morning false); reflexivity.
Defined.

(** How a stored [CURRENT_TIMESTAMP] text compares with an ISO cutoff: by
    the calendar day alone, and on the day of the cutoff the stored text
    is the smaller one whatever the time of day, as a space sorts before
    the letter T. *)
Lemma isoformat_vs_CURRENT_TIMESTAMP (cutoff stored : datetime) :
  printable cutoff -> printable stored ->
  str_cmp (isoformat cutoff) (CURRENT_TIMESTAMP stored) =
  match str_cmp [year cutoff; month cutoff; day cutoff]
                [year stored; month stored; day stored] with
  | Eq => Gt
  | c => c
  end.
Proof.
  intros Pc Ps. unfold isoformat, CURRENT_TIMESTAMP.
  rewrite str_cmp_app by now rewrite !date_part_length.
  rewrite date_part_cmp by assumption.
  destruct (str_cmp _ _); reflexivity.
Qed.

(** What the check counts among the events that [submit_feedback] has
    recorded: those of the fingerprint whose calendar day is after the
    calendar day of the cutoff, whatever their time of day. *)
Lemma count_since_counts_later_days (events : list (str * datetime))
    (h : str) (now : datetime) :
  valid now = true ->
  Forall (fun ev => printable (snd ev)) events ->
  RateLimits.count_since
    (map (fun ev => RateLimits.mk_entry (fst ev) (CURRENT_TIMESTAMP (snd ev))) events)
    h (isoformat (minus_24h now)) =
  Z.of_nat (length (filter
    (fun ev => str_eqb (fst ev) h && day_ltb (minus_24h now) (snd ev)) events)).
Proof.
  intros V P. apply minus_24h_printable in V.
  unfold RateLimits.count_since. f_equal.
  induction P as [|ev events Pev _ IH]; [reflexivity|].
  cbn [map filter RateLimits.ip_hash RateLimits.submitted_at].
  replace (str_ltb (isoformat (minus_24h now)) (CURRENT_TIMESTAMP (snd ev)))
    with (day_ltb (minus_24h now) (snd ev)).
  - destruct (str_eqb (fst ev) h && day_ltb (minus_24h now) (snd ev));
      cbn [length]; now rewrite IH.
  - unfold str_ltb, day_ltb.
    rewrite isoformat_vs_CURRENT_TIMESTAMP by assumption.
    now destruct (str_cmp _ _).
Qed.

(** C1, at the input where the code departs from it.  Ten submissions of
    one submitter were accepted at 23:00 and recorded by the INSERT of
    [submit_feedback]; at 10:00 the next morning all ten lie inside the
    trailing 24 hours, and the check with the ceiling 10 still answers
    "accept": the stored text [2024-01-01 23:00:00] sorts before the cutoff
    text [2024-01-01T10:00:00], so none of them is counted. *)
Theorem rate_limit_check_misses_events_of_cutoff_day :
  length Scenario.ten_evening_events = 10%nat /\
  Forall (fun e => RateLimits.ip_hash e = Scenario.fingerprint /\
                   RateLimits.submitted_at e = CURRENT_TIMESTAMP Scenario.evening)
         Scenario.ten_evening_events /\
  dt_ltb (minus_24h Scenario.next_morning) Scenario.evening = true /\
  dt_leb Scenario.evening Scenario.next_morning = true /\
  RateLimits.count_since Scenario.ten_evening_events Scenario.fingerprint
    (isoformat (minus_24h Scenario.next_morning)) = 0%Z /\
  _check_rate_limit (default_config Scenario.secret)
    Scenario.ten_evening_events Scenario.fingerprint Scenario.next_morning = true.
Proof.
  split; [reflexivity|].
  split; [repeat constructor|].
  repeat split; reflexivity.
Qed.

(** ** Python string primitives *)

Lemma str_eqb_eq (a b : str) : str_eqb a b = true <-> a = b.
Proof.
  revert b; induction a as [|x a IH]; intros [|y b]; simpl;
    try (split; congruence).
  rewrite andb_true_iff, N.eqb_eq, IH. split.
  - now intros [-> ->].
  - now intros [= -> ->].
Qed.

Lemma str_in_In (x : str) (xs : list str) : str_in x xs = true <-> In x xs.
Proof.
  unfold str_in. rewrite existsb_exists. split.
  - intros (y & Hy & E). apply str_eqb_eq in E. now subst.
  - intros H. exists x. split; [assumption | now apply str_eqb_eq].
Qed.

Lemma starts_with_spec (p s : str) :
  starts_with p s = true <-> exists b, s = p ++ b.
Proof.
  revert s; induction p as [|x p IH]; intros s; simpl.
  - split; [intros _; now exists s | reflexivity].
  - destruct s as [|y s].
    + split; [discriminate | intros (b & E); discriminate].
    + rewrite andb_true_iff, N.eqb_eq, IH. split.
      * intros (-> & b & ->). now exists b.
      * intros (b & [= -> ->]). split; [reflexivity | now exists b].
Qed.

(** [contains kw s] is the substring test. *)
Lemma contains_spec (kw s : str) :
  contains kw s = true <-> exists a b, s = a ++ kw ++ b.
Proof.
  induction s as [|c s IH].
  - simpl. rewrite orb_false_r, starts_with_spec. split.
    + intros (b & E). now exists [], b.
    + intros (a & b & E). destruct a; [now exists b | discriminate].
  - cbn [contains]. rewrite orb_true_iff, starts_with_spec, IH. split.
    + intros [(b & E) | (a & b & E)].
      * now exists [], b.
      * exists (c :: a), b. now rewrite E.
    + intros ([|x a] & b & E).
      * left. now exists b.
      * right. injection E as -> E. now exists a, b.
Qed.

(** ** The local tag derivation *)

Import Pipeline.

(** The tags of the table whose row has a keyword in the message, in the
    order of the table. *)
Lemma scan_keywords_firstn (table : list (str * list str)) (msg_lower : str)
    (tags : list str) :
  (length tags < 3)%nat ->
  scan_keywords table msg_lower tags =
  tags ++ firstn (3 - length tags)
            (map fst (filter (fun row => row_matches msg_lower (snd row)) table)).
Proof.
  revert tags; induction table as [|[tag kws] rest IH]; intros tags L.
  - cbn. now rewrite firstn_nil, app_nil_r.
  - cbn [scan_keywords filter snd].
    destruct (row_matches msg_lower kws).
    + rewrite length_app; cbn [length map fst].
      destruct (Nat.leb_spec 3 (length tags + 1)) as [G | G].
      * replace (3 - length tags)%nat with 1%nat by lia. reflexivity.
      * rewrite IH by (rewrite length_app; cbn; lia).
        rewrite length_app; cbn [length].
        replace (3 - length tags)%nat with (S (3 - (length tags + 1))) by lia.
        cbn [firstn]. now rewrite <- app_assoc.
    + destruct (Nat.leb_spec 3 (length tags)); [lia|]. now apply IH.
Qed.

(** Dropping rows of a table keeps its keys distinct. *)
Lemma filter_keeps_keys_distinct {K V : Type} (keep : K * V -> bool)
    (rows : list (K * V)) :
  NoDup (map fst rows) -> NoDup (map fst (filter keep rows)).
Proof.
  intros D. induction rows as [|row rows IH]; cbn in *; [constructor|].
  inversion D as [|? ? Hfresh Hrest]; subst.
  destruct (keep row); cbn; [|now apply IH].
  constructor; [|now apply IH].
  rewrite in_map_iff. intros (other & Ekey & Hother).
  apply filter_In in Hother as [Hother _].
  apply Hfresh. rewrite <- Ekey. now apply in_map.
Qed.

Lemma In_firstn {A} (n : nat) (l : list A) (x : A) : In x (firstn n l) -> In x l.
Proof.
  revert n; induction l as [|y l IH]; intros [|n]; cbn; try tauto.
  intros [E | Hin]; [now left | right; eauto].
Qed.

Lemma NoDup_firstn_keep {A} (n : nat) (l : list A) : NoDup l -> NoDup (firstn n l).
Proof.
  revert n; induction l as [|x l IH]; intros [|n] H; cbn; try constructor.
  - intros Hin. apply In_firstn in Hin. now inversion H.
  - inversion H; subst. now apply IH.
Qed.

Lemma keywords_map_tags_distinct : NoDup (map fst keywords_map).
Proof.
  assert (D : forall x l, str_in x l = false -> ~ In x l).
  { intros x l E Hin. apply str_in_In in Hin. congruence. }
  repeat (constructor; [apply D; reflexivity|]).
  constructor.
Qed.

Lemma keywords_map_tags_allowed : incl (map fst keywords_map) ALLOWED_TAGS.
Proof.
  intros x Hx. apply str_in_In.
  unfold keywords_map in Hx; cbn [map fst In] in Hx.
  repeat match goal with
         | H : _ \/ _ |- _ => destruct H as [<- | H]; [reflexivity|]
         end.
  contradiction.
Qed.

Lemma matching_tags_spec (message tag : str) :
  In tag (matching_tags message) <->
  exists kws kw, In (tag, kws) keywords_map /\ In kw kws /\
                 exists a b, lower message = a ++ kw ++ b.
Proof.
  unfold matching_tags. rewrite in_map_iff. split.
  - intros ([t kws] & E & H). cbn in E; subst t.
    apply filter_In in H as [Hin Hm]. cbn [snd] in Hm.
    unfold row_matches in Hm. apply existsb_exists in Hm as (kw & Hkw & Hc).
    apply contains_spec in Hc. now exists kws, kw.
  - intros (kws & kw & Hin & Hkw & Hc).
    exists (tag, kws). split; [reflexivity|].
    apply filter_In. split; [assumption|]. cbn [snd].
    unfold row_matches. apply existsb_exists. exists kw.
    split; [assumption | now apply contains_spec].
Qed.

Lemma salary_message_tags :
  str_in (u "Salary") (fallback_tags (u "The salary is too low")) = true.
Proof. vm_compute. reflexivity. Qed.

Lemma shouted_salary_message_tags :
  fallback_tags (u "My SALARY was cut, the Manager SHOUTS") =
  [u "Salary"; u "Management"].
Proof. vm_compute. reflexivity. Qed.

Lemma other_is_allowed : str_in (u "Other") ALLOWED_TAGS = true.
Proof. vm_compute. reflexivity. Qed.

(** Every keyword of the table is written in characters that lower-casing
    leaves as they are. *)
Lemma keywords_are_lower_case (tag : str) (kws : list str) (kw : str) :
  In (tag, kws) keywords_map -> In kw kws ->
  Forall (fun k => lower_char k = [k]) kw.
Proof.
  assert (C : forallb (fun row =>
                forallb (fun kw =>
                  forallb (fun k => str_eqb (lower_char k) [k]) kw) (snd row))
                keywords_map = true) by (vm_compute; reflexivity).
  intros Hrow Hkw. rewrite forallb_forall in C.
  specialize (C _ Hrow). cbn [snd] in C. rewrite forallb_forall in C.
  specialize (C _ Hkw). rewrite forallb_forall in C.
  apply Forall_forall. intros k Hk. apply str_eqb_eq. now apply C.
Qed.

(** A word that is the keyword up to the case of its ASCII letters
    lower-cases to the keyword. *)
Lemma lower_of_cased_keyword (w kw : str) :
  Forall (fun k => lower_char k = [k]) kw ->
  Forall2 (fun c k => c = k \/ ((65 <= c <= 90) /\ k = c + 32)%N) w kw ->
  lower w = kw.
Proof.
  intros L F. unfold lower.
  induction F as [|c k w kw Hck F IH]; [reflexivity|].
  inversion L as [|? ? Lk Lkw]; subst. cbn [flat_map].
  rewrite (IH Lkw).
  destruct Hck as [-> | [[Lo Hi] ->]]; [now rewrite Lk|].
  unfold lower_char.
  rewrite (proj2 (N.leb_le 65 c) Lo), (proj2 (N.leb_le c 90) Hi).
  reflexivity.
Qed.

Lemma lower_app (a b : str) : lower (a ++ b) = lower a ++ lower b.
Proof. unfold lower. apply flat_map_app. Qed.

(** C7.  For every message the local derivation returns between one and
    three tags, without repetition, each on the allow-list; a tag matches
    when one of its keywords is a substring of the lower-cased message, so
    whenever the message itself holds a keyword in any mix of upper and
    lower case (each character of the occurrence is the keyword's
    character or its capital letter); the result is the first three
    matching tags in the order of the table when there is one, and the
    single tag [Other] when there is none; on "The salary is too low" the
    result holds [Salary], and so it does when the word is written in
    capitals. *)
Theorem fallback_tags_correct (message : str) :
  (1 <= length (fallback_tags message) <= 3)%nat /\
  NoDup (fallback_tags message) /\
  incl (fallback_tags message) ALLOWED_TAGS /\
  (forall tag, In tag (matching_tags message) <->
     exists kws kw, In (tag, kws) keywords_map /\ In kw kws /\
                    exists a b, lower message = a ++ kw ++ b) /\
  (forall tag kws kw a w b,
     In (tag, kws) keywords_map -> In kw kws ->
     message = a ++ w ++ b ->
     Forall2 (fun c k => c = k \/ ((65 <= c <= 90) /\ k = c + 32)%N) w kw ->
     In tag (matching_tags message)) /\
  (matching_tags message <> [] ->
     fallback_tags message = firstn 3 (matching_tags message)) /\
  (matching_tags message = [] -> fallback_tags message = [u "Other"]) /\
  In (u "Salary") (fallback_tags (u "The salary is too low")) /\
  fallback_tags (u "My SALARY was cut, the Manager SHOUTS")
    = [u "Salary"; u "Management"].
Proof.
  assert (E : fallback_tags message =
              match firstn 3 (matching_tags message) with
              | [] => [u "Other"]
              | l => l
              end).
  { unfold fallback_tags.
    rewrite scan_keywords_firstn by (cbn; lia).
    change ([] ++ firstn (3 - length (@nil str))
              (map fst (filter (fun row => row_matches (lower message) (snd row))
                          keywords_map)))
      with (firstn 3 (matching_tags message)).
    now destruct (firstn 3 (matching_tags message)). }
  pose proof (NoDup_firstn_keep 3 _
                (filter_keeps_keys_distinct
                   (fun row => row_matches (lower message) (snd row)) _
                   keywords_map_tags_distinct)) as ND.
  fold (matching_tags message) in ND.
  assert (Inc : incl (firstn 3 (matching_tags message)) ALLOWED_TAGS).
  { intros x Hx. apply In_firstn in Hx. apply keywords_map_tags_allowed.
    unfold matching_tags in Hx. apply in_map_iff in Hx as (row & <- & Hrow).
    apply filter_In in Hrow as [Hrow _]. now apply in_map. }
  pose proof (firstn_le_length 3 (matching_tags message)) as Len.
  split.
  { rewrite E. destruct (firstn 3 (matching_tags message)); cbn [length] in *; lia. }
  split.
  { rewrite E. destruct (firstn 3 (matching_tags message)); [|exact ND].
    constructor; [intros [] | constructor]. }
  split.
  { rewrite E. destruct (firstn 3 (matching_tags message)); [|exact Inc].
    intros x [<- | []]. exact (proj1 (str_in_In _ _) other_is_allowed). }
  split.
  { intros tag. exact (matching_tags_spec message tag). }
  split.
  { intros tag kws kw a w b Hrow Hkw -> Hcase.
    apply (proj2 (matching_tags_spec (a ++ w ++ b) tag)).
    exists kws, kw. split; [exact Hrow|]. split; [exact Hkw|].
    exists (lower a), (lower b).
    rewrite !lower_app.
    now rewrite (lower_of_cased_keyword w kw
                   (keywords_are_lower_case tag kws kw Hrow Hkw) Hcase). }
  split.
  { intros NE. rewrite E.
    destruct (matching_tags message); [congruence | reflexivity]. }
  split.
  { intros Em. rewrite E, Em. reflexivity. }
  split.
  { exact (proj1 (str_in_In _ _) salary_message_tags). }
  exact shouted_salary_message_tags.
Qed.

(** ** The enrichment worker: what it leaves alone *)

Lemma same_outside_enrichment_refl (r : Feedback.row) :
  Feedback.same_outside_enrichment r r.
Proof. repeat split. Qed.

Lemma same_outside_enrichment_trans (a b c : Feedback.row) :
  Feedback.same_outside_enrichment a b ->
  Feedback.same_outside_enrichment b c ->
  Feedback.same_outside_enrichment a c.
Proof.
  unfold Feedback.same_outside_enrichment. intros H1 H2.
  repeat match goal with H : _ /\ _ |- _ => destruct H end.
  repeat split; congruence.
Qed.

Lemma frame_refl (i : Z) (t : Feedback.table) : Forall2 (frame i) t t.
Proof.
  induction t; constructor; auto.
  split; [reflexivity | apply same_outside_enrichment_refl].
Qed.

Lemma frame_trans (i : Z) (t1 t2 t3 : Feedback.table) :
  Forall2 (frame i) t1 t2 -> Forall2 (frame i) t2 t3 -> Forall2 (frame i) t1 t3.
Proof.
  intros H; revert t3; induction H as [|a b t1 t2 [Hab Sab] _ IH];
    intros t3 H23; inversion H23 as [|? c ? t3' [Hbc Sbc] H']; subst;
    constructor; auto.
  split.
  - intros Ne. rewrite Hbc, Hab; auto.
    destruct Sab as [E _]. now rewrite E.
  - eapply same_outside_enrichment_trans; eauto.
Qed.

Lemma frame_update (i : Z) (f : Feedback.row -> Feedback.row)
    (t : Feedback.table) :
  (forall r, Feedback.same_outside_enrichment r (f r)) ->
  Forall2 (frame i) t (Feedback.update_where_id i f t).
Proof.
  intros Hf. induction t as [|r t IH]; cbn; constructor; auto.
  destruct (Z.eqb_spec (Feedback.id r) i).
  - split; [contradiction | apply Hf].
  - split; [reflexivity | apply same_outside_enrichment_refl].
Qed.

Lemma keeps_ret {A} (i : Z) (a : A) : keeps i (ret a).
Proof. intros t0 w H. exact H. Qed.

Lemma keeps_raise {A} (i : Z) (e : exn) : keeps i (@raise A e).
Proof. intros t0 w H. exact H. Qed.

Lemma keeps_note (i : Z) (ev : event) : keeps i (note ev).
Proof. intros t0 w H. exact H. Qed.

Lemma keeps_fetch_row (i : Z) (fails : bool) (j : Z) : keeps i (fetch_row fails j).
Proof. intros t0 w H. unfold fetch_row. now destruct fails. Qed.

Lemma keeps_execute_update (i : Z) (fails : bool)
    (f : Feedback.row -> Feedback.row) :
  (forall r, Feedback.same_outside_enrichment r (f r)) ->
  keeps i (execute_update fails i f).
Proof.
  intros Hf t0 w [Hv Hc]. unfold execute_update.
  destruct fails; cbn; split; auto.
  eapply frame_trans; [exact Hv | now apply frame_update].
Qed.

Lemma keeps_commit (i : Z) (fails : bool) : keeps i (commit fails).
Proof.
  intros t0 w [Hv Hc]. unfold commit. destruct fails; cbn; split; auto.
Qed.

Lemma keeps_bind {A B} (i : Z) (m : M A) (k : A -> M B) :
  keeps i m -> (forall a, keeps i (k a)) -> keeps i (bind m k).
Proof.
  intros Hm Hk t0 w H. unfold bind. specialize (Hm t0 w H).
  destruct (m w) as [[a | e] w']; cbn in *; [|assumption].
  now apply Hk.
Qed.

Lemma keeps_try_except {A} (i : Z) (m : M A) (h : exn -> M A) :
  keeps i m -> (forall e, keeps i (h e)) -> keeps i (try_except m h).
Proof.
  intros Hm Hh t0 w H. unfold try_except. specialize (Hm t0 w H).
  destruct (m w) as [[a | e] w']; cbn in *; [assumption|].
  now apply Hh.
Qed.

Lemma keeps_try_finally_close {A} (i : Z) (m : M A) :
  keeps i m -> keeps i (try_finally m close).
Proof.
  intros Hm t0 w H. unfold try_finally. specialize (Hm t0 w H).
  destruct (m w) as [o w']; cbn in *. destruct Hm as [_ Hc]. now split.
Qed.

Lemma set_ai_status_enrichment_only (a : enrichment_status) (r : Feedback.row) :
  Feedback.same_outside_enrichment r (Feedback.set_ai_status a r).
Proof. repeat split. Qed.

Lemma set_enrichment_enrichment_only (lang en ru summ tgs : str) (r : Feedback.row) :
  Feedback.same_outside_enrichment r (Feedback.set_enrichment lang en ru summ tgs r).
Proof. repeat split. Qed.

Create HintDb frame.

#[local] Hint Resolve keeps_ret keeps_raise keeps_note keeps_fetch_row
  keeps_execute_update keeps_commit keeps_bind keeps_try_except
  keeps_try_finally_close
  set_ai_status_enrichment_only set_enrichment_enrichment_only : frame.

Lemma keeps_process_fallback (e : env) (i : Z) (message : str) :
  keeps i (_process_fallback e i message).
Proof. unfold _process_fallback. auto 8 with frame. Qed.

Lemma keeps_fallback_on_error (e : env) (i : Z) (message : str) :
  keeps i (_fallback_on_error e i message).
Proof.
  unfold _fallback_on_error.
  apply keeps_try_except; [apply keeps_process_fallback | auto 6 with frame].
Qed.

Lemma keeps_process_with_openai (e : env) (i : Z) (message : str) :
  keeps i (_process_with_openai e i message).
Proof.
  unfold _process_with_openai.
  destruct (openai_import_fails e); [auto with frame|].
  apply keeps_try_except; [|intros; apply keeps_fallback_on_error].
  apply keeps_bind; [auto with frame|]. intros _.
  destruct (remote e); auto 6 with frame.
Qed.

Lemma keeps_process (cfg : config) (e : env) (i : Z) : keeps i (_process_connected cfg e i).
Proof.
  unfold _process_connected.
  apply keeps_try_finally_close.
  apply keeps_try_except; [|auto 8 with frame].
  apply keeps_bind; [auto with frame|]. intros _.
  apply keeps_bind; [auto with frame|]. intros _.
  apply keeps_bind; [auto with frame|]. intros [row|]; [|auto with frame].
  destruct (negb (truthy (strip (or_empty (Feedback.message row)))));
    [auto 6 with frame|].
  destruct (truthy (OPENAI_API_KEY cfg));
    [apply keeps_process_with_openai | apply keeps_process_fallback].
Qed.

(** C8.  Whatever the statements and the remote service do, the table
    that a worker invocation for the identifier [i] leaves holds every row
    of another identifier as it was, and on the rows of identifier [i]
    nothing is changed but the enrichment status and the enrichment
    outputs: the workflow status, the message, the category, the private
    note and the soft-delete flag (and the other columns) are those of
    before.  As the statements after any commit may all raise, this covers
    every table the invocation commits on its way. *)
Theorem worker_writes_only_enrichment_of_its_row
    (cfg : config) (e : env) (i : Z) (t : Feedback.table) :
  Forall2
    (fun r r' =>
       (Feedback.id r <> i -> r' = r) /\
       Feedback.status r' = Feedback.status r /\
       Feedback.message r' = Feedback.message r /\
       Feedback.category r' = Feedback.category r /\
       Feedback.private_note r' = Feedback.private_note r /\
       Feedback.is_deleted r' = Feedback.is_deleted r /\
       Feedback.same_outside_enrichment r r')
    t (w_committed (run_process cfg e i t)).
Proof.
  assert (H0 : framed i t (mk_world t t [])) by (split; apply frame_refl).
  pose proof (keeps_process cfg e i t _ H0) as [_ H].
  unfold run_process.
  eapply Forall2_impl; [|exact H].
  intros r r' [Hne S]. split; [exact Hne|].
  pose proof S as S'. unfold Feedback.same_outside_enrichment in S'.
  repeat match goal with H : _ /\ _ |- _ => destruct H end.
  repeat split; assumption.
Qed.

(** ** The enrichment worker: the message without text *)

Lemma lstrip_nil_iff (s : str) : lstrip s = [] <-> forallb isspace s = true.
Proof.
  induction s as [|c s IH]; cbn; [tauto|].
  destruct (isspace c); cbn; [exact IH | split; discriminate].
Qed.

Lemma lstrip_head (s : str) (c : N) (r : str) :
  lstrip s = c :: r -> isspace c = false.
Proof.
  induction s as [|x s IH]; cbn; [discriminate|].
  destruct (isspace x) eqn:E; [exact IH | now intros [= <- _]].
Qed.

(** [s.strip()] is empty exactly when [s] holds white space only. *)
Lemma strip_nil_iff (s : str) : strip s = [] <-> forallb isspace s = true.
Proof.
  unfold strip, rstrip. split.
  - intros H. apply lstrip_nil_iff.
    destruct (lstrip s) as [|c r] eqn:E; [reflexivity|].
    apply lstrip_head in E.
    apply (f_equal (@rev N)) in H. rewrite rev_involutive in H. cbn [rev] in H.
    apply lstrip_nil_iff in H.
    rewrite forallb_forall in H.
    specialize (H c ltac:(apply in_or_app; right; now left)). congruence.
  - intros H. apply lstrip_nil_iff in H. now rewrite H.
Qed.

Lemma select_update_where_id (i : Z) (f : Feedback.row -> Feedback.row)
    (t : Feedback.table) :
  (forall r, Feedback.id (f r) = Feedback.id r) ->
  Feedback.select_by_id i (Feedback.update_where_id i f t) =
  option_map f (Feedback.select_by_id i t).
Proof.
  intros Hf. unfold Feedback.select_by_id, Feedback.update_where_id.
  induction t as [|r t IH]; cbn; [reflexivity|].
  destruct (Z.eqb_spec (Feedback.id r) i) as [E | NE].
  - rewrite Hf. destruct (Z.eqb_spec (Feedback.id r) i); [reflexivity | contradiction].
  - destruct (Z.eqb_spec (Feedback.id r) i); [contradiction | exact IH].
Qed.

Lemma raises_false (s : statement) :
  raises s = false -> on_execute s = false /\ on_commit s = false.
Proof. unfold raises. apply orb_false_elim. Qed.

(** C6.  When the row of the submission holds no message, an empty one or
    white space only, and the statements on this path do not raise, the
    worker leaves the row with enrichment status [done], an empty summary,
    empty English and Russian translations, empty tags and the detected
    language [unknown], and it has entered neither the remote path nor the
    local heuristics. *)
Theorem blank_message_is_done_without_enrichment
    (cfg : config) (e : env) (i : Z) (t : Feedback.table) (r : Feedback.row) :
  Feedback.select_by_id i t = Some r ->
  forallb isspace (or_empty (Feedback.message r)) = true ->
  raises (mark_processing e) = false ->
  fetch_raises e = false ->
  raises (mark_empty e) = false ->
  exists r',
    Feedback.select_by_id i (w_committed (run_process cfg e i t)) = Some r' /\
    Feedback.ai_status r' = Ai_done /\
    Feedback.summary r' = Some [] /\
    Feedback.translation_en r' = Some [] /\
    Feedback.translation_ru r' = Some [] /\
    Feedback.tags r' = Some [] /\
    Feedback.detected_language r' = Some (u "unknown") /\
    w_trace (run_process cfg e i t) = [].
Proof.
  intros Hsel Hblank Hp Hf He.
  apply raises_false in Hp as [Hp1 Hp2]. apply raises_false in He as [He1 He2].
  apply strip_nil_iff in Hblank.
  exists (Feedback.set_enrichment (u "unknown") [] [] [] []
            (Feedback.set_ai_status Ai_processing r)).
  unfold run_process, _process_connected, try_finally, try_except, bind,
    execute_update, commit, fetch_row, close.
  rewrite Hp1, Hp2, Hf. cbn [w_feedback w_committed w_trace snd fst].
  rewrite select_update_where_id by reflexivity.
  rewrite Hsel. cbn [option_map Feedback.set_ai_status Feedback.message].
  rewrite Hblank. cbn [truthy negb]. rewrite He1, He2.
  cbn [w_feedback w_committed w_trace snd].
  rewrite !select_update_where_id by reflexivity.
  rewrite Hsel. repeat split.
Qed.

Lemma blank_message_is_done_without_enrichment_witness :
  exists r',
    Feedback.select_by_id 7
      (w_committed (run_process (default_config Scenario.secret) calm 7
                      [Scenario.blank_row])) = Some r' /\
    Feedback.ai_status r' = Ai_done /\
    Feedback.summary r' = Some [] /\
    Feedback.translation_en r' = Some [] /\
    Feedback.translation_ru r' = Some [] /\
    Feedback.tags r' = Some [] /\
    Feedback.detected_language r' = Some (u "unknown") /\
    w_trace (run_process (default_config Scenario.secret) calm 7
               [Scenario.blank_row]) = [].
Proof.
  apply (blank_message_is_done_without_enrichment
           (default_config Scenario.secret) calm 7
           [Scenario.blank_row] Scenario.blank_row); reflexivity.
Defined.

(** ** The enrichment worker: where [failed] comes from *)

(** The scenario of the specification: without a key for the remote
    service the salary message goes through the local heuristics and ends
    [done], in English, tagged [Salary]. *)
Example salary_message_without_key :
  run_process (default_config Scenario.secret) calm 7 [Scenario.salary_row] =
  let done :=
    [Feedback.set_enrichment (u "en") (u "The salary is too low")
       (u "[Требуется перевод] The salary is too low")
       (u "The salary is too low") (u "Salary") Scenario.salary_row] in
  mk_world done done [Ev_heuristic].
Proof. vm_compute. reflexivity. Qed.

(** With a key and an unreachable service the outcome is the same, after
    the remote attempt. *)
Example salary_message_with_unreachable_service :
  run_process Scenario.with_key calm 7 [Scenario.salary_row] =
  let done :=
    [Feedback.set_enrichment (u "en") (u "The salary is too low")
       (u "[Требуется перевод] The salary is too low")
       (u "The salary is too low") (u "Salary") Scenario.salary_row] in
  mk_world done done [Ev_remote_call; Ev_heuristic].
Proof. vm_compute. reflexivity. Qed.

Example thai_message_language :
  detect_language (u "เงินเดือนต่ำเกินไป และผู้จัดการไม่ช่วยเหลือ") = u "th" /\
  fallback_tags (u "เงินเดือนต่ำเกินไป และผู้จัดการไม่ช่วยเหลือ") =
    [u "Salary"; u "Management"].
Proof. split; vm_compute; reflexivity. Qed.

Lemma In_update_where_id (i : Z) (f : Feedback.row -> Feedback.row)
    (t : Feedback.table) (r' : Feedback.row) :
  In r' (Feedback.update_where_id i f t) ->
  exists r, In r t /\ (r' = r \/ r' = f r).
Proof.
  unfold Feedback.update_where_id. rewrite in_map_iff.
  intros (r & E & Hin). exists r. split; [assumption|].
  destruct (Feedback.id r =? i)%Z; auto.
Qed.

(** One branching point of the worker: a statement that may raise, the
    answer of the remote service, the row that was fetched. *)
Ltac worker_step :=
  match goal with
  | H : context [if ?b then _ else _] |- _ =>
      lazymatch b with
      | context [str_eqb] => fail
      | _ => destruct b eqn:?
      end
  | H : context [match remote ?e with _ => _ end] |- _ =>
      destruct (remote e) eqn:?
  | H : context [match Feedback.select_by_id ?i ?t with _ => _ end] |- _ =>
      destruct (Feedback.select_by_id i t) eqn:?
  end; cbn [fst snd w_feedback w_committed w_trace app] in *.

Ltac unfold_worker :=
  unfold run_process, _process_connected, _process_with_openai, _fallback_on_error,
    _process_fallback, try_finally, try_except, bind, execute_update, commit,
    close, fetch_row, note, raise, ret in *;
  cbn [fst snd w_feedback w_committed w_trace app] in *.

Ltac rows_before :=
  repeat match goal with
         | H : In _ (Feedback.update_where_id _ _ _) |- _ =>
             apply In_update_where_id in H as (? & H & [-> | ->])
         end.






Lemma In_update_where_id_hit (i : Z) (f : Feedback.row -> Feedback.row)
    (t : Feedback.table) (r' : Feedback.row) :
  (forall r, Feedback.id (f r) = Feedback.id r) ->
  In r' (Feedback.update_where_id i f t) -> Feedback.id r' = i ->
  exists r, r' = f r.
Proof.
  intros Hf. unfold Feedback.update_where_id. rewrite in_map_iff.
  intros (r & E & _) Hid.
  destruct (Z.eqb_spec (Feedback.id r) i) as [Ei | NE]; subst r'.
  - now exists r.
  - rewrite Hid in NE. contradiction.
Qed.

Lemma has_text_truthy (m : str) :
  forallb isspace m = false -> negb (truthy (strip m)) = false.
Proof.
  intros H. destruct (strip m) eqn:E; [|reflexivity].
  apply strip_nil_iff in E. congruence.
Qed.






(** ** Session validation *)

Import Auth.



(** ** The bulk status mutation *)

Import Json Admin.

Lemma int_all_inl (itp : interpreter) (items : list json) (zs : list Z) :
  int_all itp items = inl zs ->
  Forall2 (fun v z => py_int itp v = Int_value z) items zs.
Proof.
  revert zs; induction items as [|v items IH]; cbn; intros zs.
  - intros [= <-]. constructor.
  - destruct (py_int itp v) eqn:E; try discriminate.
    destruct (int_all itp items) as [zs'|e]; try discriminate.
    intros [= <-]. constructor; auto.
Qed.

Lemma int_all_inr (itp : interpreter) (items : list json) (e : int_result) :
  int_all itp items = inr e ->
  exists v, In v items /\ py_int itp v = e /\ forall z, e <> Int_value z.
Proof.
  induction items as [|v items IH]; cbn; [discriminate|].
  destruct (py_int itp v) eqn:E.
  - destruct (int_all itp items) as [zs'|e']; [discriminate|].
    intros [= <-]. destruct (IH eq_refl) as (x & Hx & Ex & Hz).
    exists x. auto.
  - intros [= <-]. exists v. repeat split; auto; discriminate.
  - intros [= <-]. exists v. repeat split; auto; discriminate.
  - intros [= <-]. exists v. repeat split; auto; discriminate.
Qed.

Lemma int_all_raises (itp : interpreter) (items : list json) (v : json) :
  In v items -> (forall z, py_int itp v <> Int_value z) ->
  exists e, int_all itp items = inr e.
Proof.
  induction items as [|x items IH]; cbn; [contradiction|].
  intros [-> | Hin] Hbad.
  - destruct (py_int itp v) as [z| | |] eqn:E; eauto. now destruct (Hbad z).
  - destruct (py_int itp x); eauto.
    destruct (IH Hin Hbad) as (e & ->). eauto.
Qed.

(** The first identifier that [int] refuses ends the conversion, with
    the exception it raised. *)
Lemma int_all_first_refused (itp : interpreter) (good rest : list json)
    (v : json) :
  Forall (fun x => exists z, py_int itp x = Int_value z) good ->
  (forall z, py_int itp v <> Int_value z) ->
  int_all itp (good ++ v :: rest) = inr (py_int itp v).
Proof.
  intros G Hbad. induction G as [|x good [z Hx] G IH]; cbn [app int_all].
  - destruct (py_int itp v) as [z| | |] eqn:E; try reflexivity.
    now destruct (Hbad z).
  - now rewrite Hx, IH.
Qed.

(** C5, as the code has it.  The target status is checked against the
    five workflow names first; every answer other than success leaves the
    table as it was; the identifiers are converted by [int] one after the
    other, and the first one that [int] refuses decides the answer: 400
    "Invalid ID format" when [int] raised ValueError or TypeError, a
    server error when it raised OverflowError; so any identifier that
    [int] refuses keeps the whole batch from being applied; and a success
    means that [int] accepted every identifier and that the update was
    applied to the rows of all the converted identifiers at once.  What
    [int] accepts is what Python's does: the string "1", a decimal digit
    of another script, the float 1.5 (as 1) and [true] (as 1) are
    accepted, "abc" and a digit preceded by U+001C are refused with
    ValueError, [null] with TypeError, Infinity with OverflowError. *)
Theorem bulk_status_all_or_nothing
    (itp : interpreter) (ids new_status : option json) (now : datetime)
    (t : Feedback.table) :
  (status_of_json new_status = None ->
   bulk_status itp ids new_status now t = (Bulk_400 (u "Invalid status"), t)) /\
  (forall resp t', bulk_status itp ids new_status now t = (resp, t') ->
     (forall n, resp <> Bulk_ok n) -> t' = t) /\
  (forall st good v rest,
     status_of_json new_status = Some st ->
     ids = Some (JArr (good ++ v :: rest)) ->
     Forall (fun x => exists z, py_int itp x = Int_value z) good ->
     (py_int itp v = Value_error \/ py_int itp v = Type_error ->
      bulk_status itp ids new_status now t
        = (Bulk_400 (u "Invalid ID format"), t)) /\
     (py_int itp v = Overflow_error ->
      bulk_status itp ids new_status now t = (Bulk_500, t))) /\
  (forall st items v,
     status_of_json new_status = Some st ->
     ids = Some (JArr items) ->
     In v items ->
     (forall z, py_int itp v <> Int_value z) ->
     bulk_status itp ids new_status now t
       = (Bulk_400 (u "Invalid ID format"), t)
     \/ bulk_status itp ids new_status now t = (Bulk_500, t)) /\
  (forall n t', bulk_status itp ids new_status now t = (Bulk_ok n, t') ->
     exists st items zs,
       status_of_json new_status = Some st /\
       iterate (match ids with Some v => v | None => JArr [] end) = Some items /\
       Forall2 (fun v z => py_int itp v = Int_value z) items zs /\
       n = Z.of_nat (length zs) /\
       t' = Feedback.update_where_id_in zs
              (Feedback.set_status st (isoformat now)) t) /\
  (py_int itp (JStr (u "1")) = Int_value 1 /\
   py_int itp (JStr (u " +12 ")) = Int_value 12 /\
   py_int itp (JStr (u "abc")) = Value_error /\
   py_int itp (JStr (u "1.5")) = Value_error /\
   py_int itp (JStr [28; 49]%N) = Value_error /\
   (unicode_decimal itp 1633 = Some 1%N ->
    py_int itp (JStr [1633%N]) = Int_value 1) /\
   py_int itp (JFloat (QArith_base.Qmake 3 2)) = Int_value 1 /\
   py_int itp (JBool true) = Int_value 1 /\
   py_int itp JNull = Type_error /\
   py_int itp (JInfinity false) = Overflow_error).
Proof.
  split; [|split; [|split; [|split; [|split]]]].
  - intros E. unfold bulk_status. now rewrite E.
  - intros resp t'. unfold bulk_status.
    destruct (status_of_json new_status); [|now intros [= <- <-]].
    destruct (falsy _); [now intros [= <- <-]|].
    destruct (iterate _) as [items|]; [|now intros [= <- <-]].
    destruct (int_all itp items) as [zs|[]]; try now intros [= <- <-].
    destruct (forallb fits_int64 zs); [|now intros [= <- <-]].
    intros [= <- <-] H. now destruct (H (Z.of_nat (length zs))).
  - intros st good v rest Est -> G.
    assert (NE : falsy (JArr (good ++ v :: rest)) = false)
      by (now destruct good).
    unfold bulk_status. rewrite Est, NE. cbn [iterate].
    split.
    + intros Hbad.
      rewrite (int_all_first_refused itp good rest v G)
        by (intros z Ez; destruct Hbad; congruence).
      now destruct Hbad as [-> | ->].
    + intros Hbad.
      rewrite (int_all_first_refused itp good rest v G)
        by (intros z Ez; congruence).
      now rewrite Hbad.
  - intros st items v Est -> Hin Hbad.
    unfold bulk_status. rewrite Est.
    destruct items as [|x items]; [contradiction|]. cbn [falsy iterate].
    destruct (int_all_raises itp (x :: items) v Hin Hbad) as (e & ->).
    destruct e; auto.
  - intros n t'. unfold bulk_status.
    destruct (status_of_json new_status) as [st|]; [|discriminate].
    destruct (falsy _); [discriminate|].
    destruct (iterate _) as [items|]; [|discriminate].
    destruct (int_all itp items) as [zs|[]] eqn:Ei; try discriminate.
    destruct (forallb fits_int64 zs); [|discriminate].
    intros [= <- <-]. exists st, items, zs.
    repeat split; auto using int_all_inl.
  - repeat split; try reflexivity.
    intros D. unfold py_int, int_of_str. cbn [forallb N.ltb N.compare andb].
    cbn [to_ascii]. change (1633 <? 127)%N with false.
    change (isspace 1633) with false. cbv iota. rewrite D.
    reflexivity.
Qed.

(** C5 as it is worded fails.  In the body
    [{"ids": [1.5], "status": "read"}] the identifier 1.5 is no
    well-formed integer, yet the request is not rejected: [int] truncates
    1.5 to 1, the answer is [{"ok": True, "count": 1}] and the row of
    submission 1, which was new, is now read. *)
Lemma bulk_status_truncates_fractional_identifier :
  py_int Scenario.cpython Scenario.one_and_a_half = Int_value 1 /\
  bulk_status Scenario.cpython (Some (JArr [Scenario.one_and_a_half]))
    (Some (JStr (u "read"))) Scenario.next_morning [Scenario.row_one] =
  (Bulk_ok 1,
   [Feedback.set_status St_read (isoformat Scenario.next_morning) Scenario.row_one])
  /\ Feedback.status Scenario.row_one = St_new.
Proof. repeat split; reflexivity. Qed.

(** The same with the identifier [true], which [int] turns into 1. *)
Example bulk_status_accepts_boolean_identifier :
  fst (bulk_status Scenario.cpython (Some (JArr [JBool true]))
         (Some (JStr (u "resolved"))) Scenario.next_morning [Scenario.row_one])
  = Bulk_ok 1.
Proof. reflexivity. Qed.

(** The scenario of the specification: with the identifiers ["1", "abc"]
    the request is rejected and no row is touched. *)
Example bulk_status_rejects_abc :
  bulk_status Scenario.cpython (Some (JArr [JStr (u "1"); JStr (u "abc")]))
    (Some (JStr (u "read"))) Scenario.next_morning [Scenario.row_one] =
  (Bulk_400 (u "Invalid ID format"), [Scenario.row_one]).
Proof. reflexivity. Qed.

(** The Arabic-Indic digit one is an identifier for [int]: row 1 is
    updated.  The digit 1 after the separator U+001C is none. *)
Example bulk_status_reads_digits_as_python :
  bulk_status Scenario.cpython (Some (JArr [JStr (u "١")]))
    (Some (JStr (u "read"))) Scenario.next_morning [Scenario.row_one] =
  (Bulk_ok 1,
   [Feedback.set_status St_read (isoformat Scenario.next_morning)
      Scenario.row_one]) /\
  bulk_status Scenario.cpython (Some (JArr [JStr [28; 49]%N]))
    (Some (JStr (u "read"))) Scenario.next_morning [Scenario.row_one] =
  (Bulk_400 (u "Invalid ID format"), [Scenario.row_one]).
Proof. split; reflexivity. Qed.

(** The refused identifier that comes first decides: "abc" before
    Infinity is answered 400, Infinity before "abc" by a server error. *)
Example bulk_status_first_refusal_decides :
  fst (bulk_status Scenario.cpython
         (Some (JArr [JStr (u "abc"); JInfinity false]))
         (Some (JStr (u "read"))) Scenario.next_morning [Scenario.row_one])
  = Bulk_400 (u "Invalid ID format") /\
  fst (bulk_status Scenario.cpython
         (Some (JArr [JInfinity false; JStr (u "abc")]))
         (Some (JStr (u "read"))) Scenario.next_morning [Scenario.row_one])
  = Bulk_500.
Proof. split; reflexivity. Qed.

(** With the limit set to 700 digits, 701 digits are refused; without a
    limit they are read. *)
Example int_refuses_too_many_digits :
  int_of_str (mk_interpreter (fun _ => None) 700) (repeat 48%N 701) = None /\
  int_of_str (mk_interpreter (fun _ => None) 0) (repeat 48%N 701) = Some 0%Z /\
  int_of_str (mk_interpreter (fun _ => None) 700) (repeat 48%N 700) = Some 0%Z.
Proof. repeat split; vm_compute; reflexivity. Qed.

(** ** The detail view *)

Lemma select_live_update_where_id (i : Z) (f : Feedback.row -> Feedback.row)
    (t : Feedback.table) :
  (forall r, Feedback.id (f r) = Feedback.id r) ->
  (forall r, Feedback.is_deleted (f r) = Feedback.is_deleted r) ->
  Feedback.select_live_by_id i (Feedback.update_where_id i f t) =
  option_map f (Feedback.select_live_by_id i t).
Proof.
  intros Hid Hdel. unfold Feedback.select_live_by_id, Feedback.update_where_id.
  induction t as [|r t IH]; cbn; [reflexivity|].
  destruct (Z.eqb_spec (Feedback.id r) i) as [E | NE].
  - rewrite Hid, Hdel.
    destruct (Z.eqb_spec (Feedback.id r) i); [|contradiction].
    cbn [andb]. destruct (Feedback.is_deleted r =? 0)%Z; [reflexivity | exact IH].
  - destruct (Z.eqb_spec (Feedback.id r) i); [contradiction|]. exact IH.
Qed.

(** C10.  When the detail page is viewed for a submission that is not
    deleted: if its workflow status is [new], the row is found afterwards
    with the status [read] and with the time of the view as its
    last-updated stamp, its other columns and the rows of the other
    submissions are as they were, and the page shows the row with the
    status [read]; for any other workflow status the table is left as it
    was and the page shows the row. *)
Theorem detail_view_marks_new_as_read
    (feedback_id : Z) (now : datetime) (t : Feedback.table) (row : Feedback.row) :
  Feedback.select_live_by_id feedback_id t = Some row ->
  (Feedback.status row = St_new ->
   (exists row',
      Feedback.select_live_by_id feedback_id
        (snd (feedback_detail feedback_id now t)) = Some row' /\
      Feedback.status row' = St_read /\
      Feedback.updated_at row' = isoformat now /\
      Feedback.same_outside_status row row' /\
      row' = Feedback.set_status St_read (isoformat now) row) /\
   Forall2 (fun r r' =>
              (Feedback.id r <> feedback_id -> r' = r) /\
              (Feedback.id r = feedback_id ->
               Feedback.status r' = St_read /\
               Feedback.updated_at r' = isoformat now /\
               Feedback.same_outside_status r r' /\
               r' = Feedback.set_status St_read (isoformat now) r))
           t (snd (feedback_detail feedback_id now t)) /\
   (exists shown,
      fst (feedback_detail feedback_id now t) = Detail_page shown /\
      Feedback.status shown = St_read /\
      Feedback.updated_at shown = Feedback.updated_at row /\
      Feedback.same_outside_status row shown)) /\
  (Feedback.status row <> St_new ->
   feedback_detail feedback_id now t = (Detail_page row, t)).
Proof.
  intros Hsel. unfold feedback_detail. rewrite Hsel. split.
  - intros ->. cbn [fst snd]. split; [|split].
    + eexists. split.
      * rewrite select_live_update_where_id by reflexivity.
        rewrite Hsel. reflexivity.
      * cbn [Feedback.set_status Feedback.status Feedback.updated_at].
        unfold Feedback.same_outside_status. cbn. now repeat split.
    + clear Hsel. unfold Feedback.update_where_id.
      induction t as [|r t IH]; cbn [map]; constructor; auto.
      destruct (Z.eqb_spec (Feedback.id r) feedback_id); split;
        try congruence; intros _.
      unfold Feedback.same_outside_status. cbn. now repeat split.
    + eexists. split; [reflexivity|].
      unfold Feedback.same_outside_status. cbn. now repeat split.
  - intros Hne. destruct (Feedback.status row); congruence.
Qed.

Lemma detail_view_marks_new_as_read_witness :
  exists row',
    Feedback.select_live_by_id 1
      (snd (feedback_detail 1 Scenario.next_morning
              [Scenario.row_one; Scenario.blank_row])) = Some row' /\
    Feedback.status row' = St_read /\
    Feedback.updated_at row' = isoformat Scenario.next_morning /\
    Feedback.same_outside_status Scenario.row_one row' /\
    row' = Feedback.set_status St_read (isoformat Scenario.next_morning)
             Scenario.row_one.
Proof.
  exact (proj1 (proj1 (detail_view_marks_new_as_read 1 Scenario.next_morning
                         [Scenario.row_one; Scenario.blank_row]
                         Scenario.row_one eq_refl) eq_refl)).
Defined.

(** The row of the example was new and stamped by its insertion; after the
    view it is read and stamped with the time of the view. *)
Example detail_view_changes_the_row :
  Feedback.status Scenario.row_one = St_new /\
  Feedback.updated_at Scenario.row_one = u "2024-01-01 23:00:00" /\
  map (fun r => (Feedback.status r, Feedback.updated_at r))
    (snd (feedback_detail 1 Scenario.next_morning
            [Scenario.row_one; Scenario.blank_row]))
  = [(St_read, u "2024-01-02T10:00:00");
     (St_new, u "2024-01-01 23:00:00")].
Proof. repeat split; reflexivity. Qed.

(** ** The public submission handler *)

Import Public.

(** An accepted submission: the identifier already taken is drawn again,
    the message is trimmed and escaped, and both rows are written. *)
Example submit_accepts_plain_request :
  submit_feedback Scenario.toy_digest None (default_config Scenario.secret)
    Scenario.plain_request Scenario.quiet Scenario.one_submission =
  (Thank_you (u "WDN-555-01") 8,
   mk_store
     [Scenario.salary_row;
      Feedback.mk_row 8 (u "WDN-555-01") (u "complaint")
        (Some (u "Test &lt;message&gt; 1")) None St_new
        (Some (u "sha:0123456789abcdef127.0.0.1")) (Some (u "Mozilla/5.0"))
        Ai_pending None None None None None None 0
        (u "2024-01-02 10:00:00") (u "2024-01-02 10:00:00")]
     8
     [RateLimits.mk_entry (u "sha:0123456789abcdef127.0.0.1") (u "2024-01-02 10:00:00")]
     []).
Proof. vm_compute. reflexivity. Qed.

(** The same request when a step after the commit raises (the worker
    thread cannot be started, say): the answer is the error page, and the
    two rows are stored as for an accepted submission. *)
Example submit_fails_after_the_commit :
  submit_feedback Scenario.toy_digest None (default_config Scenario.secret)
    Scenario.plain_request
    (mk_surroundings Scenario.next_morning [u "WDN-123-45"; u "WDN-555-01"]
       4711 false false false true)
    Scenario.one_submission =
  (Server_error,
   snd (submit_feedback Scenario.toy_digest None (default_config Scenario.secret)
          Scenario.plain_request Scenario.quiet Scenario.one_submission)).
Proof. vm_compute. reflexivity. Qed.

(** C9.  Whatever the request, the clock, the drawn identifiers and the
    raising statements, the two tables change together or not at all.
    When the handler answers with the thank-you page, the tables hold
    exactly one more feedback row and one more rate-limit event, both for
    the fingerprint of the submitter.  With a 400 rejection (a missing
    consent, an invalid category, an empty or too long message, an invalid
    file), with the rate-limited page and when no free identifier is
    drawn, both tables are as they were.  With the error page either both
    tables are as they were, or both hold the new row and the new event,
    and then a step after the commit raised.  The named rejections are
    the answers given in the named situations: no consent; with consent
    and below the rate limit, a category outside the four; then a message
    without text; then one of more than 1000 characters; then a photo
    that the file checks refuse. *)
Theorem submit_records_both_or_neither
    (sha256_hexdigest : str -> str) (magic_from_buffer : option (list N -> str))
    (cfg : config) (req : request) (sur : surroundings) (db : store) :
  match fst (submit_feedback sha256_hexdigest magic_from_buffer cfg req sur db) with
  | Thank_you sid fid =>
      exists row,
        feedback (snd (submit_feedback sha256_hexdigest magic_from_buffer cfg req sur db))
          = feedback db ++ [row] /\
        rate_limits (snd (submit_feedback sha256_hexdigest magic_from_buffer cfg req sur db))
          = rate_limits db ++
              [RateLimits.mk_entry
                 (_hash_ip sha256_hexdigest cfg
                    (match client_host req with Some h => h | None => u "unknown" end))
                 (CURRENT_TIMESTAMP (utcnow sur))] /\
        Feedback.id row = fid /\ Feedback.submission_id row = sid /\
        Feedback.ip_hash row =
          Some (_hash_ip sha256_hexdigest cfg
                  (match client_host req with Some h => h | None => u "unknown" end)) /\
        Feedback.status row = St_new /\ Feedback.ai_status row = Ai_pending
  | Server_error =>
      (feedback (snd (submit_feedback sha256_hexdigest magic_from_buffer cfg req sur db))
         = feedback db /\
       rate_limits (snd (submit_feedback sha256_hexdigest magic_from_buffer cfg req sur db))
         = rate_limits db)
      \/
      (exists row,
         feedback (snd (submit_feedback sha256_hexdigest magic_from_buffer cfg req sur db))
           = feedback db ++ [row] /\
         rate_limits (snd (submit_feedback sha256_hexdigest magic_from_buffer cfg req sur db))
           = rate_limits db ++
               [RateLimits.mk_entry
                  (_hash_ip sha256_hexdigest cfg
                     (match client_host req with Some h => h | None => u "unknown" end))
                  (CURRENT_TIMESTAMP (utcnow sur))] /\
         Feedback.id row = (feedback_seq db + 1)%Z /\
         Feedback.ip_hash row =
           Some (_hash_ip sha256_hexdigest cfg
                   (match client_host req with Some h => h | None => u "unknown" end)) /\
         Feedback.status row = St_new /\ Feedback.ai_status row = Ai_pending /\
         after_commit_raises sur = true)
  | Bad_request _ | Rate_limited | No_answer =>
      feedback (snd (submit_feedback sha256_hexdigest magic_from_buffer cfg req sur db))
        = feedback db /\
      rate_limits (snd (submit_feedback sha256_hexdigest magic_from_buffer cfg req sur db))
        = rate_limits db
  end
  /\
  (truthy (or_empty (form_anonymity_consent req)) = false ->
   fst (submit_feedback sha256_hexdigest magic_from_buffer cfg req sur db)
     = Bad_request (u "Consent required")) /\
  (truthy (or_empty (form_anonymity_consent req)) = true ->
   _check_rate_limit cfg (rate_limits db)
     (_hash_ip sha256_hexdigest cfg
        (match client_host req with Some h => h | None => u "unknown" end))
     (utcnow sur) = true ->
   (str_in (or_empty (form_category req))
      [u "complaint"; u "idea"; u "recommendation"; u "other"] = false ->
    fst (submit_feedback sha256_hexdigest magic_from_buffer cfg req sur db)
      = Bad_request (u "Invalid category")) /\
   (str_in (or_empty (form_category req))
      [u "complaint"; u "idea"; u "recommendation"; u "other"] = true ->
    (forallb isspace (or_empty (form_message req)) = true ->
     fst (submit_feedback sha256_hexdigest magic_from_buffer cfg req sur db)
       = Bad_request (u "Message cannot be empty")) /\
    (forallb isspace (or_empty (form_message req)) = false ->
     (1000 < length (or_empty (form_message req)))%nat ->
     fst (submit_feedback sha256_hexdigest magic_from_buffer cfg req sur db)
       = Bad_request (u "Message too long (max 1000 characters)")) /\
    (forallb isspace (or_empty (form_message req)) = false ->
     (length (or_empty (form_message req)) <= 1000)%nat ->
     forall detail,
       store_photo magic_from_buffer cfg (form_photo req) sur (uploads db)
         = inl detail ->
       fst (submit_feedback sha256_hexdigest magic_from_buffer cfg req sur db)
         = Bad_request detail))).
Proof.
  split.
  { unfold submit_feedback, turned_away, store_submission, record_submission,
      client_ip.
    repeat match goal with
           | |- context [if ?b then _ else _] =>
               lazymatch b with
               | context [str_eqb] => fail
               | _ => destruct b eqn:?
               end
           | |- context [match store_photo ?a ?b ?c ?d ?e with _ => _ end] =>
               destruct (store_photo a b c d e) as [?|[? ?]]
           | |- context [match first_free_id ?a ?b with _ => _ end] =>
               destruct (first_free_id a b)
           end;
      cbn [fst snd feedback rate_limits orb]; auto;
      try (left; repeat split; reflexivity);
      try (right); eexists; unfold RateLimits.insert_default, new_row;
      repeat split; reflexivity. }
  assert (Blank : forall m, forallb isspace m = true ->
            negb (truthy m) || negb (truthy (strip m)) = true).
  { intros m H. apply strip_nil_iff in H. rewrite H. apply orb_true_r. }
  assert (Text : forall m, forallb isspace m = false ->
            negb (truthy m) || negb (truthy (strip m)) = false).
  { intros m H. rewrite (has_text_truthy m H). destruct m; [discriminate | reflexivity]. }
  unfold submit_feedback, turned_away, store_submission, client_ip. split.
  { intros ->. reflexivity. }
  intros -> ->. cbn [negb]. split.
  { intros ->. reflexivity. }
  intros ->. cbn [negb]. split; [|split].
  - intros H. now rewrite (Blank _ H).
  - intros H L. rewrite (Text _ H).
    apply Nat.ltb_lt in L. now rewrite L.
  - intros H L detail Hp. rewrite (Text _ H).
    destruct (Nat.ltb_spec 1000 (length (or_empty (form_message req)))); [lia|].
    now rewrite Hp.
Qed.

(** ** The local heuristics: summary and language *)

(** X1.  The summary the local heuristics store never exceeds 150
    characters, starts as the message starts, and is the message itself
    exactly when the message has at most 150 characters. *)
Theorem fallback_summary_bounded (message : str) :
  (length (fallback_summary message) <= 150)%nat /\
  firstn 147 (fallback_summary message) = firstn 147 message /\
  (fallback_summary message = message <-> (length message <= 150)%nat).
Proof.
  unfold fallback_summary, slice_to.
  destruct (Nat.ltb_spec 150 (length message)) as [L | L].
  - assert (E : length (firstn 147 message) = 147%nat)
      by (rewrite length_firstn; lia).
    split; [|split].
    + rewrite length_app, E. cbn. lia.
    + rewrite firstn_app, E, firstn_firstn, Nat.sub_diag.
      cbn [firstn]. now rewrite app_nil_r.
    + split; [|lia]. intros H. apply (f_equal (@length N)) in H.
      rewrite length_app, E in H. cbn in H. lia.
  - split; [exact L|]. split; [reflexivity|]. tauto.
Qed.

Lemma existsb_in_range (lo hi : N) (s : str) :
  existsb (in_range lo hi) s = true <->
  exists c, In c s /\ (lo <= c <= hi)%N.
Proof.
  rewrite existsb_exists. unfold in_range.
  split; intros (c & Hin & H); exists c; (split; [exact Hin|]).
  - apply andb_prop in H as [H1 H2].
    apply N.leb_le in H1, H2. lia.
  - apply andb_true_intro. split; apply N.leb_le; lia.
Qed.

(** X2.  The language the local heuristics record is decided by the
    scripts that occur in the message, Thai before Cyrillic before Chinese
    before Arabic; it is English exactly when no character of the four
    blocks occurs. *)
Theorem detect_language_by_script (message : str) :
  let has (lo hi : N) := exists c, In c message /\ (lo <= c <= hi)%N in
  (detect_language message = u "th" <-> has 3584 3711)%N /\
  (detect_language message = u "ru" <->
     ~ has 3584 3711 /\ has 1024 1279)%N /\
  (detect_language message = u "zh" <->
     ~ has 3584 3711 /\ ~ has 1024 1279 /\ has 19968 40959)%N /\
  (detect_language message = u "ar" <->
     ~ has 3584 3711 /\ ~ has 1024 1279 /\ ~ has 19968 40959 /\
     has 1536 1791)%N /\
  (detect_language message = u "en" <->
     ~ has 3584 3711 /\ ~ has 1024 1279 /\ ~ has 19968 40959 /\
     ~ has 1536 1791)%N.
Proof.
  intros has. subst has. cbv beta.
  rewrite <- !existsb_in_range. unfold detect_language.
  destruct (existsb (in_range 3584 3711) message),
           (existsb (in_range 1024 1279) message),
           (existsb (in_range 19968 40959) message),
           (existsb (in_range 1536 1791) message);
    repeat split; intros; try discriminate; try tauto; try reflexivity;
    intuition congruence.
Qed.

(** ** The enrichment worker: when the remote service is asked *)

(** X3.  The message of a submission leaves the process only when a key
    for the remote service is configured, the client library could be
    imported, and the row of the submission holds a message with text:
    otherwise the worker never enters the remote path. *)
Theorem remote_call_needs_key_and_text
    (cfg : config) (e : env) (i : Z) (t : Feedback.table) :
  In Ev_remote_call (w_trace (run_process cfg e i t)) ->
  truthy (OPENAI_API_KEY cfg) = true /\
  openai_import_fails e = false /\
  exists r, Feedback.select_by_id i t = Some r /\
            forallb isspace (or_empty (Feedback.message r)) = false.
Proof.
  intros H.
  unfold run_process, _process_connected, try_finally, try_except, bind,
    execute_update, commit, close, fetch_row, raise, ret in H.
  destruct (on_execute (mark_processing e));
    [cbn [fst snd w_feedback w_committed w_trace] in H;
     repeat worker_step; cbn in H; contradiction|].
  destruct (on_commit (mark_processing e));
    [cbn [fst snd w_feedback w_committed w_trace] in H;
     repeat worker_step; cbn in H; contradiction|].
  destruct (fetch_raises e);
    [cbn [fst snd w_feedback w_committed w_trace] in H;
     repeat worker_step; cbn in H; contradiction|].
  cbn [fst snd w_feedback w_committed w_trace] in H.
  rewrite select_update_where_id in H by reflexivity.
  destruct (Feedback.select_by_id i t) as [r|] eqn:Hsel; cbn [option_map] in H.
  2:{ exfalso. repeat worker_step; cbn in H; contradiction. }
  cbn [Feedback.set_ai_status Feedback.message] in H.
  destruct (forallb isspace (or_empty (Feedback.message r))) eqn:Hb.
  { exfalso. apply strip_nil_iff in Hb. rewrite Hb in H. cbn [truthy negb] in H.
    repeat worker_step; cbn in H; contradiction. }
  rewrite (has_text_truthy _ Hb) in H.
  destruct (truthy (OPENAI_API_KEY cfg)) eqn:Hkey.
  2:{ exfalso. unfold _process_fallback, bind, note, execute_update, commit in H.
      repeat worker_step; cbn in H; intuition discriminate. }
  destruct (openai_import_fails e) eqn:Himp.
  { exfalso. unfold _process_with_openai in H. rewrite Himp in H.
    unfold raise in H.
    repeat worker_step; cbn in H; contradiction. }
  split; [reflexivity|]. split; [reflexivity|]. now exists r.
Qed.

Lemma remote_call_needs_key_and_text_witness :
  truthy (OPENAI_API_KEY Scenario.with_key) = true /\
  openai_import_fails calm = false /\
  exists r, Feedback.select_by_id 7 [Scenario.salary_row] = Some r /\
            forallb isspace (or_empty (Feedback.message r)) = false.
Proof.
  apply (remote_call_needs_key_and_text Scenario.with_key calm 7
           [Scenario.salary_row]).
  vm_compute. left. reflexivity.
Defined.

(** ** The enrichment worker: what it stores *)

Lemma allowed_filter_spec (tags : list str) :
  Forall (fun tag => In tag ALLOWED_TAGS)
         (filter (fun tag => str_in tag ALLOWED_TAGS) tags)
  /\ incl (filter (fun tag => str_in tag ALLOWED_TAGS) tags) tags.
Proof.
  split.
  - apply Forall_forall. intros x Hx. apply filter_In in Hx as [_ Hx].
    exact (proj1 (str_in_In _ _) Hx).
  - intros x Hx. now apply filter_In in Hx.
Qed.



(** On that answer the row stores [Salary,Management]: the invented tag
    [Payroll] is gone, the two allowed ones are kept in their order. *)
Example remote_answer_stored :
  map Feedback.tags
    (w_committed (run_process Scenario.with_key Cases.remote_answers 7
                    [Scenario.salary_row]))
  = [Some (u "Salary,Management")].
Proof. vm_compute. reflexivity. Qed.

Lemma select_by_id_none (i : Z) (t : Feedback.table) (r : Feedback.row) :
  Feedback.select_by_id i t = None -> In r t -> Feedback.id r <> i.
Proof.
  unfold Feedback.select_by_id. intros H Hin E.
  apply (find_none _ _ H) in Hin. apply Z.eqb_neq in Hin. contradiction.
Qed.

(** An update keyed by [i] finds nothing to write when no row carries
    [i]. *)
Lemma update_where_id_absent (i : Z) (f : Feedback.row -> Feedback.row)
    (t : Feedback.table) :
  Feedback.select_by_id i t = None -> Feedback.update_where_id i f t = t.
Proof.
  intros H. unfold Feedback.update_where_id.
  rewrite <- (map_id t) at 2. apply map_ext_in. intros r Hin.
  apply (select_by_id_none _ _ _ H) in Hin.
  now apply Z.eqb_neq in Hin as ->.
Qed.

(** The last write of a path decides the status. *)
Ltac last_write :=
  match goal with
  | H : In _ (Feedback.update_where_id _ _ _) |- _ =>
      apply In_update_where_id_hit in H as (? & ->); [|reflexivity|assumption];
      cbn; tauto
  end.

(** X5.  A worker thread that cannot open its connection writes nothing:
    [sqlite3.connect] stands before the [try], the thread ends with the
    exception, and the row stays as it was ([pending] for a fresh
    submission).  Once the connection is open, and as long as the two
    statements that record a failure do not raise themselves, no
    invocation leaves its row [pending] or [processing]: whichever later
    step raises, the row of the submission ends [done] or [failed]. *)
Theorem worker_ends_done_or_failed
    (cfg : config) (e : env) (i : Z) (t : Feedback.table) :
  raises (mark_failed_inner e) = false ->
  raises (mark_failed_outer e) = false ->
  run_thread cfg e true i t = mk_world t t [] /\
  forall r', In r' (w_committed (run_thread cfg e false i t)) ->
             Feedback.id r' = i ->
    Feedback.ai_status r' = Ai_done \/ Feedback.ai_status r' = Ai_failed.
Proof.
  intros Hi Ho. split; [reflexivity|].
  change (run_thread cfg e false i t) with (run_process cfg e i t).
  intros r' Hin Hid.
  apply raises_false in Hi as [Hi1 Hi2]. apply raises_false in Ho as [Ho1 Ho2].
  unfold_worker.
  rewrite ?Hi1, ?Hi2, ?Ho1, ?Ho2 in Hin.
  cbn [fst snd w_feedback w_committed w_trace app] in Hin.
  destruct (on_execute (mark_processing e));
    [cbn [fst snd w_feedback w_committed w_trace app] in Hin; last_write|].
  destruct (on_commit (mark_processing e));
    [cbn [fst snd w_feedback w_committed w_trace app] in Hin; last_write|].
  destruct (fetch_raises e);
    [cbn [fst snd w_feedback w_committed w_trace app] in Hin; last_write|].
  cbn [fst snd w_feedback w_committed w_trace app] in Hin.
  rewrite select_update_where_id in Hin by reflexivity.
  destruct (Feedback.select_by_id i t) as [r|] eqn:Hsel; cbn [option_map] in Hin.
  2:{ cbn [fst snd w_feedback w_committed w_trace app] in Hin.
      rewrite update_where_id_absent in Hin by assumption.
      exfalso. exact (select_by_id_none _ _ _ Hsel Hin Hid). }
  repeat worker_step; rewrite ?Hi1, ?Hi2, ?Ho1, ?Ho2 in Hin;
    cbn [fst snd w_feedback w_committed w_trace app] in Hin;
    repeat worker_step; last_write.
Qed.

Lemma worker_ends_done_or_failed_witness :
  run_thread Scenario.with_key Scenario.heuristic_store_raises true 7
    [Scenario.salary_row] = mk_world [Scenario.salary_row] [Scenario.salary_row] []
  /\ Forall (fun r' => Feedback.id r' = 7%Z ->
               Feedback.ai_status r' = Ai_done \/ Feedback.ai_status r' = Ai_failed)
       (w_committed (run_thread Scenario.with_key
                       Scenario.heuristic_store_raises false 7
                       [Scenario.salary_row])).
Proof.
  destruct (worker_ends_done_or_failed Scenario.with_key
              Scenario.heuristic_store_raises 7 [Scenario.salary_row]
              eq_refl eq_refl) as [Stay End].
  split; [exact Stay|].
  apply Forall_forall. intros r' Hin. now apply End.
Defined.

(** The thread that cannot connect leaves the fresh submission
    [pending]. *)
Example unconnected_thread_leaves_pending :
  map Feedback.ai_status
    (w_committed (run_thread Scenario.with_key calm true 7 [Scenario.salary_row]))
  = [Ai_pending].
Proof. reflexivity. Qed.

(** ** The enrichment worker: running it again *)

Lemma update_where_id_twice (i : Z) (f g : Feedback.row -> Feedback.row)
    (t : Feedback.table) :
  (forall r, Feedback.id (g r) = Feedback.id r) ->
  Feedback.update_where_id i f (Feedback.update_where_id i g t) =
  Feedback.update_where_id i (fun r => f (g r)) t.
Proof.
  intros Hg. unfold Feedback.update_where_id. rewrite map_map.
  apply map_ext. intros r.
  destruct (Z.eqb_spec (Feedback.id r) i) as [E | NE].
  - rewrite Hg. now apply Z.eqb_eq in E as ->.
  - now apply Z.eqb_neq in NE as ->.
Qed.

(** When no statement raises, an invocation is one update of the rows
    carrying [i], by a function that depends on the table only through the
    message of the row fetched, keeps identifier and message, and absorbs
    itself. *)
Lemma quiet_run_is_one_update (cfg : config) (e : env) (i : Z)
    (t : Feedback.table) :
  raises (mark_processing e) = false -> fetch_raises e = false ->
  raises (mark_empty e) = false -> raises (store_remote e) = false ->
  raises (store_heuristic e) = false ->
  raises (mark_failed_inner e) = false ->
  raises (mark_failed_outer e) = false ->
  exists F : Feedback.row -> Feedback.row,
    (forall r, Feedback.id (F r) = Feedback.id r) /\
    (forall r, Feedback.message (F r) = Feedback.message r) /\
    (forall r, F (F r) = F r) /\
    forall t',
      option_map Feedback.message (Feedback.select_by_id i t') =
      option_map Feedback.message (Feedback.select_by_id i t) ->
      w_committed (run_process cfg e i t') = Feedback.update_where_id i F t'.
Proof.
  intros Hp Hf He Hr Hh Hi Ho.
  apply raises_false in Hp as [Hp1 Hp2]. apply raises_false in He as [He1 He2].
  apply raises_false in Hr as [Hr1 Hr2]. apply raises_false in Hh as [Hh1 Hh2].
  apply raises_false in Hi as [Hi1 Hi2]. apply raises_false in Ho as [Ho1 Ho2].
  destruct (Feedback.select_by_id i t) as [r|] eqn:Hsel.
  2:{ exists (fun r => r). repeat split.
      intros t' E. cbn [option_map] in E.
      destruct (Feedback.select_by_id i t') eqn:Hsel'; [discriminate|].
      unfold_worker. rewrite Hp1, Hp2, Hf.
      cbn [fst snd w_feedback w_committed w_trace app].
      rewrite select_update_where_id by reflexivity.
      rewrite Hsel'. cbn [option_map fst snd w_feedback w_committed w_trace].
      rewrite !update_where_id_absent by assumption. reflexivity. }
  cbn [option_map].
  set (message := or_empty (Feedback.message r)).
  assert (Run : forall G : Feedback.row -> Feedback.row,
    (forall x, Feedback.id (G x) = Feedback.id x) ->
    (forall x, Feedback.message (G x) = Feedback.message x) ->
    (forall x, G (G x) = G x) ->
    (forall t' r', Feedback.select_by_id i t' = Some r' ->
       Feedback.message r' = Feedback.message r ->
       w_committed (run_process cfg e i t') = Feedback.update_where_id i G t') ->
    exists F : Feedback.row -> Feedback.row,
      (forall x, Feedback.id (F x) = Feedback.id x) /\
      (forall x, Feedback.message (F x) = Feedback.message x) /\
      (forall x, F (F x) = F x) /\
      forall t',
        option_map Feedback.message (Feedback.select_by_id i t') =
        Some (Feedback.message r) ->
        w_committed (run_process cfg e i t') = Feedback.update_where_id i F t').
  { intros G G1 G2 G3 G4. exists G. repeat split; auto.
    intros t' E. destruct (Feedback.select_by_id i t') as [r'|] eqn:Hsel';
      [|discriminate].
    injection E as E. eauto. }
  destruct (forallb isspace message) eqn:Hb.
  { apply Run with
      (G := fun x => Feedback.set_enrichment (u "unknown") [] [] [] []
                       (Feedback.set_ai_status Ai_processing x));
      try (intros []; reflexivity).
    intros t' r' Hsel' Hm.
    apply strip_nil_iff in Hb.
    unfold_worker. rewrite Hp1, Hp2, Hf.
    cbn [fst snd w_feedback w_committed w_trace app].
    rewrite select_update_where_id by reflexivity.
    rewrite Hsel'. cbn [option_map Feedback.set_ai_status Feedback.message].
    rewrite Hm. fold message. rewrite Hb. cbn [truthy negb].
    rewrite He1, He2. cbn [fst snd w_feedback w_committed w_trace app].
    now rewrite update_where_id_twice by reflexivity. }
  apply has_text_truthy in Hb.
  pose (heuristics := fun x =>
    Feedback.set_enrichment (detect_language message)
      (if str_eqb (detect_language message) (u "en") then message
       else u "[Auto-translation unavailable] " ++ message)
      (u "[Требуется перевод] " ++ message)
      (fallback_summary message) (join (u ",") (fallback_tags message))
      (Feedback.set_ai_status Ai_processing x)).
  destruct (truthy (OPENAI_API_KEY cfg)) eqn:Hkey.
  2:{ apply Run with (G := heuristics); try (intros []; reflexivity).
      intros t' r' Hsel' Hm.
      unfold_worker. rewrite Hp1, Hp2, Hf.
      cbn [fst snd w_feedback w_committed w_trace app].
      rewrite select_update_where_id by reflexivity.
      rewrite Hsel'. cbn [option_map Feedback.set_ai_status Feedback.message].
      rewrite Hm. fold message. rewrite Hb, Hkey, Hh1, Hh2.
      cbn [fst snd w_feedback w_committed w_trace app].
      now rewrite update_where_id_twice by reflexivity. }
  destruct (openai_import_fails e) eqn:Himp.
  { apply Run with
      (G := fun x => Feedback.set_ai_status Ai_failed
                       (Feedback.set_ai_status Ai_processing x));
      try (intros []; reflexivity).
    intros t' r' Hsel' Hm.
    unfold_worker. rewrite Hp1, Hp2, Hf.
    cbn [fst snd w_feedback w_committed w_trace app].
    rewrite select_update_where_id by reflexivity.
    rewrite Hsel'. cbn [option_map Feedback.set_ai_status Feedback.message].
    rewrite Hm. fold message. rewrite Hb, Hkey, Himp, Ho1, Ho2.
    cbn [fst snd w_feedback w_committed w_trace app].
    now rewrite update_where_id_twice by reflexivity. }
  destruct (remote e) as [|result] eqn:Hrem.
  { apply Run with (G := heuristics); try (intros []; reflexivity).
    intros t' r' Hsel' Hm.
    unfold_worker. rewrite Hp1, Hp2, Hf.
    cbn [fst snd w_feedback w_committed w_trace app].
    rewrite select_update_where_id by reflexivity.
    rewrite Hsel'. cbn [option_map Feedback.set_ai_status Feedback.message].
    rewrite Hm. fold message. rewrite Hb, Hkey, Himp, Hrem, Hh1, Hh2.
    cbn [fst snd w_feedback w_committed w_trace app].
    now rewrite update_where_id_twice by reflexivity. }
  apply Run with
    (G := fun x =>
       Feedback.set_enrichment
         (match r_detected_language result with
          | Some l => l | None => u "unknown" end)
         (or_empty (r_translation_en result))
         (or_empty (r_translation_ru result))
         (slice_to 150 (or_empty (r_summary result)))
         (match r_tags result with
          | Some tags =>
              join (u ",") (filter (fun tag => str_in tag ALLOWED_TAGS) tags)
          | None => []
          end)
         (Feedback.set_ai_status Ai_processing x));
    try (intros []; reflexivity).
  intros t' r' Hsel' Hm.
  unfold_worker. rewrite Hp1, Hp2, Hf.
  cbn [fst snd w_feedback w_committed w_trace app].
  rewrite select_update_where_id by reflexivity.
  rewrite Hsel'. cbn [option_map Feedback.set_ai_status Feedback.message].
  rewrite Hm. fold message. rewrite Hb, Hkey, Himp, Hrem, Hr1, Hr2.
  cbn [fst snd w_feedback w_committed w_trace app].
  now rewrite update_where_id_twice by reflexivity.
Qed.

(** X6.  When no statement raises, running the worker a second time for
    the same submission changes nothing: the table it leaves is the table
    the first invocation left, whatever the remote service answered (as
    long as it answers the same). *)
Theorem worker_rerun_changes_nothing
    (cfg : config) (e : env) (i : Z) (t : Feedback.table) :
  raises (mark_processing e) = false -> fetch_raises e = false ->
  raises (mark_empty e) = false -> raises (store_remote e) = false ->
  raises (store_heuristic e) = false ->
  raises (mark_failed_inner e) = false ->
  raises (mark_failed_outer e) = false ->
  w_committed (run_process cfg e i (w_committed (run_process cfg e i t))) =
  w_committed (run_process cfg e i t).
Proof.
  intros Hp Hf He Hr Hh Hi Ho.
  destruct (quiet_run_is_one_update cfg e i t Hp Hf He Hr Hh Hi Ho)
    as (F & Fid & Fmsg & Fabs & Frun).
  rewrite (Frun t eq_refl).
  rewrite Frun.
  - rewrite update_where_id_twice by exact Fid.
    unfold Feedback.update_where_id. apply map_ext. intros r.
    now rewrite Fabs.
  - rewrite select_update_where_id by exact Fid.
    destruct (Feedback.select_by_id i t); cbn [option_map]; [|reflexivity].
    now rewrite Fmsg.
Qed.

Lemma worker_rerun_changes_nothing_witness :
  w_committed (run_process Scenario.with_key Cases.remote_answers 7
    (w_committed (run_process Scenario.with_key Cases.remote_answers 7
                    [Scenario.salary_row]))) =
  w_committed (run_process Scenario.with_key Cases.remote_answers 7
                 [Scenario.salary_row]).
Proof.
  apply (worker_rerun_changes_nothing Scenario.with_key Cases.remote_answers 7
           [Scenario.salary_row]); reflexivity.
Defined.

(** ** The rate limiter within one calendar day *)

Import Traffic.

Lemma same_day_date_part (a b : datetime) :
  same_day a b = true ->
  date_part a = date_part b /\
  date_part (minus_24h a) = date_part (minus_24h b).
Proof.
  unfold same_day. intros H.
  apply andb_prop in H as [H Hd]. apply andb_prop in H as [Hy Hm].
  apply N.eqb_eq in Hy, Hm, Hd.
  destruct a, b; cbn [year month day] in *. subst.
  unfold date_part, minus_24h; cbn [year month day].
  split; [reflexivity|].
  destruct (1 <? day1)%N; [reflexivity|].
  destruct (1 <? month1)%N; reflexivity.
Qed.

(** The date of the day before sorts before the date of the day. *)
Lemma yesterday_before_today (d : datetime) :
  valid d = true ->
  str_cmp (date_part (minus_24h d)) (date_part d) = Lt.
Proof.
  intros V.
  rewrite date_part_cmp by auto using minus_24h_printable, valid_printable.
  apply valid_bounds in V.
  destruct d as [y m dd h mi s us];
    cbn [year month day hour minute second microsecond] in V.
  pose proof (days_in_month_bounds y (m - 1)) as B.
  unfold minus_24h; cbn [year month day].
  destruct (N.ltb_spec 1 dd); [|destruct (N.ltb_spec 1 m)];
    cbn [year month day str_cmp].
  - rewrite !N.compare_refl. now rewrite (proj2 (N.compare_lt_iff _ _)) by lia.
  - rewrite N.compare_refl. now rewrite (proj2 (N.compare_lt_iff _ _)) by lia.
  - now rewrite (proj2 (N.compare_lt_iff _ _)) by lia.
Qed.

(** A stored text that carries the date of the check is above the cutoff
    of the check. *)
Lemma today_is_above_cutoff (now : datetime) (stored : str) :
  valid now = true ->
  starts_with (date_part now) stored = true ->
  str_ltb (isoformat (minus_24h now)) stored = true.
Proof.
  intros V H. apply starts_with_spec in H as (b & ->).
  unfold str_ltb, isoformat.
  rewrite str_cmp_app by now rewrite !date_part_length.
  now rewrite yesterday_before_today.
Qed.

Lemma filter_length_mono {A} (p q : A -> bool) (l : list A) :
  (forall x, In x l -> p x = true -> q x = true) ->
  (length (filter p l) <= length (filter q l))%nat.
Proof.
  induction l as [|x l IH]; intros H; cbn [filter]; [lia|].
  assert (IH' := IH (fun y Hy => H y (or_intror Hy))).
  destruct (p x) eqn:Px.
  - rewrite (H x (or_introl eq_refl) Px). cbn [length]. lia.
  - destruct (q x); cbn [length]; lia.
Qed.

Lemma recorded_on_app (today : datetime) (h : str) (a b : RateLimits.table) :
  recorded_on today h (a ++ b) =
  (recorded_on today h a + recorded_on today h b)%Z.
Proof.
  unfold recorded_on. rewrite filter_app, length_app. lia.
Qed.

Lemma recorded_on_nonneg (today : datetime) (h : str) (t : RateLimits.table) :
  (0 <= recorded_on today h t)%Z.
Proof. unfold recorded_on. lia. Qed.

(** Every event recorded on the calendar day of the check is counted. *)
Lemma within_day_all_counted
    (cfg : config) (t : RateLimits.table) (h : str) (now : datetime) :
  valid now = true ->
  (RATE_LIMIT_MAX cfg <= recorded_on now h t)%Z ->
  _check_rate_limit cfg t h now = false.
Proof.
  intros V H. unfold _check_rate_limit. apply Z.ltb_ge.
  etransitivity; [exact H|].
  unfold recorded_on, RateLimits.count_since.
  apply inj_le, filter_length_mono.
  intros e _ He. apply andb_prop in He as [-> He].
  now rewrite (today_is_above_cutoff _ _ V He).
Qed.

(** X7.  The check counts every event recorded on the calendar day (UTC)
    of the check: once the table holds the ceiling of such events for a
    fingerprint, the check answers "reject", and so does it with any
    further events in the table. *)
Theorem rate_limit_holds_within_day
    (cfg : config) (t more : RateLimits.table) (h : str) (now : datetime) :
  valid now = true ->
  (RATE_LIMIT_MAX cfg <= recorded_on now h t)%Z ->
  _check_rate_limit cfg t h now = false /\
  _check_rate_limit cfg (t ++ more) h now = false.
Proof.
  intros V H. split; [now apply within_day_all_counted|].
  apply within_day_all_counted; [exact V|].
  rewrite recorded_on_app. pose proof (recorded_on_nonneg now h more). lia.
Qed.

Lemma rate_limit_holds_within_day_witness :
  _check_rate_limit (default_config Scenario.secret)
    Scenario.ten_evening_events Scenario.fingerprint
    (mk_datetime 2024 1 1 23 59 59 0) = false /\
  _check_rate_limit (default_config Scenario.secret)
    (Scenario.ten_evening_events ++ Scenario.mixed_events) Scenario.fingerprint
    (mk_datetime 2024 1 1 23 59 59 0) = false.
Proof.
  apply (rate_limit_holds_within_day (default_config Scenario.secret)
           Scenario.ten_evening_events Scenario.mixed_events
           Scenario.fingerprint (mk_datetime 2024 1 1 23 59 59 0)).
  - reflexivity.
  - vm_compute. discriminate.
Defined.

(** A sweep on the day leaves the events of the day. *)
Lemma sweep_keeps_today (today now : datetime) (h : str)
    (db_raises : bool) (t : RateLimits.table) :
  valid now = true -> same_day now today = true ->
  recorded_on today h (fst (cleanup_old_rate_limits db_raises t now)) =
  recorded_on today h t.
Proof.
  intros V S. apply same_day_date_part in S as [S _].
  unfold cleanup_old_rate_limits.
  destruct db_raises; [reflexivity|].
  unfold recorded_on, RateLimits.delete_before; cbn [fst].
  f_equal. f_equal.
  induction t as [|e t IH]; [reflexivity|].
  cbn [filter].
  destruct (str_eqb (RateLimits.ip_hash e) h
            && starts_with (date_part today) (RateLimits.submitted_at e)) eqn:E.
  - apply andb_prop in E as [E1 E2]. rewrite <- S in E2.
    pose proof (today_is_above_cutoff _ _ V E2) as A.
    assert (B : str_ltb (RateLimits.submitted_at e)
                  (isoformat (minus_24h now)) = false).
    { unfold str_ltb in *. rewrite str_cmp_antisym.
      destruct (str_cmp (isoformat (minus_24h now)) (RateLimits.submitted_at e));
        try discriminate. reflexivity. }
    rewrite B. cbn [negb filter]. rewrite E1, S in *. rewrite E2.
    cbn [andb]. now rewrite IH.
  - destruct (negb _); cbn [filter]; [rewrite E|]; exact IH.
Qed.

(** A request that passes the checks is below the ceiling for the day. *)
Lemma passed_check_is_below
    (sha256_hexdigest : str -> str) (cfg : config)
    (req : request) (sur : surroundings) (db : store) (today : datetime) :
  valid (utcnow sur) = true -> same_day (utcnow sur) today = true ->
  turned_away sha256_hexdigest cfg req sur db = None ->
  (recorded_on today (_hash_ip sha256_hexdigest cfg (client_ip req))
     (rate_limits db) < RATE_LIMIT_MAX cfg)%Z.
Proof.
  intros V S. pose proof (same_day_date_part _ _ S) as [Sd _].
  unfold turned_away.
  destruct (negb (truthy (or_empty (form_anonymity_consent req))));
    [discriminate|].
  destruct (_check_rate_limit cfg (rate_limits db) _ (utcnow sur)) eqn:Hc;
    cbn [negb]; [|discriminate].
  intros _.
  destruct (Z.ltb_spec
              (recorded_on today (_hash_ip sha256_hexdigest cfg (client_ip req))
                 (rate_limits db))
              (RATE_LIMIT_MAX cfg)) as [L | L]; [exact L|].
  exfalso.
  assert (L' : (RATE_LIMIT_MAX cfg
                <= recorded_on (utcnow sur)
                     (_hash_ip sha256_hexdigest cfg (client_ip req))
                     (rate_limits db))%Z).
  { unfold recorded_on in *. now rewrite Sd. }
  rewrite (within_day_all_counted cfg _ _ _ V L') in Hc.
  discriminate.
Qed.

(** A request that is turned away is not accepted. *)
Lemma turned_away_not_accepted
    (sha256_hexdigest : str -> str) (cfg : config)
    (req : request) (sur : surroundings) (db : store) (answer : response) :
  turned_away sha256_hexdigest cfg req sur db = Some answer ->
  accepted answer = false.
Proof.
  unfold turned_away.
  repeat match goal with
         | |- context [if ?b then _ else _] => destruct b
         end; intros H; inversion H; reflexivity.
Qed.

(** What the second part of the handler does to the events of the day. *)
Lemma stored_and_today
    (sha256_hexdigest : str -> str) (magic_from_buffer : option (list N -> str))
    (cfg : config) (req : request) (sur : surroundings) (db : store)
    (today : datetime) (h : str) :
  valid (utcnow sur) = true -> same_day (utcnow sur) today = true ->
  let out := store_submission sha256_hexdigest magic_from_buffer cfg req sur db in
  (recorded_on today h (rate_limits db)
     <= recorded_on today h (rate_limits (snd out)))%Z /\
  (accepted (fst out) = true ->
   _hash_ip sha256_hexdigest cfg (client_ip req) = h ->
   recorded_on today h (rate_limits (snd out)) =
   (recorded_on today h (rate_limits db) + 1)%Z).
Proof.
  intros V S out. subst out.
  pose proof (same_day_date_part _ _ S) as [Sd _].
  unfold store_submission.
  destruct (store_photo _ _ _ _ _) as [?|[pp files]];
    [cbn; split; [lia | discriminate]|].
  destruct (first_free_id _ _);
    [|cbn; split; [lia | discriminate]].
  unfold record_submission.
  destruct (insert_feedback_raises sur); [cbn; split; [lia | discriminate]|].
  destruct (insert_rate_limit_raises sur); [cbn; split; [lia | discriminate]|].
  destruct (commit_raises sur); [cbn; split; [lia | discriminate]|].
  assert (Mono : (recorded_on today h (rate_limits db)
                  <= recorded_on today h
                       (RateLimits.insert_default
                          (_hash_ip sha256_hexdigest cfg (client_ip req))
                          (utcnow sur) (rate_limits db)))%Z).
  { unfold RateLimits.insert_default. rewrite recorded_on_app.
    pose proof (recorded_on_nonneg today h
                  [RateLimits.mk_entry
                     (_hash_ip sha256_hexdigest cfg (client_ip req))
                     (CURRENT_TIMESTAMP (utcnow sur))]). lia. }
  destruct (after_commit_raises sur);
    cbn [fst snd rate_limits accepted]; (split; [exact Mono|]);
    [discriminate|].
  intros _ Hh. rewrite Hh.
  unfold RateLimits.insert_default. rewrite recorded_on_app.
  assert (One : recorded_on today h
                  [RateLimits.mk_entry h (CURRENT_TIMESTAMP (utcnow sur))] = 1%Z).
  { unfold recorded_on. cbn [filter RateLimits.ip_hash RateLimits.submitted_at].
    rewrite (proj2 (str_eqb_eq h h) eq_refl). cbn [andb].
    unfold CURRENT_TIMESTAMP. rewrite <- Sd.
    now rewrite (proj2 (starts_with_spec _ _) (ex_intro _ _ eq_refl)). }
  now rewrite One.
Qed.

(** What one request handled without a pause does to the events of the
    day. *)
Lemma submission_and_today
    (sha256_hexdigest : str -> str) (magic_from_buffer : option (list N -> str))
    (cfg : config) (req : request) (sur : surroundings) (db : store)
    (today : datetime) (h : str) :
  valid (utcnow sur) = true -> same_day (utcnow sur) today = true ->
  let out := submit_feedback sha256_hexdigest magic_from_buffer cfg req sur db in
  (recorded_on today h (rate_limits db)
     <= recorded_on today h (rate_limits (snd out)))%Z /\
  (accepted (fst out) = true ->
   _hash_ip sha256_hexdigest cfg (client_ip req) = h ->
   (recorded_on today h (rate_limits db) < RATE_LIMIT_MAX cfg)%Z /\
   recorded_on today h (rate_limits (snd out)) =
   (recorded_on today h (rate_limits db) + 1)%Z).
Proof.
  intros V S out. subst out. unfold submit_feedback.
  destruct (turned_away sha256_hexdigest cfg req sur db) as [answer|] eqn:T.
  - cbn [fst snd]. split; [lia|].
    now rewrite (turned_away_not_accepted _ _ _ _ _ _ T).
  - pose proof (stored_and_today sha256_hexdigest magic_from_buffer cfg req sur
                  db today h V S) as [Mono Acc].
    cbv zeta in Mono, Acc.
    split; [exact Mono|]. intros A Hh. split; [|now apply Acc].
    rewrite <- Hh. now apply (passed_check_is_below _ _ _ sur).
Qed.

(** Handled one after the other, the requests of an address are accepted
    at most up to the ceiling within one calendar day. *)
Lemma ceiling_in_sequence
    (sha256_hexdigest : str -> str) (magic_from_buffer : option (list N -> str))
    (cfg : config) (events : list event) (db : store)
    (today : datetime) (host : str) :
  Forall (fun ev => valid (clock ev) = true /\
                    same_day (clock ev) today = true) events ->
  (Z.of_nat (length (filter (accepted_from host)
     (fst (serve sha256_hexdigest magic_from_buffer cfg events db))))
   <= Z.max 0 (RATE_LIMIT_MAX cfg))%Z.
Proof.
  intros Hday.
  set (h := _hash_ip sha256_hexdigest cfg host).
  enough (G : (Z.of_nat (length (filter (accepted_from host)
                 (fst (serve sha256_hexdigest magic_from_buffer cfg events db))))
               + recorded_on today h (rate_limits db)
               <= Z.max (recorded_on today h (rate_limits db))
                        (RATE_LIMIT_MAX cfg))%Z).
  { pose proof (recorded_on_nonneg today h (rate_limits db)). lia. }
  revert db. induction Hday as [|ev events [V S] _ IH]; intros db.
  - cbn. lia.
  - destruct ev as [req sur | db_raises now]; cbn [clock] in V, S;
      cbn [serve fst snd].
    + pose proof (submission_and_today sha256_hexdigest magic_from_buffer cfg
                    req sur db today h V S) as [Mono Acc].
      cbv zeta in Mono, Acc.
      specialize (IH (snd (submit_feedback sha256_hexdigest magic_from_buffer
                             cfg req sur db))).
      cbn [filter]. unfold accepted_from at 1. cbn [fst snd].
      destruct (accepted (fst (submit_feedback sha256_hexdigest
                                 magic_from_buffer cfg req sur db))) eqn:A;
        cbn [andb]; [|lia].
      destruct (str_eqb (client_ip req) host) eqn:E; [|lia].
      apply str_eqb_eq in E.
      destruct (Acc eq_refl) as [Below Next]; [now rewrite E|].
      cbn [length]. lia.
    + specialize (IH (mk_store (feedback db) (feedback_seq db)
                        (fst (cleanup_old_rate_limits db_raises
                                (rate_limits db) now)) (uploads db))).
      cbn [rate_limits] in IH.
      now rewrite (sweep_keeps_today today now h db_raises _ V S) in IH.
Qed.

Lemma waiting_without (host : str) (l : list request) (k : nat) (req : request) :
  nth_error l k = Some req ->
  (Z.of_nat (length (filter (fun r => str_eqb (client_ip r) host)
                       (firstn k l ++ skipn (S k) l)))
   + (if str_eqb (client_ip req) host then 1 else 0)
   = Z.of_nat (length (filter (fun r => str_eqb (client_ip r) host) l)))%Z.
Proof.
  intros H.
  rewrite <- (firstn_skipn_middle _ _ H) at 3.
  rewrite !filter_app, !length_app. cbn [filter].
  destruct (str_eqb (client_ip req) host); cbn [length]; lia.
Qed.

(** One step of the server: what the address may still have accepted
    does not grow, but for an upload of its own that starts to wait. *)
Lemma act_keeps_budget
    (sha256_hexdigest : str -> str) (magic_from_buffer : option (list N -> str))
    (cfg : config) (today : datetime) (host : str) (st : step) (s : situation) :
  valid (moment st) = true -> same_day (moment st) today = true ->
  (accepted_so_far host (act sha256_hexdigest magic_from_buffer cfg st s)
   + Z.max 0 (RATE_LIMIT_MAX cfg
              - recorded_on today (_hash_ip sha256_hexdigest cfg host)
                  (rate_limits (held (act sha256_hexdigest magic_from_buffer
                                        cfg st s))))
   + waiting_from host (act sha256_hexdigest magic_from_buffer cfg st s)
   <= accepted_so_far host s
      + Z.max 0 (RATE_LIMIT_MAX cfg
                 - recorded_on today (_hash_ip sha256_hexdigest cfg host)
                     (rate_limits (held s)))
      + waiting_from host s
      + (if upload_from host st then 1 else 0))%Z.
Proof.
  intros V S. set (h := _hash_ip sha256_hexdigest cfg host).
  unfold accepted_so_far, waiting_from.
  destruct st as [req sur | k sur | db_raises now]; cbn [moment] in V, S;
    cbn [act upload_from].
  - destruct (turned_away sha256_hexdigest cfg req sur (held s))
      as [answer|] eqn:T.
    + cbn [held waiting answers]. rewrite filter_app, length_app.
      cbn [filter]. unfold accepted_from at 2. cbn [fst snd].
      rewrite (turned_away_not_accepted _ _ _ _ _ _ T). cbn [andb length].
      destruct (has_upload req && str_eqb (client_ip req) host); lia.
    + destruct (has_upload req).
      * cbn [held waiting answers andb]. rewrite filter_app, length_app.
        cbn [filter].
        destruct (str_eqb (client_ip req) host); cbn [length]; lia.
      * cbn [held waiting answers andb].
        pose proof (stored_and_today sha256_hexdigest magic_from_buffer cfg
                      req sur (held s) today h V S) as [Mono Acc].
        cbv zeta in Mono, Acc.
        rewrite filter_app, length_app. cbn [filter].
        unfold accepted_from at 2. cbn [fst snd].
        destruct (accepted (fst (store_submission sha256_hexdigest
                                   magic_from_buffer cfg req sur (held s))))
          eqn:A; cbn [andb length]; [|lia].
        destruct (str_eqb (client_ip req) host) eqn:E; cbn [length]; [|lia].
        apply str_eqb_eq in E.
        pose proof (passed_check_is_below sha256_hexdigest cfg req sur
                      (held s) today V S T) as Below.
        rewrite E in Below. fold h in Below.
        assert (Next := Acc eq_refl ltac:(now rewrite E)).
        lia.
  - destruct (nth_error (waiting s) k) as [req|] eqn:Hk; [|lia].
    cbn [held waiting answers].
    pose proof (stored_and_today sha256_hexdigest magic_from_buffer cfg
                  req sur (held s) today h V S) as [Mono _].
    cbv zeta in Mono.
    pose proof (waiting_without host _ _ _ Hk) as W.
    rewrite filter_app, length_app. cbn [filter].
    unfold accepted_from at 2. cbn [fst snd].
    destruct (accepted (fst (store_submission sha256_hexdigest
                               magic_from_buffer cfg req sur (held s))));
      cbn [andb length]; [|destruct (str_eqb (client_ip req) host); lia].
    destruct (str_eqb (client_ip req) host); cbn [length]; lia.
  - cbn [held waiting answers rate_limits].
    rewrite (sweep_keeps_today today now h db_raises _ V S). lia.
Qed.

Lemma run_keeps_budget
    (sha256_hexdigest : str -> str) (magic_from_buffer : option (list N -> str))
    (cfg : config) (today : datetime) (host : str) (steps : list step) :
  Forall (fun st => valid (moment st) = true /\
                    same_day (moment st) today = true) steps ->
  forall s,
  (accepted_so_far host (run sha256_hexdigest magic_from_buffer cfg steps s)
   <= accepted_so_far host s
      + Z.max 0 (RATE_LIMIT_MAX cfg
                 - recorded_on today (_hash_ip sha256_hexdigest cfg host)
                     (rate_limits (held s)))
      + waiting_from host s
      + Z.of_nat (length (filter (upload_from host) steps)))%Z.
Proof.
  induction 1 as [|st steps [V S] _ IH]; intros s.
  - cbn [run fold_left filter length]. unfold waiting_from. lia.
  - unfold run in *. cbn [fold_left filter].
    specialize (IH (act sha256_hexdigest magic_from_buffer cfg st s)).
    pose proof (act_keeps_budget sha256_hexdigest magic_from_buffer cfg today
                  host st s V S) as B.
    destruct (upload_from host st); cbn [length]; lia.
Qed.

(** X8.  Within one calendar day (UTC), whatever other addresses send and
    whenever the sweep runs: handled one after the other, the requests of
    an address are accepted at most up to the ceiling; when requests
    overlap (a request with an upload waits for its bytes between the
    check and the INSERTs, and the others go on meanwhile), an address
    has at most the ceiling plus the number of its requests with an
    upload accepted, so an address that sends no upload stays within the
    ceiling; and overlapping uploads do pass the ceiling. *)
Theorem daily_ceiling
    (sha256_hexdigest : str -> str) (magic_from_buffer : option (list N -> str))
    (cfg : config) (db : store) (today : datetime) (host : str) :
  (forall events,
     Forall (fun ev => valid (clock ev) = true /\
                       same_day (clock ev) today = true) events ->
     (Z.of_nat (length (filter (accepted_from host)
        (fst (serve sha256_hexdigest magic_from_buffer cfg events db))))
      <= Z.max 0 (RATE_LIMIT_MAX cfg))%Z) /\
  (forall steps,
     Forall (fun st => valid (moment st) = true /\
                       same_day (moment st) today = true) steps ->
     (Z.of_nat (length (filter (accepted_from host)
        (answers (run sha256_hexdigest magic_from_buffer cfg steps
                    (mk_situation db [] [])))))
      <= Z.max 0 (RATE_LIMIT_MAX cfg)
         + Z.of_nat (length (filter (upload_from host) steps)))%Z /\
     (filter (upload_from host) steps = [] ->
      (Z.of_nat (length (filter (accepted_from host)
         (answers (run sha256_hexdigest magic_from_buffer cfg steps
                     (mk_situation db [] [])))))
       <= Z.max 0 (RATE_LIMIT_MAX cfg))%Z)) /\
  (Z.max 0 (RATE_LIMIT_MAX (mk_config Scenario.secret 1 (5 * 1024 * 1024) []))
   < Z.of_nat (length (filter (accepted_from (u "127.0.0.1"))
       (answers (run Scenario.toy_digest None
                   (mk_config Scenario.secret 1 (5 * 1024 * 1024) [])
                   Cases.two_uploads_overlap
                   (mk_situation Scenario.one_submission [] []))))))%Z.
Proof.
  split; [|split].
  - intros events. apply ceiling_in_sequence.
  - intros steps Hday.
    pose proof (run_keeps_budget sha256_hexdigest magic_from_buffer cfg today
                  host steps Hday (mk_situation db [] [])) as B.
    unfold accepted_so_far, waiting_from in B.
    cbn [held waiting answers filter length] in B.
    pose proof (recorded_on_nonneg today
                  (_hash_ip sha256_hexdigest cfg host) (rate_limits db)).
    split; [lia|]. intros E. rewrite E in B. cbn [length] in B. lia.
  - vm_compute. reflexivity.
Qed.

Lemma daily_ceiling_witness :
  (Z.of_nat (length (filter (accepted_from (u "127.0.0.1"))
     (fst (serve Scenario.toy_digest None (default_config Scenario.secret)
             Cases.busy_morning Scenario.one_submission))))
   <= Z.max 0 10)%Z /\
  (Z.of_nat (length (filter (accepted_from (u "127.0.0.1"))
     (answers (run Scenario.toy_digest None (default_config Scenario.secret)
                 Cases.two_uploads_overlap
                 (mk_situation Scenario.one_submission [] [])))))
   <= Z.max 0 10 + 2)%Z.
Proof.
  split.
  - apply (proj1 (daily_ceiling Scenario.toy_digest None
                    (default_config Scenario.secret) Scenario.one_submission
                    (mk_datetime 2024 1 2 0 0 0 0) (u "127.0.0.1"))
             Cases.busy_morning).
    repeat (constructor; [split; reflexivity|]). constructor.
  - apply (proj1 (proj1 (proj2 (daily_ceiling Scenario.toy_digest None
                    (default_config Scenario.secret) Scenario.one_submission
                    (mk_datetime 2024 1 2 0 0 0 0) (u "127.0.0.1")))
             Cases.two_uploads_overlap
             ltac:(repeat (constructor; [split; reflexivity|]); constructor))).
Defined.

(** On that morning the first ten requests are accepted and the eleventh
    is turned away. *)
Example busy_morning_answers :
  map (fun rr => accepted (snd rr))
    (fst (serve Scenario.toy_digest None (default_config Scenario.secret)
            Cases.busy_morning Scenario.one_submission)) =
  [true; true; true; true; true; true; true; true; true; true; false].
Proof. vm_compute. reflexivity. Qed.

(** With a ceiling of one: two requests with an upload arrive before
    either has its bytes, both pass the check, and both are accepted;
    handled one after the other, the second is turned away. *)
Example overlapping_uploads_pass_the_ceiling :
  map (fun rr => accepted (snd rr))
    (answers (run Scenario.toy_digest None
                (mk_config Scenario.secret 1 (5 * 1024 * 1024) [])
                Cases.two_uploads_overlap
                (mk_situation Scenario.one_submission [] [])))
  = [true; true] /\
  map (fun rr => accepted (snd rr))
    (answers (run Scenario.toy_digest None
                (mk_config Scenario.secret 1 (5 * 1024 * 1024) [])
                Cases.two_uploads_in_turn
                (mk_situation Scenario.one_submission [] [])))
  = [true; false].
Proof. split; vm_compute; reflexivity. Qed.

(** ** The sweep and the statistics *)

Lemma str_ltb_asym (a b : str) : str_ltb a b = true -> str_ltb b a = false.
Proof.
  unfold str_ltb. rewrite (str_cmp_antisym a b).
  now destruct (str_cmp a b).
Qed.

Lemma filter_none {A} (p : A -> bool) (l : list A) :
  (forall x, In x l -> p x = false) -> filter p l = [].
Proof.
  induction l as [|x l IH]; intros H; cbn [filter]; [reflexivity|].
  rewrite (H x (or_introl eq_refl)). apply IH. intros y Hy. apply H. now right.
Qed.

Lemma filter_again {A} (p : A -> bool) (l : list A) :
  filter p (filter p l) = filter p l.
Proof.
  induction l as [|x l IH]; [reflexivity|]. cbn [filter].
  destruct (p x) eqn:E; [cbn [filter]; rewrite E; f_equal|]; exact IH.
Qed.

(** X9.  The sweep returns the number of rows it removed; it removes no
    row that is not below its cutoff; run again at the same instant it
    finds nothing left to remove; and when its statement raises, it
    reports 0 and the table is as it was. *)
Theorem sweep_accounting (t : RateLimits.table) (now : datetime) :
  let cutoff := isoformat (minus_24h now) in
  let swept := fst (cleanup_old_rate_limits false t now) in
  (snd (cleanup_old_rate_limits false t now)
   = Z.of_nat (length t) - Z.of_nat (length swept))%Z /\
  (forall e, In e swept <->
             In e t /\ str_ltb (RateLimits.submitted_at e) cutoff = false) /\
  cleanup_old_rate_limits false swept now = (swept, 0%Z) /\
  cleanup_old_rate_limits true t now = (t, 0%Z).
Proof.
  cbv zeta. unfold cleanup_old_rate_limits, RateLimits.delete_before.
  cbn [fst snd].
  split; [|split; [|split]].
  - pose proof (filter_length
                  (fun e => str_ltb (RateLimits.submitted_at e)
                              (isoformat (minus_24h now))) t). lia.
  - intros e. rewrite filter_In, negb_true_iff. tauto.
  - f_equal.
    + apply filter_again.
    + rewrite filter_none; [reflexivity|].
      intros e He. apply filter_In in He as [_ He].
      now apply negb_true_iff in He.
  - reflexivity.
Qed.

Import Stats.

Lemma minus_1h_printable (d : datetime) :
  valid d = true -> printable (minus_1h d).
Proof.
  intros V. pose proof (minus_24h_printable d V) as P.
  apply valid_bounds in V. unfold minus_1h, printable in *.
  pose proof (days_in_month_bounds (year d) (month d)) as B.
  destruct (N.leb_spec 1 (hour d));
    cbn [year month day hour minute second microsecond]; lia.
Qed.

Lemma count_after_mono (t : RateLimits.table) (c1 c2 : str) :
  str_cmp c1 c2 <> Gt -> (count_after t c2 <= count_after t c1)%Z.
Proof.
  intros H. unfold count_after. apply inj_le, filter_length_mono.
  intros e _. unfold str_ltb.
  destruct (str_cmp c2 (RateLimits.submitted_at e)) eqn:E2; try discriminate.
  intros _. destruct (str_cmp c1 c2) eqn:E1; [| |contradiction].
  - apply str_cmp_Eq in E1. subst. now rewrite E2.
  - now rewrite (str_cmp_lt_trans _ _ _ E1 E2).
Qed.

(** X10.  The statistics are consistent: the events after the 24-hour
    cutoff and the events before it are different rows of the table, and,
    as long as the second reading of the clock is less than 23 hours after
    the first, the events of the last hour are among those of the last 24
    hours. *)
Theorem rate_limit_stats_consistent
    (t : RateLimits.table) (now_1 now_2 : datetime) (st : rate_limit_stats) :
  valid now_1 = true -> valid now_2 = true ->
  dt_leb (minus_24h now_2) (minus_1h now_1) = true ->
  get_rate_limit_stats false t now_1 now_2 = Some st ->
  (0 <= last_hour st <= last_24h st)%Z /\
  (0 <= old_entries st)%Z /\
  (last_24h st + old_entries st <= total st)%Z.
Proof.
  intros V1 V2 Le [= <-]. cbn [last_hour last_24h old_entries total].
  split; [split|split].
  - unfold count_after. lia.
  - apply count_after_mono.
    rewrite isoformat_cmp by auto using minus_24h_printable, minus_1h_printable.
    now apply dt_leb_not_Gt.
  - unfold count_before. lia.
  - unfold count_after, count_before.
    pose proof (filter_length
                  (fun e => str_ltb (isoformat (minus_24h now_2))
                              (RateLimits.submitted_at e)) t) as S.
    pose proof (filter_length_mono
                  (fun e => str_ltb (RateLimits.submitted_at e)
                              (isoformat (minus_24h now_2)))
                  (fun e => negb (str_ltb (isoformat (minus_24h now_2))
                                    (RateLimits.submitted_at e))) t) as L.
    cbv beta in S, L.
    assert (L' := L ltac:(intros e _ H; now rewrite (str_ltb_asym _ _ H))).
    lia.
Qed.

Lemma rate_limit_stats_consistent_witness :
  (0 <= 0 <= 1)%Z /\ (0 <= 3)%Z /\ (1 + 3 <= 4)%Z.
Proof.
  apply (rate_limit_stats_consistent Scenario.mixed_events
           (mk_datetime 2024 1 2 10 30 0 0) (mk_datetime 2024 1 2 10 30 0 5)
           (mk_stats 4 0 1 3)); reflexivity.
Defined.

(** X11.  Right after a sweep that did not raise, statistics taken with
    the cutoff of the sweep report no old entries. *)
Theorem sweep_leaves_no_old_entries
    (t : RateLimits.table) (now_1 now : datetime) :
  option_map old_entries
    (get_rate_limit_stats false (fst (cleanup_old_rate_limits false t now))
       now_1 now) = Some 0%Z.
Proof.
  unfold get_rate_limit_stats, cleanup_old_rate_limits,
    RateLimits.delete_before, count_before.
  cbn [fst option_map old_entries].
  rewrite filter_none; [reflexivity|].
  intros e He. apply filter_In in He as [_ He].
  now apply negb_true_iff in He.
Qed.

(** ** Sessions and roles *)

Import Access.

(** What a valid session rests on. *)
Lemma get_current_user_inr
    (jwt_decode : str -> decoded) (cookie : option str)
    (users : Users.table) (user : Users.user) :
  get_current_user jwt_decode cookie users = inr user ->
  exists token sub,
    cookie = Some token /\ token <> [] /\
    jwt_decode token = Payload (Some sub) /\
    id_of_text sub = Some (Users.id user) /\
    find (fun x => (Users.id x =? Users.id user)%Z
                   && (Users.is_active x =? 1)%Z) users = Some user.
Proof.
  unfold get_current_user.
  destruct cookie as [[|c token]|]; try discriminate.
  destruct (jwt_decode (c :: token)) as [| |[sub|]] eqn:D; try discriminate.
  unfold select_active.
  destruct (id_of_text sub) as [i|] eqn:I; [|discriminate].
  destruct (find _ users) as [x|] eqn:F; [|discriminate].
  intros [= ->]. pose proof (find_some _ _ F) as [_ Hp].
  apply andb_prop in Hp as [Hid _]. apply Z.eqb_eq in Hid. subst i.
  exists (c :: token), sub. repeat split; auto; discriminate.
Qed.

(** X12.  A request passes [get_current_user] only with a token in the
    cookie that decodes to a subject, and the user it is given is a row
    of [users] that is active and carries the identifier the subject
    names. *)
Theorem session_is_an_active_user
    (jwt_decode : str -> decoded) (cookie : option str)
    (users : Users.table) (user : Users.user) :
  get_current_user jwt_decode cookie users = inr user ->
  exists token sub,
    cookie = Some token /\ token <> [] /\
    jwt_decode token = Payload (Some sub) /\
    id_of_text sub = Some (Users.id user) /\
    In user users /\ Users.is_active user = 1%Z.
Proof.
  intros H.
  destruct (get_current_user_inr _ _ _ _ H) as (token & sub & C & NE & D & I & F).
  apply find_some in F as [Hin Hp]. apply andb_prop in Hp as [_ Ha].
  apply Z.eqb_eq in Ha.
  exists token, sub. auto 10.
Qed.

Lemma session_is_an_active_user_witness :
  exists token sub,
    Some (u "tok:1") = Some token /\ token <> [] /\
    Cases.toy_decode token = Payload (Some sub) /\
    id_of_text sub = Some 1%Z /\
    In Cases.admin_user (UserAdmin.users Cases.two_users) /\
    Users.is_active Cases.admin_user = 1%Z.
Proof.
  apply (session_is_an_active_user Cases.toy_decode (Some (u "tok:1"))
           (UserAdmin.users Cases.two_users) Cases.admin_user).
  reflexivity.
Defined.

(** X13.  [require_role] lets a request through exactly when its session
    is valid and the role of its user is among the roles named; a valid
    session with another role is answered 403, and a request without a
    valid session gets the redirect of [get_current_user]. *)
Theorem require_role_checks_the_role
    (jwt_decode : str -> decoded) (roles : list str) (cookie : option str)
    (users : Users.table) :
  match require_role jwt_decode roles cookie users with
  | inr user =>
      get_current_user jwt_decode cookie users = inr user /\
      In (Users.role user) roles
  | inl (Forbidden _) =>
      exists user, get_current_user jwt_decode cookie users = inr user /\
                   ~ In (Users.role user) roles
  | inl (To_login r) =>
      get_current_user jwt_decode cookie users = inl r
  end.
Proof.
  unfold require_role.
  destruct (get_current_user jwt_decode cookie users) as [r | user];
    [reflexivity|].
  destruct (str_in (Users.role user) roles) eqn:E; cbn [negb].
  - split; [reflexivity|]. now apply str_in_In.
  - exists user. split; [reflexivity|].
    intros H. apply str_in_In in H. congruence.
Qed.

(** ** Logging in *)

Lemma digits_value_app (acc : Z) (a b : str) :
  digits_value acc (a ++ b) =
  match digits_value acc a with
  | Some v => digits_value v b
  | None => None
  end.
Proof.
  revert acc; induction a as [|c a IH]; intros acc; cbn [app digits_value];
    [reflexivity|].
  destruct ((48 <=? c) && (c <=? 57))%N; [apply IH | reflexivity].
Qed.

Lemma digits_value_digit (acc : Z) (d : N) :
  (d < 10)%N ->
  digits_value acc [(48 + d)%N] = Some (acc * 10 + Z.of_N d)%Z.
Proof.
  intros H. cbn [digits_value].
  rewrite (proj2 (N.leb_le 48 (48 + d))) by lia.
  rewrite (proj2 (N.leb_le (48 + d) 57)) by lia.
  cbn [andb]. do 2 f_equal. lia.
Qed.

Lemma digits_value_decimal (fuel : nat) (n : N) :
  (N.to_nat n < fuel)%nat ->
  digits_value 0 (decimal fuel n) = Some (Z.of_N n).
Proof.
  revert n; induction fuel as [|fuel IH]; intros n H; [lia|].
  cbn [decimal]. destruct (N.ltb_spec n 10) as [L | L].
  - now rewrite digits_value_digit.
  - rewrite digits_value_app, IH.
    + rewrite digits_value_digit by (apply N.mod_lt; lia).
      f_equal. rewrite (N.div_mod n 10) at 3 by lia. lia.
    + assert (n / 10 < n)%N by (apply N.div_lt; lia). lia.
Qed.

Lemma decimal_not_empty (fuel : nat) (n : N) : decimal (S fuel) n <> [].
Proof.
  cbn [decimal]. destruct (n <? 10)%N; [discriminate|].
  intros H. apply app_eq_nil in H as [_ H]. discriminate.
Qed.

(** The text of an identifier that is not negative is read back as the
    identifier. *)
Lemma id_of_text_str_of_int (z : Z) :
  (0 <= z)%Z -> id_of_text (str_of_int z) = Some z.
Proof.
  intros H. unfold id_of_text, str_of_int.
  destruct z as [|p|p]; [reflexivity| |lia].
  pose proof (decimal_not_empty (Z.to_nat (Z.pos p)) (Z.to_N (Z.pos p))) as NE.
  destruct (decimal (S (Z.to_nat (Z.pos p))) (Z.to_N (Z.pos p))) eqn:E;
    [contradiction|].
  rewrite <- E, digits_value_decimal by lia.
  f_equal.
Qed.

Lemma find_unique_id (i : Z) (users : Users.table) (user : Users.user) :
  NoDup (map Users.id users) -> In user users ->
  Users.id user = i -> Users.is_active user = 1%Z ->
  find (fun x => (Users.id x =? i)%Z && (Users.is_active x =? 1)%Z) users
  = Some user.
Proof.
  intros ND Hin Hid Ha.
  induction users as [|x users IH]; [contradiction|].
  cbn [map] in ND. inversion ND as [|? ? Hx ND']; subst.
  cbn [find]. destruct Hin as [-> | Hin].
  - now rewrite Z.eqb_refl, Ha.
  - destruct (Z.eqb_spec (Users.id x) (Users.id user)) as [E | NE];
      cbn [andb]; [|now apply IH].
    exfalso. apply Hx. rewrite E. now apply in_map.
Qed.

(** X14.  The token handed out by a successful login opens a session for
    the user who logged in: presented back in the cookie it passes
    [get_current_user], which returns the active user with the email of
    the login.  (The token library decodes what it encoded, identifiers
    are unique and not negative.) *)
Theorem login_opens_session
    (jwt_decode : str -> decoded) (jwt_encode : str -> str -> datetime -> str)
    (verify_password : str -> str -> bool)
    (plus_minutes : datetime -> Z -> datetime) (expire_minutes : Z)
    (email password : str) (now : datetime) (users : Users.table)
    (token : str) :
  (forall sub role exp,
     jwt_encode sub role exp <> [] /\
     jwt_decode (jwt_encode sub role exp) = Payload (Some sub)) ->
  NoDup (map Users.id users) ->
  Forall (fun x => (0 <= Users.id x)%Z) users ->
  login_submit jwt_encode verify_password plus_minutes expire_minutes
    email password now users = Logged_in token ->
  exists user,
    get_current_user jwt_decode (Some token) users = inr user /\
    Users.email user = email /\
    verify_password password (Users.password_hash user) = true.
Proof.
  intros Hjwt ND Pos. unfold login_submit, create_access_token.
  destruct (find _ users) as [user|] eqn:F; [|discriminate].
  destruct (verify_password password (Users.password_hash user)) eqn:Vp;
    [|discriminate].
  cbn [negb]. intros [= <-].
  apply find_some in F as [Hin Hp]. apply andb_prop in Hp as [He Ha].
  apply str_eqb_eq in He. apply Z.eqb_eq in Ha.
  exists user. split; [|auto].
  destruct (Hjwt (str_of_int (Users.id user)) (Users.role user)
              (plus_minutes now expire_minutes)) as [NE Dec].
  unfold get_current_user.
  destruct (jwt_encode _ _ _) as [|c tok] eqn:E; [contradiction|].
  rewrite Dec. unfold select_active.
  rewrite id_of_text_str_of_int
    by (rewrite Forall_forall in Pos; now apply Pos).
  now rewrite (find_unique_id _ _ user ND Hin eq_refl Ha).
Qed.

Lemma login_opens_session_witness :
  exists user,
    get_current_user Cases.toy_decode (Some (u "tok:2"))
      (UserAdmin.users Cases.two_users) = inr user /\
    Users.email user = u "founder@weeden.com" /\
    Cases.toy_verify (u "founder1234567!") (Users.password_hash user) = true.
Proof.
  apply (login_opens_session Cases.toy_decode Cases.toy_encode
           Cases.toy_verify Cases.toy_plus_minutes 480
           (u "founder@weeden.com") (u "founder1234567!")
           Scenario.next_morning (UserAdmin.users Cases.two_users)
           (u "tok:2")).
  - intros sub role exp. split; [discriminate | reflexivity].
  - vm_compute. repeat constructor; cbn; intuition discriminate.
  - repeat constructor; discriminate.
  - reflexivity.
Defined.

(** ** User management *)

Lemma require_role_inr (jwt_decode : str -> decoded) (roles : list str)
    (cookie : option str) (users : Users.table) (user : Users.user) :
  require_role jwt_decode roles cookie users = inr user ->
  get_current_user jwt_decode cookie users = inr user /\
  In (Users.role user) roles.
Proof.
  unfold require_role.
  destruct (get_current_user jwt_decode cookie users) as [r | x];
    [discriminate|].
  destruct (str_in (Users.role x) roles) eqn:E; cbn [negb]; [|discriminate].
  intros [= ->]. split; [reflexivity|]. now apply str_in_In.
Qed.

Lemma find_nothing {A} (p : A -> bool) (l : list A) :
  (forall x, In x l -> p x = false) -> find p l = None.
Proof.
  induction l as [|x l IH]; intros H; cbn [find]; [reflexivity|].
  rewrite (H x (or_introl eq_refl)). apply IH. intros y Hy. apply H. now right.
Qed.



Lemma session_kept (jwt_decode : str -> decoded) (cookie : option str)
    (users users' : Users.table) (user : Users.user) :
  get_current_user jwt_decode cookie users = inr user ->
  find (fun x => (Users.id x =? Users.id user)%Z
                 && (Users.is_active x =? 1)%Z) users'
  = find (fun x => (Users.id x =? Users.id user)%Z
                   && (Users.is_active x =? 1)%Z) users ->
  get_current_user jwt_decode cookie users' =
  get_current_user jwt_decode cookie users.
Proof.
  intros H F. rewrite H.
  destruct (get_current_user_inr _ _ _ _ H) as (token & sub & -> & NE & D & I & Fu).
  unfold get_current_user. destruct token as [|c token]; [contradiction|].
  rewrite D. unfold select_active. now rewrite I, F, Fu.
Qed.

Lemma find_app_found {A} (p : A -> bool) (l more : list A) (x : A) :
  find p l = Some x -> find p (l ++ more) = Some x.
Proof.
  induction l as [|y l IH]; cbn [find app]; [discriminate|].
  destruct (p y); auto.
Qed.

Lemma find_map_untouched {A} (p : A -> bool) (g : A -> A) (l : list A) :
  (forall x, p (g x) = p x) -> (forall x, p x = true -> g x = x) ->
  find p (map g l) = find p l.
Proof.
  intros H1 H2. induction l as [|y l IH]; cbn [find map]; [reflexivity|].
  rewrite H1. destruct (p y) eqn:E; [now rewrite H2 | exact IH].
Qed.

Lemma find_filter_untouched {A} (p q : A -> bool) (l : list A) :
  (forall x, p x = true -> q x = true) ->
  find p (filter q l) = find p l.
Proof.
  intros H. induction l as [|y l IH]; cbn [find filter]; [reflexivity|].
  destruct (q y) eqn:Q; cbn [find].
  - destruct (p y); [reflexivity | exact IH].
  - destruct (p y) eqn:P; [|exact IH].
    rewrite (H y P) in Q. discriminate.
Qed.

(** X16.  None of the three user-management calls can take the session
    of the administrator who makes it: whatever the call answers, the
    cookie of the request resolves afterwards as it did before. *)
Theorem acting_admin_keeps_session
    (jwt_decode : str -> decoded) (hash_password : str -> str)
    (email name password role : option str) (user_id : Z)
    (cookie : option str) (db : UserAdmin.user_store) :
  let session_after (out : UserAdmin.response * UserAdmin.user_store) :=
    get_current_user jwt_decode cookie (UserAdmin.users (snd out)) in
  session_after (UserAdmin.create_user jwt_decode hash_password
                   email name password role cookie db)
    = get_current_user jwt_decode cookie (UserAdmin.users db) /\
  session_after (UserAdmin.toggle_user jwt_decode user_id cookie db)
    = get_current_user jwt_decode cookie (UserAdmin.users db) /\
  session_after (UserAdmin.delete_user jwt_decode user_id cookie db)
    = get_current_user jwt_decode cookie (UserAdmin.users db).
Proof.
  cbv zeta.
  unfold UserAdmin.create_user, UserAdmin.toggle_user, UserAdmin.delete_user.
  destruct (require_role jwt_decode [u "admin"] cookie (UserAdmin.users db))
    as [d | user] eqn:R; [now repeat split|].
  apply require_role_inr in R as [S _].
  pose proof (get_current_user_inr _ _ _ _ S) as (_ & _ & _ & _ & _ & _ & F).
  split; [|split].
  - repeat match goal with
           | |- context [if ?b then _ else _] => destruct b
           end; cbn [snd UserAdmin.users]; try reflexivity.
    apply (session_kept _ _ _ _ user S).
    rewrite F. now apply find_app_found.
  - destruct (find (fun x => (Users.id x =? user_id)%Z) (UserAdmin.users db))
      as [target|]; [|reflexivity].
    destruct (Z.eqb_spec user_id (Users.id user)) as [E | NE]; [reflexivity|].
    cbn [snd UserAdmin.users].
    apply (session_kept _ _ _ _ user S).
    apply find_map_untouched.
    + intros x. destruct (Z.eqb_spec (Users.id x) user_id) as [Ex | Nx];
        [|reflexivity].
      cbn [UserAdmin.set_is_active Users.id].
      assert (Hx : (Users.id x =? Users.id user)%Z = false)
        by (apply Z.eqb_neq; congruence).
      now rewrite Hx.
    + intros x Hx. apply andb_prop in Hx as [Hx _]. apply Z.eqb_eq in Hx.
      destruct (Z.eqb_spec (Users.id x) user_id); [congruence | reflexivity].
  - destruct (Z.eqb_spec user_id (Users.id user)) as [E | NE]; [reflexivity|].
    cbn [snd UserAdmin.users].
    apply (session_kept _ _ _ _ user S).
    apply find_filter_untouched.
    intros x Hx. apply andb_prop in Hx as [Hx _]. apply Z.eqb_eq in Hx.
    apply negb_true_iff, Z.eqb_neq. congruence.
Qed.

(** X17.  Only an active administrator changes anything through the
    guarded calls: when [create_user], [toggle_user], [delete_user] or
    [soft_delete] leaves its table other than it found it, the cookie of
    the request resolves to an active user whose role is [admin]. *)
Theorem guarded_writes_need_admin
    (jwt_decode : str -> decoded) (hash_password : str -> str)
    (email name password role : option str) (user_id feedback_id : Z)
    (cookie : option str) (db : UserAdmin.user_store)
    (now : datetime) (t : Feedback.table) :
  snd (UserAdmin.create_user jwt_decode hash_password
         email name password role cookie db) <> db
  \/ snd (UserAdmin.toggle_user jwt_decode user_id cookie db) <> db
  \/ snd (UserAdmin.delete_user jwt_decode user_id cookie db) <> db
  \/ snd (Triage.soft_delete jwt_decode feedback_id cookie
            (UserAdmin.users db) now t) <> t ->
  exists user,
    get_current_user jwt_decode cookie (UserAdmin.users db) = inr user /\
    Users.role user = u "admin" /\ Users.is_active user = 1%Z.
Proof.
  unfold UserAdmin.create_user, UserAdmin.toggle_user, UserAdmin.delete_user,
    Triage.soft_delete.
  destruct (require_role jwt_decode [u "admin"] cookie (UserAdmin.users db))
    as [d | user] eqn:R.
  - cbn [snd]. tauto.
  - intros _. apply require_role_inr in R as [S Hrole].
    exists user. split; [exact S|]. split.
    + destruct Hrole as [E | []]. now symmetry.
    + apply get_current_user_inr in S as (_ & _ & _ & _ & _ & _ & F).
      apply find_some in F as [_ Hp]. apply andb_prop in Hp as [_ Ha].
      now apply Z.eqb_eq in Ha.
Qed.

Lemma guarded_writes_need_admin_witness :
  exists user,
    get_current_user Cases.toy_decode (Some (u "tok:1"))
      (UserAdmin.users Cases.two_users) = inr user /\
    Users.role user = u "admin" /\ Users.is_active user = 1%Z.
Proof.
  apply (guarded_writes_need_admin Cases.toy_decode Cases.toy_hash
           None None None None 2 7 (Some (u "tok:1")) Cases.two_users
           Scenario.next_morning [Scenario.salary_row]).
  right. right. left. vm_compute. discriminate.
Defined.

(** The founder asks for the same deletion and nothing changes. *)
Example founder_cannot_delete_users :
  UserAdmin.delete_user Cases.toy_decode 1 (Some (u "tok:2")) Cases.two_users
  = (UserAdmin.Denied
       (Forbidden (u "Access denied. Required role: admin")),
     Cases.two_users).
Proof. reflexivity. Qed.

(** ** User management and the constraints of the table *)

Import UsersSchema.

Lemma deletion_keeps_distinct {A} (column : Users.user -> A)
    (keep : Users.user -> bool) (users : Users.table) :
  NoDup (map column users) -> NoDup (map column (filter keep users)).
Proof.
  induction users as [|x users IH]; cbn [map filter]; [auto|].
  intros ND. inversion ND as [|? ? Hx ND']; subst.
  destruct (keep x); cbn [map]; [|auto].
  constructor; [|auto].
  intros H. apply Hx. apply in_map_iff in H as (y & E & Hy).
  apply filter_In in Hy as [Hy _]. rewrite <- E. now apply in_map.
Qed.

Lemma NoDup_snoc {A} (l : list A) (x : A) :
  NoDup l -> ~ In x l -> NoDup (l ++ [x]).
Proof.
  intros ND Hx. induction ND as [|y l Hy ND IH]; cbn [app].
  - constructor; [tauto | constructor].
  - constructor.
    + rewrite in_app_iff. cbn [In]. intros [H | [-> | []]]; [tauto|].
      apply Hx. now left.
    + apply IH. intros H. apply Hx. now right.
Qed.

(** X18.  The three user-management calls keep the constraints of the
    [users] table: emails stay unique, identifiers stay unique and below
    the AUTOINCREMENT counter, and every role is one of the three the
    CHECK admits.  So the INSERT of [create_user] never runs into the
    UNIQUE or the CHECK constraint. *)
Theorem user_management_keeps_constraints
    (jwt_decode : str -> decoded) (hash_password : str -> str)
    (email name password role : option str) (user_id : Z)
    (cookie : option str) (db : UserAdmin.user_store) :
  constraints_hold db ->
  constraints_hold (snd (UserAdmin.create_user jwt_decode hash_password
                           email name password role cookie db)) /\
  constraints_hold (snd (UserAdmin.toggle_user jwt_decode user_id cookie db)) /\
  constraints_hold (snd (UserAdmin.delete_user jwt_decode user_id cookie db)).
Proof.
  intros (He & Hi & Hr).
  assert (C : constraints_hold db) by (repeat split; assumption).
  unfold UserAdmin.create_user, UserAdmin.toggle_user, UserAdmin.delete_user.
  destruct (require_role jwt_decode [u "admin"] cookie (UserAdmin.users db))
    as [d | user]; [now repeat split|].
  split; [|split].
  - destruct (negb (truthy (strip (or_empty email))) || _ || _
              || negb (str_in (or_empty role) [u "admin"; u "founder"; u "ceo"]))
      eqn:Bad; [exact C|].
    destruct (length (or_empty password) <? 10)%nat; [exact C|].
    destruct (existsb _ (UserAdmin.users db)) eqn:Taken; [exact C|].
    cbn [snd]. unfold constraints_hold.
    cbn [UserAdmin.users UserAdmin.users_seq].
    rewrite !map_app. cbn [map Users.email Users.id].
    split; [|split].
    + apply NoDup_snoc; [exact He|].
      intros H. apply in_map_iff in H as (x & E & Hx).
      assert (T : existsb
                    (fun y => str_eqb (Users.email y) (strip (or_empty email)))
                    (UserAdmin.users db) = true).
      { apply existsb_exists. exists x. split; [exact Hx|].
        now apply str_eqb_eq. }
      congruence.
    + apply NoDup_snoc; [exact Hi|].
      intros H. apply in_map_iff in H as (x & E & Hx).
      rewrite Forall_forall in Hr. apply Hr in Hx as [Hx _]. lia.
    + apply Forall_app. split.
      * eapply Forall_impl; [|exact Hr]. cbv beta. intros x [Hx Hrole].
        split; [lia | exact Hrole].
      * constructor; [|constructor]. cbn [Users.id Users.role].
        split; [lia|].
        apply orb_false_elim in Bad as [_ Bad].
        apply negb_false_iff in Bad. now apply str_in_In.
  - destruct (find (fun x => (Users.id x =? user_id)%Z) (UserAdmin.users db))
      as [target|]; [|exact C].
    destruct (user_id =? Users.id user)%Z; [exact C|].
    cbn [snd]. unfold constraints_hold.
    cbn [UserAdmin.users UserAdmin.users_seq].
    rewrite !map_map.
    rewrite (map_ext _ Users.email)
      by (intros x; now destruct (Users.id x =? user_id)%Z).
    rewrite (map_ext _ Users.id)
      by (intros x; now destruct (Users.id x =? user_id)%Z).
    split; [exact He|]. split; [exact Hi|].
    apply Forall_map. eapply Forall_impl; [|exact Hr]. cbv beta.
    intros x. now destruct (Users.id x =? user_id)%Z.
  - destruct (user_id =? Users.id user)%Z; [exact C|].
    cbn [snd]. unfold constraints_hold.
    cbn [UserAdmin.users UserAdmin.users_seq].
    split; [now apply deletion_keeps_distinct|].
    split; [now apply deletion_keeps_distinct|].
    apply Forall_forall. intros x Hx. apply filter_In in Hx as [Hx _].
    rewrite Forall_forall in Hr. now apply Hr.
Qed.

Lemma user_management_keeps_constraints_witness :
  constraints_hold
    (snd (UserAdmin.create_user Cases.toy_decode Cases.toy_hash
            (Some (u " ceo@weeden.com ")) (Some (u "CEO"))
            (Some (u "ceo1234567!")) (Some (u "ceo"))
            (Some (u "tok:1")) Cases.two_users)) /\
  constraints_hold
    (snd (UserAdmin.toggle_user Cases.toy_decode 2 (Some (u "tok:1"))
            Cases.two_users)) /\
  constraints_hold
    (snd (UserAdmin.delete_user Cases.toy_decode 2 (Some (u "tok:1"))
            Cases.two_users)).
Proof.
  apply (user_management_keeps_constraints Cases.toy_decode Cases.toy_hash
           (Some (u " ceo@weeden.com ")) (Some (u "CEO"))
           (Some (u "ceo1234567!")) (Some (u "ceo")) 2
           (Some (u "tok:1")) Cases.two_users).
  unfold constraints_hold. vm_compute.
  repeat split; repeat constructor; cbn; intuition (discriminate || lia).
Defined.

(** The administrator adds the CEO: the email is stripped, the password
    is stored hashed, the account is active. *)
Example admin_creates_ceo :
  UserAdmin.create_user Cases.toy_decode Cases.toy_hash
    (Some (u " ceo@weeden.com ")) (Some (u "CEO"))
    (Some (u "ceo1234567!")) (Some (u "ceo"))
    (Some (u "tok:1")) Cases.two_users
  = (UserAdmin.Done,
     UserAdmin.mk_user_store
       [Cases.admin_user; Cases.founder_user;
        Users.mk_user 3 (u "ceo@weeden.com") (u "hash:ceo1234567!")
          (u "CEO") (u "ceo") 1] 3).
Proof. reflexivity. Qed.

(** ** Triage of one row *)

Lemma In_skipn_keep {A} (n : nat) (l : list A) (x : A) :
  In x (skipn n l) -> In x l.
Proof.
  revert l; induction n as [|n IH]; intros [|y l]; cbn [skipn]; auto.
  intros H. right. now apply IH.
Qed.

(** A row that LIMIT and OFFSET let through is a row of the selection. *)
Lemma shown_rows_are_selected {A} (limit offset : Z) (rows : list A) (x : A) :
  In x (Inbox.limit_offset limit offset rows) -> In x rows.
Proof.
  unfold Inbox.limit_offset. intros H.
  destruct (limit <? 0)%Z; [|apply In_firstn in H];
    now apply In_skipn_keep in H.
Qed.

(** X19.  Setting the status of one submission is the bulk call on the
    list of that one identifier: both leave the same table, and one
    succeeds exactly when the other does. *)
Theorem update_status_is_bulk_of_one
    (itp : interpreter) (feedback_id : Z) (new_status : option json)
    (now : datetime) (t : Feedback.table) :
  snd (Triage.update_status feedback_id new_status now t)
  = snd (bulk_status itp (Some (JArr [JInt feedback_id])) new_status now t) /\
  (fst (Triage.update_status feedback_id new_status now t) = Triage.Done <->
   fst (bulk_status itp (Some (JArr [JInt feedback_id])) new_status now t)
   = Bulk_ok 1).
Proof.
  unfold Triage.update_status, bulk_status.
  destruct (status_of_json new_status) as [st|];
    [|split; [reflexivity | split; discriminate]].
  cbn [falsy iterate int_all py_int forallb].
  rewrite andb_true_r.
  destruct (fits_int64 feedback_id);
    [|split; [reflexivity | split; discriminate]].
  cbn [fst snd length]. split; [|tauto].
  unfold Feedback.update_where_id, Feedback.update_where_id_in.
  apply map_ext. intros r. cbn [existsb]. now rewrite orb_false_r.
Qed.

(** X20.  A submission the administrator has deleted is kept in the
    table but no longer shown: the detail view answers 404 and changes
    nothing, and no page of the inbox lists it, whatever the filters. *)
Theorem soft_deleted_row_is_hidden
    (jwt_decode : str -> decoded) (feedback_id : Z) (cookie : option str)
    (users : Users.table) (now later : datetime) (t : Feedback.table) :
  fst (Triage.soft_delete jwt_decode feedback_id cookie users now t)
    = Triage.Done ->
  let t' := snd (Triage.soft_delete jwt_decode feedback_id cookie users now t) in
  feedback_detail feedback_id later t' = (Detail_404, t') /\
  map Feedback.id t' = map Feedback.id t /\
  map Feedback.message t' = map Feedback.message t /\
  forall like order f page per_page p,
    (forall l, Permutation (order l) l) ->
    Inbox.admin_inbox like order f page per_page t' = Some p ->
    Forall (fun r => Feedback.id r <> feedback_id) (Inbox.feedbacks p).
Proof.
  unfold Triage.soft_delete.
  destruct (Access.require_role _ _ _ _) as [d | user]; [discriminate|].
  destruct (fits_int64 feedback_id); [|discriminate].
  cbn [fst snd]. intros _.
  assert (Gone : forall r,
            In r (Feedback.update_where_id feedback_id
                    (Triage.set_is_deleted (isoformat now)) t) ->
            Feedback.id r = feedback_id -> Feedback.is_deleted r = 1%Z).
  { intros r Hin Hid.
    apply In_update_where_id_hit in Hin as (x & ->); auto. }
  split; [|split; [|split]].
  - unfold feedback_detail, Feedback.select_live_by_id.
    rewrite find_nothing; [reflexivity|].
    intros r Hin. destruct (Z.eqb_spec (Feedback.id r) feedback_id) as [E | NE];
      [|reflexivity].
    now rewrite (Gone r Hin E).
  - unfold Feedback.update_where_id. rewrite map_map. apply map_ext.
    intros r. now destruct (Feedback.id r =? feedback_id)%Z.
  - unfold Feedback.update_where_id. rewrite map_map. apply map_ext.
    intros r. now destruct (Feedback.id r =? feedback_id)%Z.
  - intros like order f page per_page p Hperm.
    unfold Inbox.admin_inbox.
    destruct (negb _); [discriminate|].
    destruct (per_page =? 0)%Z; [discriminate|].
    intros [= <-]. cbn [Inbox.feedbacks].
    apply Forall_forall. intros r Hr E.
    assert (Hin : In r (order (filter (Inbox.where_clause like f)
                    (Feedback.update_where_id feedback_id
                       (Triage.set_is_deleted (isoformat now)) t)))).
    { now apply shown_rows_are_selected in Hr. }
    apply (Permutation_in _ (Hperm _)) in Hin.
    apply filter_In in Hin as [Hin Hw].
    unfold Inbox.where_clause in Hw.
    repeat (apply andb_prop in Hw as [Hw _]).
    unfold Inbox.live in Hw. rewrite (Gone r Hin E) in Hw. discriminate.
Qed.

Lemma soft_deleted_row_is_hidden_witness :
  let t' := snd (Triage.soft_delete Cases.toy_decode 2 (Some (u "tok:1"))
                   (UserAdmin.users Cases.two_users) Scenario.next_morning
                   Cases.five_rows) in
  feedback_detail 2 Scenario.next_morning t' = (Detail_404, t') /\
  map Feedback.id t' = map Feedback.id Cases.five_rows /\
  map Feedback.message t' = map Feedback.message Cases.five_rows /\
  forall like order f page per_page p,
    (forall l, Permutation (order l) l) ->
    Inbox.admin_inbox like order f page per_page t' = Some p ->
    Forall (fun r => Feedback.id r <> 2%Z) (Inbox.feedbacks p).
Proof.
  apply (soft_deleted_row_is_hidden Cases.toy_decode 2 (Some (u "tok:1"))
           (UserAdmin.users Cases.two_users) Scenario.next_morning
           Scenario.next_morning Cases.five_rows).
  reflexivity.
Defined.

(** ** The inbox *)

Import Inbox.

Lemma status_is_one (r : Feedback.row) :
  (Nat.b2n (has_status St_new r) + Nat.b2n (has_status St_read r)
   + Nat.b2n (has_status St_resolved r) <= 1)%nat.
Proof. unfold has_status. destruct (Feedback.status r); vm_compute; lia. Qed.

(** X21.  Every row a page of the inbox shows is a row of the table that
    is not deleted and meets each filter that was given; a page shows at
    most [per_page] rows when that number is positive; and the counters
    above the list count live rows only, those of the three statuses
    among the total. *)
Theorem inbox_shows_matching_live_rows
    (like : str -> str -> bool) (order : Feedback.table -> Feedback.table)
    (f : filters) (page per_page : Z) (t : Feedback.table) (p : inbox_page) :
  (forall l, Permutation (order l) l) ->
  admin_inbox like order f page per_page t = Some p ->
  Forall (fun r => In r t /\ Feedback.is_deleted r = 0%Z /\
                   where_clause like f r = true) (feedbacks p) /\
  ((0 < per_page)%Z -> (Z.of_nat (length (feedbacks p)) <= per_page)%Z) /\
  (total p <= s_total (stats p))%Z /\
  (s_new (stats p) + s_read (stats p) + s_resolved (stats p)
   <= s_total (stats p))%Z.
Proof.
  intros Hperm. unfold admin_inbox.
  destruct (negb _); [discriminate|].
  destruct (per_page =? 0)%Z; [discriminate|].
  intros [= <-]. cbn [feedbacks total stats s_total s_new s_read s_resolved].
  split; [|split; [|split]].
  - apply Forall_forall. intros r Hr.
    apply shown_rows_are_selected in Hr.
    apply (Permutation_in _ (Hperm _)) in Hr.
    apply filter_In in Hr as [Hin Hw]. split; [exact Hin|].
    split; [|exact Hw].
    unfold where_clause in Hw. repeat (apply andb_prop in Hw as [Hw _]).
    now apply Z.eqb_eq in Hw.
  - intros Pos. unfold limit_offset.
    destruct (Z.ltb_spec per_page 0); [lia|].
    rewrite length_firstn. lia.
  - unfold count_rows. apply inj_le, filter_length_mono.
    intros r _ Hw. unfold where_clause in Hw.
    now repeat (apply andb_prop in Hw as [Hw _]).
  - unfold count_rows.
    enough (G : (length (filter (fun r => has_status St_new r && live r) t)
                 + length (filter (fun r => has_status St_read r && live r) t)
                 + length (filter (fun r => has_status St_resolved r && live r) t)
                 <= length (filter live t))%nat) by lia.
    induction t as [|r t IH]; cbn [filter]; [cbn; lia|].
    pose proof (status_is_one r) as X.
    destruct (live r); rewrite ?andb_false_r, ?andb_true_r; [|exact IH].
    destruct (has_status St_new r), (has_status St_read r),
      (has_status St_resolved r); cbn [length Nat.b2n] in *; lia.
Qed.

Lemma inbox_shows_matching_live_rows_witness :
  Forall (fun r => In r Cases.five_rows /\ Feedback.is_deleted r = 0%Z /\
                   where_clause Cases.toy_like Cases.no_filters r = true)
    [Scenario.row_with 2 (Some (u "The store is dirty"));
     Scenario.row_with 1 (Some (u "The salary is too low"))] /\
  ((0 < 2)%Z -> (2 <= 2)%Z) /\ (4 <= 4)%Z /\ (4 + 0 + 0 <= 4)%Z.
Proof.
  apply (inbox_shows_matching_live_rows Cases.toy_like Cases.toy_order
           Cases.no_filters 2 2 Cases.five_rows
           (mk_inbox_page
              [Scenario.row_with 2 (Some (u "The store is dirty"));
               Scenario.row_with 1 (Some (u "The salary is too low"))]
              4 2 (mk_inbox_stats 4 4 0 0))).
  - intros l. symmetry. apply Permutation_rev.
  - reflexivity.
Defined.

Lemma fits_int64_small (z : Z) :
  (0 <= z < 2 ^ 63)%Z -> fits_int64 z = true.
Proof.
  intros H. unfold fits_int64. apply andb_true_intro.
  split; [apply Z.leb_le | apply Z.ltb_lt]; lia.
Qed.

(** X22.  Paging through the inbox shows every selected row once and in
    order: with a positive page size, the row at position [k] of the
    selection is found on page [k / per_page + 1] at position
    [k mod per_page], that page is not beyond [total_pages], and a page
    beyond [total_pages] is empty. *)
Theorem inbox_pages_cover
    (like : str -> str -> bool) (order : Feedback.table -> Feedback.table)
    (f : filters) (per_page : Z) (t : Feedback.table) :
  (forall l, Permutation (order l) l) ->
  (0 < per_page < 2 ^ 63)%Z ->
  (Z.of_nat (length t) < 2 ^ 63)%Z ->
  let selection := order (filter (where_clause like f) t) in
  (forall k, (k < length selection)%nat ->
     exists p,
       admin_inbox like order f
         (Z.of_nat (k / Z.to_nat per_page) + 1) per_page t = Some p /\
       nth_error (feedbacks p) (k mod Z.to_nat per_page)
         = nth_error selection k /\
       (Z.of_nat (k / Z.to_nat per_page) + 1 <= total_pages p)%Z) /\
  (forall page p,
     admin_inbox like order f page per_page t = Some p ->
     (total_pages p < page)%Z -> feedbacks p = []).
Proof.
  intros Hperm Hpp Hlen selection.
  assert (Lsel : length selection = length (filter (where_clause like f) t))
    by (apply Permutation_length, Hperm).
  assert (Lfil : (length (filter (where_clause like f) t) <= length t)%nat)
    by apply filter_length_le.
  set (pp := Z.to_nat per_page).
  assert (Epp : per_page = Z.of_nat pp) by (subst pp; lia).
  assert (Ppp : (0 < pp)%nat) by lia.
  split.
  - intros k Hk.
    pose proof (Nat.div_mod_eq k pp) as DM.
    pose proof (Nat.mod_upper_bound k pp ltac:(lia)) as MB.
    unfold admin_inbox.
    replace ((Z.of_nat (k / pp) + 1 - 1) * per_page)%Z
      with (Z.of_nat (pp * (k / pp))) by lia.
    rewrite (fits_int64_small per_page) by lia.
    rewrite (fits_int64_small (Z.of_nat (pp * (k / pp)))) by lia.
    cbn [andb negb].
    destruct (Z.eqb_spec per_page 0) as [Z0 | _]; [lia|].
    eexists. split; [reflexivity|].
    cbn [feedbacks total_pages]. fold selection. split.
    + unfold limit_offset. destruct (Z.ltb_spec per_page 0); [lia|].
      rewrite nth_error_firstn. fold pp.
      destruct (Nat.ltb_spec (k mod pp) pp); [|lia].
      rewrite nth_error_skipn, Nat2Z.id. f_equal. lia.
    + rewrite <- Lsel.
      assert (D : (Z.of_nat (k / pp) + 1
                   <= (Z.of_nat (length selection) + per_page - 1) / per_page)%Z).
      { rewrite Nat2Z.inj_div, <- Epp.
        replace (Z.of_nat (length selection) + per_page - 1)%Z
          with (Z.of_nat (length selection) - 1 + 1 * per_page)%Z by lia.
        rewrite Z.div_add by lia.
        apply Z.add_le_mono_r, Z.div_le_mono; lia. }
      lia.
  - intros page p. unfold admin_inbox.
    destruct (negb _); [discriminate|].
    destruct (Z.eqb_spec per_page 0) as [Z0 | _]; [lia|].
    intros [= <-]. cbn [feedbacks total_pages]. fold selection.
    rewrite <- Lsel. intros Beyond.
    unfold limit_offset. destruct (Z.ltb_spec per_page 0); [lia|].
    rewrite skipn_all2; [now destruct (Z.to_nat per_page)|].
    set (n := Z.of_nat (length selection)) in *.
    assert (N0 : (0 <= n)%Z) by (subst n; lia).
    pose proof (Z.div_mod (n + per_page - 1) per_page ltac:(lia)) as DM.
    pose proof (Z.mod_pos_bound (n + per_page - 1) per_page ltac:(lia)) as MB.
    assert (Q : (n <= per_page * ((n + per_page - 1) / per_page))%Z) by lia.
    assert (G : (n <= (page - 1) * per_page)%Z) by nia.
    lia.
Qed.

Lemma inbox_pages_cover_witness :
  let selection := Cases.toy_order
                     (filter (where_clause Cases.toy_like Cases.no_filters)
                        Cases.five_rows) in
  (forall k, (k < length selection)%nat ->
     exists p,
       admin_inbox Cases.toy_like Cases.toy_order Cases.no_filters
         (Z.of_nat (k / Z.to_nat 3) + 1) 3 Cases.five_rows = Some p /\
       nth_error (feedbacks p) (k mod Z.to_nat 3) = nth_error selection k /\
       (Z.of_nat (k / Z.to_nat 3) + 1 <= total_pages p)%Z) /\
  (forall page p,
     admin_inbox Cases.toy_like Cases.toy_order Cases.no_filters page 3
       Cases.five_rows = Some p ->
     (total_pages p < page)%Z -> feedbacks p = []).
Proof.
  apply (inbox_pages_cover Cases.toy_like Cases.toy_order Cases.no_filters 3
           Cases.five_rows).
  - intros l. symmetry. apply Permutation_rev.
  - lia.
  - cbn. lia.
Defined.

(** With a page size of 0 the query is answered by a server error. *)
Example inbox_page_size_zero :
  admin_inbox Cases.toy_like Cases.toy_order Cases.no_filters 1 0
    Cases.five_rows = None.
Proof. reflexivity. Qed.

(** ** The tag counts of the analytics page *)

Import Analytics.

Lemma split_on_without (sep : N) (s : str) :
  ~ In sep s -> split_on sep s = [s].
Proof.
  induction s as [|c s IH]; intros H; cbn [split_on]; [reflexivity|].
  destruct (N.eqb_spec c sep) as [E | NE].
  - exfalso. apply H. now left.
  - rewrite IH; [reflexivity|]. intros Hin. apply H. now right.
Qed.

Lemma split_on_first (sep : N) (p rest : str) :
  ~ In sep p -> split_on sep (p ++ sep :: rest) = p :: split_on sep rest.
Proof.
  induction p as [|c p IH]; intros H; cbn [app split_on].
  - now rewrite N.eqb_refl.
  - destruct (N.eqb_spec c sep) as [E | NE].
    + exfalso. apply H. now left.
    + rewrite IH; [reflexivity|]. intros Hin. apply H. now right.
Qed.

(** Splitting at the commas undoes the joining with commas, for parts
    that hold no comma. *)
Lemma split_on_join (parts : list str) :
  parts <> [] -> Forall (fun p => ~ In 44%N p) parts ->
  split_on 44 (join (u ",") parts) = parts.
Proof.
  intros NE H. induction H as [|p parts Hp H IH]; [contradiction|].
  destruct parts as [|q parts].
  - cbn [join]. now apply split_on_without.
  - change (join (u ",") (p :: q :: parts))
      with (p ++ 44%N :: join (u ",") (q :: parts)).
    rewrite split_on_first by exact Hp.
    f_equal. apply IH. discriminate.
Qed.

(** A tag as the allow-list has them: some text, no comma, no white space
    at either end. *)
Lemma allowed_tags_are_tidy (tag : str) :
  In tag ALLOWED_TAGS ->
  ~ In 44%N tag /\ strip tag = tag /\ truthy tag = true.
Proof.
  intros H. unfold ALLOWED_TAGS in H. cbn [In] in H.
  repeat match goal with
         | H : _ \/ _ |- _ => destruct H as [<- | H]
         end; try contradiction;
    (split; [vm_compute; intuition discriminate | split; reflexivity]).
Qed.

Lemma row_tags_of_joined (tags : list str) :
  Forall (fun tag => In tag ALLOWED_TAGS) tags ->
  row_tags (join (u ",") tags) = tags.
Proof.
  intros H. unfold row_tags.
  destruct tags as [|t0 tags]; [reflexivity|].
  rewrite split_on_join; [|discriminate|].
  - induction H as [|x l Hx H IH]; [reflexivity|].
    apply allowed_tags_are_tidy in Hx as (_ & Hs & Ht).
    cbn [map filter]. rewrite Hs, Ht. now rewrite IH.
  - eapply Forall_impl; [|exact H]. intros x Hx.
    now apply allowed_tags_are_tidy in Hx.
Qed.

Lemma fallback_tags_allowed (message : str) :
  Forall (fun tag => In tag ALLOWED_TAGS) (fallback_tags message).
Proof.
  unfold fallback_tags.
  rewrite scan_keywords_firstn by (cbn; lia). cbn [app length].
  destruct (firstn _ _) as [|x l] eqn:E.
  - constructor; [|constructor].
    exact (proj1 (str_in_In _ _) other_is_allowed).
  - rewrite <- E. apply Forall_forall. intros y Hy.
    apply In_firstn in Hy. apply keywords_map_tags_allowed.
    apply in_map_iff in Hy as (row & <- & Hrow).
    apply filter_In in Hrow as [Hrow _]. now apply in_map.
Qed.

(** X23.  What the worker stores in [tags] is read back by the analytics
    page as the list of tags it was made from, on either path: the tags of
    the local heuristics, and the answered tags that passed the
    allow-list. *)
Theorem stored_tags_are_read_back (message : str) (answered : list str) :
  row_tags (join (u ",") (fallback_tags message)) = fallback_tags message /\
  row_tags (join (u ",")
              (filter (fun tag => str_in tag ALLOWED_TAGS) answered))
  = filter (fun tag => str_in tag ALLOWED_TAGS) answered.
Proof.
  split; apply row_tags_of_joined.
  - apply fallback_tags_allowed.
  - apply allowed_filter_spec.
Qed.

Lemma str_eqb_spec (a b : str) : reflect (a = b) (str_eqb a b).
Proof.
  destruct (str_eqb a b) eqn:E; constructor.
  - now apply str_eqb_eq.
  - intros H. apply str_eqb_eq in H. congruence.
Qed.

Lemma get_bump (tag q : str) (d : list (str * Z)) :
  get q (bump tag d) = (get q d + if str_eqb tag q then 1 else 0)%Z.
Proof.
  induction d as [|[k v] d IH]; cbn [bump get].
  - destruct (str_eqb tag q); lia.
  - destruct (str_eqb_spec k tag) as [-> | NE]; cbn [get].
    + destruct (str_eqb tag q); lia.
    + destruct (str_eqb_spec k q) as [-> | NQ]; [|exact IH].
      destruct (str_eqb_spec tag q); [congruence | lia].
Qed.

Lemma bump_keys (tag : str) (d : list (str * Z)) :
  map fst (bump tag d) =
  if str_in tag (map fst d) then map fst d else map fst d ++ [tag].
Proof.
  induction d as [|[k v] d IH]; cbn [bump map fst str_in existsb app];
    [reflexivity|].
  fold (str_in tag (map fst d)).
  destruct (str_eqb_spec k tag) as [-> | NE]; cbn [map fst].
  - now rewrite (proj2 (str_eqb_eq tag tag) eq_refl).
  - rewrite IH.
    destruct (str_eqb_spec tag k); [congruence|]. cbn [orb].
    now destruct (str_in tag (map fst d)).
Qed.

Lemma by_tag_loop (tags : list str) (d : list (str * Z)) (q : str) :
  NoDup (map fst d) ->
  let d' := fold_left (fun d tag => bump tag d) tags d in
  get q d' = (get q d
              + Z.of_nat (length (filter (fun tag => str_eqb tag q) tags)))%Z /\
  NoDup (map fst d') /\
  (In q (map fst d') <-> In q (map fst d) \/ In q tags).
Proof.
  revert d. induction tags as [|tag tags IH]; intros d ND; cbn [fold_left].
  - cbn. split; [lia|]. split; [exact ND | tauto].
  - assert (ND' : NoDup (map fst (bump tag d))).
    { rewrite bump_keys. destruct (str_in tag (map fst d)) eqn:E; [exact ND|].
      apply NoDup_snoc; [exact ND|].
      intros H. apply str_in_In in H. congruence. }
    destruct (IH (bump tag d) ND') as (G & N & K). cbv zeta in G, N, K.
    split; [|split; [exact N|]].
    + rewrite G, get_bump. cbn [filter].
      destruct (str_eqb tag q); cbn [length]; lia.
    + rewrite K, bump_keys. cbn [In].
      destruct (str_in tag (map fst d)) eqn:E.
      * apply str_in_In in E. intuition congruence.
      * rewrite in_app_iff. cbn [In]. tauto.
Qed.

(** X24.  The tag counts of the analytics page: each tag that occurs in
    the [tags] of some live row is listed once, with the number of its
    occurrences over all live rows, and no other tag is listed. *)
Theorem by_tag_counts_occurrences (t : Feedback.table) (tag : str) :
  get tag (by_tag t)
  = Z.of_nat (length (filter (fun x => str_eqb x tag)
                        (flat_map row_tags (tag_rows t)))) /\
  NoDup (map fst (by_tag t)) /\
  (In tag (map fst (by_tag t)) <-> In tag (flat_map row_tags (tag_rows t))).
Proof.
  unfold by_tag.
  destruct (by_tag_loop (flat_map row_tags (tag_rows t)) [] tag
              ltac:(constructor)) as (G & N & K).
  cbv zeta in G, N, K. cbn [get map In] in G, K.
  split; [rewrite G; lia|]. split; [exact N | tauto].
Qed.

(** Two submissions enriched by the local heuristics, one of them deleted
    afterwards: the page counts the tags of the other. *)
Example by_tag_of_two_rows :
  by_tag
    [Feedback.set_enrichment (u "en") [] [] [] (u "Salary,Management")
       (Scenario.row_with 1 None);
     Triage.set_is_deleted (u "2024-01-02T09:00:00")
       (Feedback.set_enrichment (u "en") [] [] [] (u "Salary")
          (Scenario.row_with 2 None));
     Feedback.set_enrichment (u "en") [] [] [] (u "Store, Salary")
       (Scenario.row_with 3 None)]
  = [(u "Salary", 2%Z); (u "Management", 1%Z); (u "Store", 1%Z)].
Proof. reflexivity. Qed.

(** ** The public submission handler: files *)

Lemma bytes_eqb_eq (a b : list N) : bytes_eqb a b = true <-> a = b.
Proof.
  revert b; induction a as [|x a IH]; intros [|y b]; cbn [bytes_eqb];
    try (split; congruence).
  rewrite andb_true_iff, N.eqb_eq, IH. split.
  - now intros [-> ->].
  - now intros [= -> ->].
Qed.

Lemma firstn_is_prefix {A} (p l : list A) :
  firstn (length p) l = p <-> exists rest, l = p ++ rest.
Proof.
  split.
  - intros H. exists (skipn (length p) l).
    rewrite <- H at 1. symmetry. apply firstn_skipn.
  - intros (rest & ->).
    rewrite firstn_app, firstn_all, Nat.sub_diag. cbn [firstn].
    apply app_nil_r.
Qed.

(** X25.  The signature check that stands in for the MIME detection
    accepts exactly the contents of at least 12 bytes that begin with the
    JPEG marker [FF D8 FF] or with the eight bytes of the PNG signature. *)
Theorem image_signature_is_jpeg_or_png (content : list N) :
  _validate_image_signature content = true <->
  (12 <= length content)%nat /\
  ((exists rest, content = [255; 216; 255]%N ++ rest) \/
   (exists rest, content = [137; 80; 78; 71; 13; 10; 26; 10]%N ++ rest)).
Proof.
  unfold _validate_image_signature.
  rewrite <- (firstn_is_prefix [255; 216; 255]%N content).
  rewrite <- (firstn_is_prefix [137; 80; 78; 71; 13; 10; 26; 10]%N content).
  cbn [length].
  destruct (Nat.ltb_spec (length content) 12) as [L | L].
  - split; [discriminate | lia].
  - destruct (bytes_eqb (firstn 3 content) [255; 216; 255]%N) eqn:J.
    + apply bytes_eqb_eq in J. tauto.
    + destruct (bytes_eqb (firstn 8 content)
                  [137; 80; 78; 71; 13; 10; 26; 10]%N) eqn:P.
      * apply bytes_eqb_eq in P. tauto.
      * split; [discriminate|]. intros [_ [H | H]]; apply bytes_eqb_eq in H;
          congruence.
Qed.

Lemma zfill_digits (k : nat) (n : N) :
  Forall (fun c => (48 <= c <= 57)%N) (zfill k n).
Proof.
  induction k as [|k IH]; cbn [zfill]; constructor; [|exact IH].
  pose proof (N.mod_lt (n / 10 ^ N.of_nat k) 10 ltac:(discriminate)) as H.
  revert H. generalize ((n / 10 ^ N.of_nat k) mod 10)%N. intros d H. lia.
Qed.

(** The characters a generated file name is made of: digits, the
    underscore, the dot, small letters. *)
Lemma stamp_characters (d : datetime) :
  Forall (fun c => (48 <= c <= 57)%N \/ c = 95%N) (stamp d).
Proof.
  unfold stamp. change (u "_") with [95%N].
  repeat (apply Forall_app; split);
    try (eapply Forall_impl; [|apply zfill_digits]; cbv beta; intros; lia).
  constructor; [now right | constructor].
Qed.

Lemma extension_characters (ext : str) :
  In ext [u "jpg"; u "jpeg"; u "png"] ->
  Forall (fun c => (97 <= c <= 122)%N) ext.
Proof.
  cbn [In]. intros [<- | [<- | [<- | []]]];
    repeat (constructor; [split; discriminate|]); constructor.
Qed.

(** The text [rsplit(".", 1)[-1]] yields stands after the last dot of the
    name. *)
Lemma after_last_dot_none (name : str) :
  after_last_dot name = None -> ~ In 46%N name.
Proof.
  induction name as [|c rest IH]; cbn [after_last_dot In]; [tauto|].
  destruct (after_last_dot rest); [discriminate|].
  destruct (N.eqb_spec c 46); [discriminate|].
  intros _ [E | H]; [congruence | now apply IH].
Qed.

Lemma after_last_dot_some (name e : str) :
  after_last_dot name = Some e ->
  exists base, name = base ++ u "." ++ e /\ ~ In 46%N e.
Proof.
  revert e. induction name as [|c rest IH]; intros e; cbn [after_last_dot];
    [discriminate|].
  destruct (after_last_dot rest) as [ext|] eqn:R.
  - intros [= ->]. destruct (IH e eq_refl) as (base & -> & Hno).
    exists (c :: base). split; [reflexivity | exact Hno].
  - destruct (N.eqb_spec c 46) as [-> | _]; [|discriminate].
    intros [= <-]. exists []. split; [reflexivity|].
    now apply after_last_dot_none.
Qed.

(** A text whose lower case is made of small ASCII letters other than
    [i] and [k] differs from it in the case of its letters only. *)
Lemma lower_is_case_only (e ext : str) :
  Forall (fun k => k <> 105 /\ k <> 107)%N ext ->
  lower e = ext ->
  Forall2 (fun c k => c = k \/ ((65 <= c <= 90) /\ k = c + 32)%N) e ext.
Proof.
  revert ext. induction e as [|c e IH]; intros ext Hext; unfold lower;
    cbn [flat_map].
  - intros <-. constructor.
  - fold (lower e). unfold lower_char.
    destruct (N.leb_spec 65 c) as [Lo|Lo];
      [destruct (N.leb_spec c 90) as [Hi|Hi]|]; cbn [andb].
    + intros <-. inversion Hext; subst.
      constructor; [right; split; [lia | reflexivity] | now apply IH].
    + destruct (N.eqb_spec c 304);
        [intros <-; inversion Hext; subst; cbn in *; tauto|].
      destruct (N.eqb_spec c 8490);
        [intros <-; inversion Hext; subst; cbn in *; tauto|].
      intros <-. inversion Hext; subst.
      constructor; [now left | now apply IH].
    + destruct (N.eqb_spec c 304); [lia|].
      destruct (N.eqb_spec c 8490); [lia|].
      intros <-. inversion Hext; subst.
      constructor; [now left | now apply IH].
Qed.

Lemma extension_without_i_k (ext : str) :
  In ext [u "jpg"; u "jpeg"; u "png"] ->
  Forall (fun k => k <> 105 /\ k <> 107)%N ext.
Proof.
  cbn [In]. intros [<- | [<- | [<- | []]]];
    repeat (constructor; [split; discriminate|]); constructor.
Qed.

(** X26.  A photo is stored only when it is not empty, not larger than
    the configured maximum, and passed the content check, and when the
    text after the last dot of the name the client sent is [jpg], [jpeg]
    or [png] in any mix of upper and lower case.  The name it is stored
    under is the time stamp of the clock, an underscore, the four digits
    of the drawn number, a dot and that extension in lower case: of the
    name the client sent it holds nothing but the extension; it holds
    digits, underscores, small letters and exactly one dot, so no path
    separator. *)
Theorem stored_photo_is_checked_and_renamed
    (magic_from_buffer : option (list N -> str)) (cfg : config)
    (photo : option upload) (sur : surroundings)
    (files files' : list (str * list N)) (name : str) :
  store_photo magic_from_buffer cfg photo sur files = inr (Some name, files') ->
  exists ph base e ext,
    photo = Some ph /\
    filename ph = base ++ u "." ++ e /\ ~ In 46%N e /\
    Forall2 (fun c k => c = k \/ ((65 <= c <= 90) /\ k = c + 32)%N) e ext /\
    In ext [u "jpg"; u "jpeg"; u "png"] /\
    name = stamp (utcnow sur) ++ u "_" ++ zfill 4 (drawn_suffix sur)
           ++ u "." ++ ext /\
    files' = files ++ [(name, content ph)] /\
    (0 < length (content ph))%nat /\
    (Z.of_nat (length (content ph)) <= MAX_FILE_SIZE cfg)%Z /\
    match magic_from_buffer with
    | Some from_buffer =>
        In (from_buffer (content ph)) [u "image/jpeg"; u "image/png"]
    | None => _validate_image_signature (content ph) = true
    end /\
    length name = (21 + length ext)%nat /\
    length (filter (N.eqb 46) name) = 1%nat /\
    Forall (fun c => (48 <= c <= 57)%N \/ c = 95%N \/ c = 46%N \/
                     (97 <= c <= 122)%N) name.
Proof.
  unfold store_photo.
  destruct photo as [ph|]; [|discriminate].
  destruct (negb (truthy (filename ph))); [discriminate|].
  destruct (Nat.eqb_spec (length (content ph)) 0) as [E0 | N0]; [discriminate|].
  destruct (Z.ltb_spec (MAX_FILE_SIZE cfg) (Z.of_nat (length (content ph))))
    as [Big | Small]; [discriminate|].
  destruct (after_last_dot (filename ph)) as [e|] eqn:Hdot;
    [|cbn [str_in negb]; discriminate].
  set (ext := lower e).
  destruct (str_in ext [u "jpg"; u "jpeg"; u "png"]) eqn:Hext;
    cbn [negb]; [|discriminate].
  apply str_in_In in Hext.
  apply after_last_dot_some in Hdot as (base & Hbase & Hno).
  assert (Checked :
    forall accepted : option str,
      accepted = None ->
      match accepted with
      | Some detail => inl detail
      | None =>
          inr (Some (stamp (utcnow sur) ++ u "_" ++ zfill 4 (drawn_suffix sur)
                     ++ u "." ++ ext),
               files ++ [(stamp (utcnow sur) ++ u "_"
                          ++ zfill 4 (drawn_suffix sur) ++ u "." ++ ext,
                          content ph)])
      end = inr (Some name, files') ->
      name = stamp (utcnow sur) ++ u "_" ++ zfill 4 (drawn_suffix sur)
             ++ u "." ++ ext /\
      files' = files ++ [(name, content ph)]).
  { intros accepted -> [= <- <-]. split; reflexivity. }
  intros H.
  assert (Hacc :
    match magic_from_buffer with
    | Some from_buffer =>
        In (from_buffer (content ph)) [u "image/jpeg"; u "image/png"]
    | None => _validate_image_signature (content ph) = true
    end /\
    name = stamp (utcnow sur) ++ u "_" ++ zfill 4 (drawn_suffix sur)
           ++ u "." ++ ext /\
    files' = files ++ [(name, content ph)]).
  { destruct magic_from_buffer as [from_buffer|].
    - destruct (str_in (from_buffer (content ph)) [u "image/jpeg"; u "image/png"])
        eqn:M; [|discriminate].
      split; [now apply str_in_In|]. now apply (Checked None).
    - destruct (_validate_image_signature (content ph)) eqn:S; [|discriminate].
      split; [reflexivity|]. now apply (Checked None). }
  destruct Hacc as (Hcheck & Hname & Hfiles).
  exists ph, base, e, ext. split; [reflexivity|].
  split; [exact Hbase|]. split; [exact Hno|].
  split; [exact (lower_is_case_only e ext (extension_without_i_k ext Hext)
                   eq_refl)|].
  split; [exact Hext|]. split; [exact Hname|].
  split; [exact Hfiles|]. split; [lia|]. split; [exact Small|].
  split; [exact Hcheck|].
  rewrite Hname. change (u "_") with [95%N]. change (u ".") with [46%N].
  split; [|split].
  - unfold stamp. change (u "_") with [95%N].
    rewrite !length_app, !zfill_length. cbn [length]. lia.
  - rewrite !filter_app.
    rewrite (filter_none (N.eqb 46) (stamp (utcnow sur))).
    2:{ apply Forall_forall. eapply Forall_impl; [|apply stamp_characters].
        cbv beta. intros c Hc. apply N.eqb_neq. lia. }
    rewrite (filter_none (N.eqb 46) (zfill 4 (drawn_suffix sur))).
    2:{ apply Forall_forall. eapply Forall_impl; [|apply zfill_digits].
        cbv beta. intros c Hc. apply N.eqb_neq. lia. }
    rewrite (filter_none (N.eqb 46) (ext)).
    2:{ apply Forall_forall. eapply Forall_impl; [|exact (extension_characters ext Hext)].
        cbv beta. intros c Hc. apply N.eqb_neq. lia. }
    reflexivity.
  - apply Forall_app. split.
    { eapply Forall_impl; [|apply stamp_characters]. cbv beta. intros; lia. }
    constructor; [auto|].
    apply Forall_app. split.
    { eapply Forall_impl; [|apply zfill_digits]. cbv beta. intros; lia. }
    constructor; [auto|].
    eapply Forall_impl; [|exact (extension_characters ext Hext)].
    cbv beta. intros; lia.
Qed.

Lemma stored_photo_is_checked_and_renamed_witness :
  exists ph base e ext,
    Some Cases.jpeg_upload = Some ph /\
    filename ph = base ++ u "." ++ e /\ ~ In 46%N e /\
    Forall2 (fun c k => c = k \/ ((65 <= c <= 90) /\ k = c + 32)%N) e ext /\
    In ext [u "jpg"; u "jpeg"; u "png"] /\
    u "20240102_100000_4711.jpg"
      = stamp (utcnow Scenario.quiet) ++ u "_"
        ++ zfill 4 (drawn_suffix Scenario.quiet) ++ u "." ++ ext /\
    [(u "20240102_100000_4711.jpg", content Cases.jpeg_upload)]
      = [] ++ [(u "20240102_100000_4711.jpg", content ph)] /\
    (0 < length (content ph))%nat /\
    (Z.of_nat (length (content ph))
     <= MAX_FILE_SIZE (default_config Scenario.secret))%Z /\
    _validate_image_signature (content ph) = true /\
    length (u "20240102_100000_4711.jpg") = (21 + length ext)%nat /\
    length (filter (N.eqb 46) (u "20240102_100000_4711.jpg")) = 1%nat /\
    Forall (fun c => (48 <= c <= 57)%N \/ c = 95%N \/ c = 46%N \/
                     (97 <= c <= 122)%N) (u "20240102_100000_4711.jpg").
Proof.
  exact (stored_photo_is_checked_and_renamed None
           (default_config Scenario.secret) (Some Cases.jpeg_upload)
           Scenario.quiet []
           [(u "20240102_100000_4711.jpg", content Cases.jpeg_upload)]
           (u "20240102_100000_4711.jpg") eq_refl).
Defined.

(** The upload of the example is named [../../etc/Photo.JPG]; it is
    stored as [20240102_100000_4711.jpg]. *)
Example photo_is_renamed :
  store_photo None (default_config Scenario.secret) (Some Cases.jpeg_upload)
    Scenario.quiet [] =
  inr (Some (u "20240102_100000_4711.jpg"),
       [(u "20240102_100000_4711.jpg", content Cases.jpeg_upload)]).
Proof. vm_compute. reflexivity. Qed.

(** ** The public submission handler: what an accepted request stores *)

Lemma html_escape_safe (s : str) :
  Forall (fun c => c <> 60 /\ c <> 62 /\ c <> 34 /\ c <> 39)%N (html_escape s).
Proof.
  unfold html_escape.
  induction s as [|c s IH]; cbn [flat_map]; [constructor|].
  apply Forall_app. split; [|exact IH].
  destruct (N.eqb_spec c 38); [repeat constructor; discriminate|].
  destruct (N.eqb_spec c 60); [repeat constructor; discriminate|].
  destruct (N.eqb_spec c 62); [repeat constructor; discriminate|].
  destruct (N.eqb_spec c 34); [repeat constructor; discriminate|].
  destruct (N.eqb_spec c 39); [repeat constructor; discriminate|].
  constructor; [tauto | constructor].
Qed.

Lemma html_escape_nonempty (s : str) : s <> [] -> html_escape s <> [].
Proof.
  destruct s as [|c s]; [contradiction|]. intros _.
  unfold html_escape. cbn [flat_map].
  destruct (c =? 38)%N; [discriminate|].
  destruct (c =? 60)%N; [discriminate|].
  destruct (c =? 62)%N; [discriminate|].
  destruct (c =? 34)%N; [discriminate|].
  destruct (c =? 39)%N; discriminate.
Qed.

(** The ways a request ends: the two rows are committed, and the store is
    the old one with the new row, the new event and the files written
    (the answer is the thank-you page, or the error page when a step
    after the commit raised); or the request is not accepted, and the two
    tables and the counter are as they were. *)
Lemma submit_feedback_outcome
    (sha256_hexdigest : str -> str) (magic_from_buffer : option (list N -> str))
    (cfg : config) (req : request) (sur : surroundings) (db : store) :
  let out := submit_feedback sha256_hexdigest magic_from_buffer cfg req sur db in
  (exists sid photo_path files,
     (fst out = Thank_you sid (feedback_seq db + 1) \/ fst out = Server_error) /\
     truthy (or_empty (form_anonymity_consent req)) = true /\
     str_in (or_empty (form_category req))
       [u "complaint"; u "idea"; u "recommendation"; u "other"] = true /\
     truthy (strip (or_empty (form_message req))) = true /\
     (length (or_empty (form_message req)) <= 1000)%nat /\
     first_free_id (drawn_ids sur) (feedback db) = Some sid /\
     snd out =
       mk_store
         (feedback db ++
          [new_row (feedback_seq db + 1) sid (or_empty (form_category req))
             (html_escape (strip (or_empty (form_message req)))) photo_path
             (_hash_ip sha256_hexdigest cfg (client_ip req))
             (slice_to 500 (or_empty (header_user_agent req))) (utcnow sur)])
         (feedback_seq db + 1)
         (RateLimits.insert_default
            (_hash_ip sha256_hexdigest cfg (client_ip req))
            (utcnow sur) (rate_limits db))
         files)
  \/ (Traffic.accepted (fst out) = false /\
      feedback (snd out) = feedback db /\
      feedback_seq (snd out) = feedback_seq db /\
      rate_limits (snd out) = rate_limits db).
Proof.
  cbv zeta. unfold submit_feedback, turned_away, store_submission.
  destruct (truthy (or_empty (form_anonymity_consent req))) eqn:Hc;
    cbn [negb]; [|right; now repeat split].
  destruct (negb (_check_rate_limit _ _ _ _)); [right; now repeat split|].
  destruct (str_in (or_empty (form_category req)) _) eqn:Hcat;
    cbn [negb]; [|right; now repeat split].
  destruct (truthy (or_empty (form_message req))) eqn:Hm;
    cbn [negb orb]; [|right; now repeat split].
  destruct (truthy (strip (or_empty (form_message req)))) eqn:Hs;
    cbn [negb]; [|right; now repeat split].
  destruct (Nat.ltb_spec 1000 (length (or_empty (form_message req))));
    [right; now repeat split|].
  destruct (store_photo _ _ _ _ _) as [?|[photo_path files]];
    [right; now repeat split|].
  destruct (first_free_id _ _) as [sid|] eqn:Hid;
    [|right; now repeat split].
  unfold record_submission.
  destruct (insert_feedback_raises sur); [right; now repeat split|].
  destruct (insert_rate_limit_raises sur); [right; now repeat split|].
  destruct (commit_raises sur); [right; now repeat split|].
  left. exists sid, photo_path, files.
  destruct (after_commit_raises sur); cbn [fst snd];
    (split; [auto|]); now repeat split.
Qed.

(** X27.  The row an accepted request adds holds the message stripped and
    HTML-escaped: it is not empty and holds none of the characters
    [<], [>], double quote and single quote; its category is one of the
    four; the user agent is cut to 500 characters; the row is new, not
    deleted and waits for the worker. *)
Theorem accepted_submission_is_sanitized
    (sha256_hexdigest : str -> str) (magic_from_buffer : option (list N -> str))
    (cfg : config) (req : request) (sur : surroundings) (db : store)
    (sid : str) (fid : Z) :
  fst (submit_feedback sha256_hexdigest magic_from_buffer cfg req sur db)
    = Thank_you sid fid ->
  exists row m ua,
    feedback (snd (submit_feedback sha256_hexdigest magic_from_buffer cfg
                     req sur db)) = feedback db ++ [row] /\
    Feedback.id row = fid /\ Feedback.submission_id row = sid /\
    Feedback.message row = Some m /\
    m = html_escape (strip (or_empty (form_message req))) /\
    m <> [] /\
    Forall (fun c => c <> 60 /\ c <> 62 /\ c <> 34 /\ c <> 39)%N m /\
    In (Feedback.category row)
       [u "complaint"; u "idea"; u "recommendation"; u "other"] /\
    Feedback.user_agent row = Some ua /\ (length ua <= 500)%nat /\
    Feedback.status row = St_new /\ Feedback.ai_status row = Ai_pending /\
    Feedback.is_deleted row = 0%Z.
Proof.
  intros H.
  destruct (submit_feedback_outcome sha256_hexdigest magic_from_buffer cfg
              req sur db)
    as [(sid' & pp & files & Hfst & Hc & Hcat & Hs & Hl & Hid & Hsnd)
       | (Hacc & _)]; cbv zeta in *.
  2:{ rewrite H in Hacc. discriminate. }
  rewrite H in Hfst. destruct Hfst as [Hfst | Hfst]; [|discriminate].
  injection Hfst as E1 E2. subst sid' fid.
  rewrite Hsnd. cbn [feedback].
  eexists. exists (html_escape (strip (or_empty (form_message req)))).
  exists (slice_to 500 (or_empty (header_user_agent req))).
  split; [reflexivity|].
  cbn [new_row Feedback.id Feedback.submission_id Feedback.message
       Feedback.category Feedback.user_agent Feedback.status
       Feedback.ai_status Feedback.is_deleted].
  repeat split; try reflexivity.
  - apply html_escape_nonempty.
    destruct (strip (or_empty (form_message req))); discriminate.
  - apply html_escape_safe.
  - now apply str_in_In.
  - unfold slice_to. rewrite length_firstn. lia.
Qed.

Lemma accepted_submission_is_sanitized_witness :
  exists row m ua,
    feedback (snd (submit_feedback Scenario.toy_digest None
                     (default_config Scenario.secret) Scenario.plain_request
                     Scenario.quiet Scenario.one_submission))
      = feedback Scenario.one_submission ++ [row] /\
    Feedback.id row = 8%Z /\ Feedback.submission_id row = u "WDN-555-01" /\
    Feedback.message row = Some m /\
    m = html_escape (strip (or_empty (form_message Scenario.plain_request))) /\
    m <> [] /\
    Forall (fun c => c <> 60 /\ c <> 62 /\ c <> 34 /\ c <> 39)%N m /\
    In (Feedback.category row)
       [u "complaint"; u "idea"; u "recommendation"; u "other"] /\
    Feedback.user_agent row = Some ua /\ (length ua <= 500)%nat /\
    Feedback.status row = St_new /\ Feedback.ai_status row = Ai_pending /\
    Feedback.is_deleted row = 0%Z.
Proof.
  apply (accepted_submission_is_sanitized Scenario.toy_digest None
           (default_config Scenario.secret) Scenario.plain_request
           Scenario.quiet Scenario.one_submission (u "WDN-555-01") 8).
  vm_compute. reflexivity.
Defined.

(** ** The constraints of the [feedback] table under traffic *)

Import FeedbackSchema.

Lemma first_free_id_is_free (drawn : list str) (t : Feedback.table) (sid : str) :
  first_free_id drawn t = Some sid ->
  In sid drawn /\ ~ In sid (map Feedback.submission_id t).
Proof.
  induction drawn as [|x drawn IH]; cbn [first_free_id]; [discriminate|].
  destruct (Feedback.exists_submission_id x t) eqn:E.
  - intros H. apply IH in H as [H1 H2]. split; [now right | exact H2].
  - intros [= ->]. split; [now left|].
    intros H. apply in_map_iff in H as (r & Er & Hr).
    assert (T : Feedback.exists_submission_id sid t = true).
    { unfold Feedback.exists_submission_id. apply existsb_exists.
      exists r. split; [exact Hr | now apply str_eqb_eq]. }
    congruence.
Qed.

Lemma submission_keeps_constraints
    (sha256_hexdigest : str -> str) (magic_from_buffer : option (list N -> str))
    (cfg : config) (req : request) (sur : surroundings) (db : store) :
  constraints_hold db ->
  constraints_hold
    (snd (submit_feedback sha256_hexdigest magic_from_buffer cfg req sur db)).
Proof.
  intros (Hs & Hi & Hr).
  destruct (submit_feedback_outcome sha256_hexdigest magic_from_buffer cfg
              req sur db)
    as [(sid & pp & files & _ & _ & Hcat & _ & _ & Hid & Hsnd)
       | (_ & Hf & Hq & _)]; cbv zeta in *.
  - rewrite Hsnd. unfold constraints_hold. cbn [feedback feedback_seq].
    rewrite !map_app.
    cbn [map new_row Feedback.submission_id Feedback.id].
    apply first_free_id_is_free in Hid as [_ Hfree].
    split; [now apply NoDup_snoc|]. split.
    + apply NoDup_snoc; [exact Hi|].
      intros H. apply in_map_iff in H as (r & E & Hin).
      rewrite Forall_forall in Hr. apply Hr in Hin as [Hin _]. lia.
    + apply Forall_app. split.
      * eapply Forall_impl; [|exact Hr]. cbv beta. intros r [H1 H2].
        split; [lia | exact H2].
      * constructor; [|constructor].
        cbn [new_row Feedback.id Feedback.category].
        split; [lia | now apply str_in_In].
  - unfold constraints_hold. rewrite Hf, Hq. now repeat split.
Qed.

(** X28.  Whatever requests and sweeps arrive, the [feedback] table keeps
    its constraints: submission identifiers stay unique, row identifiers
    stay unique and below the AUTOINCREMENT counter, every category is one
    of the four.  So the INSERT of [submit_feedback] never runs into the
    UNIQUE or the CHECK constraint. *)
Theorem traffic_keeps_feedback_constraints
    (sha256_hexdigest : str -> str) (magic_from_buffer : option (list N -> str))
    (cfg : config) (events : list Traffic.event) (db : store) :
  constraints_hold db ->
  constraints_hold
    (snd (Traffic.serve sha256_hexdigest magic_from_buffer cfg events db)).
Proof.
  revert db. induction events as [|[req sur | db_raises now] events IH];
    intros db H; cbn [Traffic.serve snd].
  - exact H.
  - apply IH. now apply submission_keeps_constraints.
  - apply IH. exact H.
Qed.

Lemma traffic_keeps_feedback_constraints_witness :
  constraints_hold
    (snd (Traffic.serve Scenario.toy_digest None
            (default_config Scenario.secret) Cases.busy_morning
            Scenario.one_submission)).
Proof.
  apply (traffic_keeps_feedback_constraints Scenario.toy_digest None
           (default_config Scenario.secret) Cases.busy_morning
           Scenario.one_submission).
  unfold constraints_hold. vm_compute.
  repeat split; repeat constructor; cbn; intuition (discriminate || lia).
Defined.
